(** * Connect 4 battle server: board engine, retry loop and series controller

    A shallow embedding of [src/app.py], [src/anthropic_model_v1.py] and
    [src/openai_model_v1.py].

    - Python lists indexed by position are [list]s read with stdpp's
      lookup [l !! i] and written with [<[i:=x]> l]; an index outside the
      list raises [IndexError] in Python, which the embedding makes
      explicit with the [outcome] type.
    - Cells are the one-character Python strings ['.'], ['R'], ['Y'].
    - A Python text is held as the bytes of its UTF-8 encoding; equality,
      concatenation and the test for a substring are those of the bytes,
      and length and slicing count code points.
    - The handlers mutate the global dictionary [GAME_STATE] in place; the
      embedding passes the state explicitly and returns the state as it
      is left behind, also on the early returns. *)

From Stdlib Require Import ZArith String Ascii List Bool Lia DecimalString Sorted.
From stdpp Require Import base list strings.

Local Open Scope string_scope.

(** ** Outcomes of Python calls: a value or a raised exception *)

(** [OtherError] stands for the exceptions of library code (the JSON
    decoder, the HTTP clients), with their message. *)
Inductive exn : Type :=
| IndexError
| RuntimeError (msg : string)
| OtherError (msg : string).

(** [str(e)] *)
Definition exn_str (e : exn) : string :=
  match e with
  | IndexError => "list index out of range"
  | RuntimeError msg => msg
  | OtherError msg => msg
  end.

Inductive outcome (A : Type) : Type :=
| Return (a : A)
| Raise (e : exn).

Arguments Return {A} a.
Arguments Raise {A} e.

Definition obind {A B : Type} (m : outcome A) (k : A -> outcome B) : outcome B :=
  match m with
  | Return a => k a
  | Raise e => Raise e
  end.

Notation "'do' x <- m ; k" := (obind m (fun x => k))
  (at level 10, x name, m at level 100, k at level 200).

(** ** Board engine (app.py, lines 17-140) *)

Module Board.

Definition COLS : nat := 7.
Definition ROWS : nat := 6.

(** A board is a list of [ROWS] rows, row 0 at the top; each row is a list
    of [COLS] cells. *)
Abbreviation grid := (list (list string)).

(** [create_empty_board]: the nested comprehension builds [ROWS] distinct
    row objects, so rows never alias each other. *)
Definition create_empty_board : grid :=
  replicate ROWS (replicate COLS ".").

(** [board[row][col]] for non-negative indices. *)
Definition board_get (b : grid) (row col : nat) : outcome string :=
  match b !! row with
  | None => Raise IndexError
  | Some r =>
      match r !! col with
      | None => Raise IndexError
      | Some x => Return x
      end
  end.

(** [board[row][col] = piece], executed only after the same cell was read. *)
Definition board_set (b : grid) (row col : nat) (piece : string) : grid :=
  match b !! row with
  | None => b
  | Some r => <[row := <[col := piece]> r]> b
  end.

(** [get_valid_columns]: the loop [for col in range(COLS)] with its
    accumulator [valid]. *)
Fixpoint valid_loop (b : grid) (cols : list nat) (valid : list Z) : outcome (list Z) :=
  match cols with
  | [] => Return valid
  | col :: rest =>
      do x <- board_get b 0 col;
      valid_loop b rest
        (if String.eqb x "." then valid ++ [(Z.of_nat col + 1)%Z] else valid)
  end.

Definition get_valid_columns (b : grid) : outcome (list Z) :=
  valid_loop b (seq 0 COLS) [].

(** [drop_piece]: the loop [for row in range(ROWS - 1, -1, -1)]; [n] is the
    number of rows still to visit, the row visited is [n - 1]. The result
    is the board as the call leaves it, with the returned pair
    [(success, row_placed)] or the exception. *)
Fixpoint drop_scan (b : grid) (col_idx : nat) (piece : string) (n : nat)
  : grid * outcome (bool * Z) :=
  match n with
  | O => (b, Return (false, (-1)%Z))
  | S row =>
      match board_get b row col_idx with
      | Raise e => (b, Raise e)
      | Return x =>
          if String.eqb x "."
          then (board_set b row col_idx piece, Return (true, Z.of_nat row))
          else drop_scan b col_idx piece row
      end
  end.

Definition drop_piece (b : grid) (col : Z) (piece : string)
  : grid * outcome (bool * Z) :=
  let col_idx := (col - 1)%Z in
  if (col_idx <? 0)%Z || (col_idx >=? Z.of_nat COLS)%Z
  then (b, Return (false, (-1)%Z))
  else drop_scan b (Z.to_nat col_idx) piece ROWS.

(** [a == piece and b == piece and c == piece and d == piece] over four
    cells, with Python's left-to-right short circuit: a later cell is read
    only when the earlier ones matched. *)
Definition four (b : grid) (piece : string)
    (c1 c2 c3 c4 : nat * nat) : outcome bool :=
  do x1 <- board_get b (fst c1) (snd c1);
  if negb (String.eqb x1 piece) then Return false else
  do x2 <- board_get b (fst c2) (snd c2);
  if negb (String.eqb x2 piece) then Return false else
  do x3 <- board_get b (fst c3) (snd c3);
  if negb (String.eqb x3 piece) then Return false else
  do x4 <- board_get b (fst c4) (snd c4);
  Return (String.eqb x4 piece).

(** A [for] loop whose body is [if cond: return True]. *)
Fixpoint for_any {A : Type} (f : A -> outcome bool) (l : list A) : outcome bool :=
  match l with
  | [] => Return false
  | x :: rest =>
      do hit <- f x;
      if hit then Return true else for_any f rest
  end.

Definition check_horizontal (b : grid) (piece : string) : outcome bool :=
  for_any (fun row =>
    for_any (fun col =>
      four b piece (row, col) (row, col + 1) (row, col + 2) (row, col + 3))
      (seq 0 (COLS - 3)))
    (seq 0 ROWS).

Definition check_vertical (b : grid) (piece : string) : outcome bool :=
  for_any (fun row =>
    for_any (fun col =>
      four b piece (row, col) (row + 1, col) (row + 2, col) (row + 3, col))
      (seq 0 COLS))
    (seq 0 (ROWS - 3)).

Definition check_down_right (b : grid) (piece : string) : outcome bool :=
  for_any (fun row =>
    for_any (fun col =>
      four b piece (row, col) (row + 1, col + 1) (row + 2, col + 2) (row + 3, col + 3))
      (seq 0 (COLS - 3)))
    (seq 0 (ROWS - 3)).

(** [for row in range(3, ROWS)]: [row - 3 >= 0], no negative index. *)
Definition check_up_right (b : grid) (piece : string) : outcome bool :=
  for_any (fun row =>
    for_any (fun col =>
      four b piece (row, col) (row - 1, col + 1) (row - 2, col + 2) (row - 3, col + 3))
      (seq 0 (COLS - 3)))
    (seq 3 (ROWS - 3)).

Definition check_winner (b : grid) (piece : string) : outcome bool :=
  do h <- check_horizontal b piece;
  if h then Return true else
  do v <- check_vertical b piece;
  if v then Return true else
  do d <- check_down_right b piece;
  if d then Return true else
  do u <- check_up_right b piece;
  if u then Return true else
  Return false.

(** [is_board_full]: [all(...)] over a generator stops at the first
    falsy element. *)
Fixpoint full_loop (b : grid) (cols : list nat) : outcome bool :=
  match cols with
  | [] => Return true
  | col :: rest =>
      do x <- board_get b 0 col;
      if negb (String.eqb x ".") then full_loop b rest else Return false
  end.

Definition is_board_full (b : grid) : outcome bool :=
  full_loop b (seq 0 COLS).

(** *** Vocabulary of the statements *)

(** The boards the program builds: [ROWS] rows of [COLS] cells. *)
Definition wf_board (b : grid) : Prop :=
  length b = ROWS /\ Forall (fun r => length r = COLS) b.

(** The cell at a position, [None] outside the grid. *)
Definition cell_of (b : grid) (row col : nat) : option string :=
  match b !! row with
  | None => None
  | Some r => r !! col
  end.

Definition cell_at (b : grid) (row col : Z) : option string :=
  if (0 <=? row)%Z && (0 <=? col)%Z
  then cell_of b (Z.to_nat row) (Z.to_nat col)
  else None.

Inductive direction : Type :=
| Horizontal
| Vertical
| DownRight
| UpRight.

(** Row and column increments of one step along a direction. *)
Definition delta (d : direction) : Z * Z :=
  match d with
  | Horizontal => (0, 1)
  | Vertical => (1, 0)
  | DownRight => (1, 1)
  | UpRight => (-1, 1)
  end%Z.

(** Four contiguous cells of the grid, starting at [(row, col)] and going
    along [d], all holding [piece]. *)
Definition run_of_four (b : grid) (piece : string)
    (row col : Z) (d : direction) : Prop :=
  forall k : Z, (0 <= k < 4)%Z ->
    cell_at b (row + k * fst (delta d)) (col + k * snd (delta d)) = Some piece.

Definition has_four (b : grid) (piece : string) : Prop :=
  exists row col d, run_of_four b piece row col d.

(** The length of the run of [piece] that starts at [(row, col)] and goes
    along [d], counted up to [fuel] cells. *)
Fixpoint run_length (b : grid) (piece : string)
    (row col : Z) (d : direction) (fuel : nat) : nat :=
  match fuel with
  | O => O
  | S fuel' =>
      match cell_at b row col with
      | Some x =>
          if String.eqb x piece
          then S (run_length b piece (row + fst (delta d)) (col + snd (delta d)) d fuel')
          else O
      | None => O
      end
  end.

(** Every run of [piece] on the board has length at most [n]. *)
Definition longest_run_at_most (b : grid) (piece : string) (n : nat) : Prop :=
  forall row col d, run_length b piece row col d (ROWS + COLS) <= n.

Definition occupied (x : string) : Prop := x <> ".".

(** No floating piece: below an occupied cell the column is occupied down
    to the bottom row. *)
Definition no_floating (b : grid) : Prop :=
  forall row col x,
    cell_of b row col = Some x -> occupied x ->
    forall row', row < row' < ROWS ->
      exists y, cell_of b row' col = Some y /\ occupied y.

(** A sequence of [drop_piece] calls, each of which must succeed. *)
Fixpoint place_all (b : grid) (moves : list (Z * string)) : option grid :=
  match moves with
  | [] => Some b
  | (col, piece) :: rest =>
      match drop_piece b col piece with
      | (b', Return (true, _)) => place_all b' rest
      | _ => None
      end
  end.

(** The test [board[row][col] == piece] on a cell of the grid. *)
Definition cell_is (b : grid) (piece : string) (row col : nat) : bool :=
  match cell_of b row col with
  | Some x => String.eqb x piece
  | None => false
  end.

Definition line_is (b : grid) (piece : string) (c1 c2 c3 c4 : nat * nat) : bool :=
  cell_is b piece (fst c1) (snd c1) && cell_is b piece (fst c2) (snd c2) &&
  cell_is b piece (fst c3) (snd c3) && cell_is b piece (fst c4) (snd c4).

Definition in_grid (c : nat * nat) : Prop := fst c < ROWS /\ snd c < COLS.

(** The four cells tested by each of the four scans of [check_winner]. *)
Definition horizontal_line (row col : nat) :=
  ((row, col), (row, col + 1), (row, col + 2), (row, col + 3)).
Definition vertical_line (row col : nat) :=
  ((row, col), (row + 1, col), (row + 2, col), (row + 3, col)).
Definition down_right_line (row col : nat) :=
  ((row, col), (row + 1, col + 1), (row + 2, col + 2), (row + 3, col + 3)).
Definition up_right_line (row col : nat) :=
  ((row, col), (row - 1, col + 1), (row - 2, col + 2), (row - 3, col + 3)).

Definition scan_is (b : grid) (piece : string) (rows cols : list nat)
    (line : nat -> nat -> (nat * nat) * (nat * nat) * (nat * nat) * (nat * nat)) : bool :=
  existsb (fun row => existsb (fun col =>
     let '(c1, c2, c3, c4) := line row col in line_is b piece c1 c2 c3 c4) cols) rows.

(** The value [check_winner] computes when no read leaves the grid. *)
Definition winner_is (b : grid) (piece : string) : bool :=
  scan_is b piece (seq 0 ROWS) (seq 0 (COLS - 3)) horizontal_line ||
  scan_is b piece (seq 0 (ROWS - 3)) (seq 0 COLS) vertical_line ||
  scan_is b piece (seq 0 (ROWS - 3)) (seq 0 (COLS - 3)) down_right_line ||
  scan_is b piece (seq 3 (ROWS - 3)) (seq 0 (COLS - 3)) up_right_line.


(** A column with no empty cell, and the two failure names the
    specification gives to a placement. *)
Definition column_full (b : grid) (col_idx : nat) : Prop :=
  forall row, row < ROWS ->
    exists y, cell_of b row col_idx = Some y /\ occupied y.

Definition column_has_empty (b : grid) (col_idx : nat) : Prop :=
  exists row, row < ROWS /\ cell_of b row col_idx = Some ".".

(** [row] is the lowest empty cell of the column: it is empty and every
    cell under it is occupied. *)
Definition lowest_empty (b : grid) (col_idx row : nat) : Prop :=
  row < ROWS /\ cell_of b row col_idx = Some "." /\
  forall row', row < row' < ROWS ->
    exists y, cell_of b row' col_idx = Some y /\ occupied y.

Inductive place_error : Type :=
| ColumnFullError
| ColumnOutOfRangeError.

(** Sample boards. *)
Definition empty_row : list string := [".";".";".";".";".";".";"."].

Definition red_bottom_row : grid :=
  [empty_row; empty_row; empty_row; empty_row; empty_row;
   ["R";"R";"R";"R";".";".";"."]].

Definition full_first_column : grid :=
  [["R";".";".";".";".";".";"."];
   ["Y";".";".";".";".";".";"."];
   ["R";".";".";".";".";".";"."];
   ["Y";".";".";".";".";".";"."];
   ["R";".";".";".";".";".";"."];
   ["Y";".";".";".";".";".";"."]].

(** The test [board[0][col] == '.'] on a column of the grid. *)
Definition top_empty (b : grid) (col_idx : nat) : bool :=
  match cell_of b 0 col_idx with
  | Some x => String.eqb x "."
  | None => false
  end.

(** The number of occupied cells of a row and of a board. *)
Fixpoint count_row (r : list string) : nat :=
  match r with
  | [] => 0
  | x :: rest => (if String.eqb x "." then 0 else 1) + count_row rest
  end.

Fixpoint count_occupied (b : grid) : nat :=
  match b with
  | [] => 0
  | r :: rest => count_row r + count_occupied rest
  end.

(** The columns of [get_valid_columns], written as one filter. *)
Definition open_columns (b : grid) : list Z :=
  map (fun col_idx => (Z.of_nat col_idx + 1)%Z) (List.filter (top_empty b) (seq 0 COLS)).

(** A board with a piece resting on nothing: the top of column 1 is taken,
    the cells under it are free. *)
Definition floating_board : grid :=
  [["R";".";".";".";".";".";"."];
   empty_row; empty_row; empty_row; empty_row; empty_row].

End Board.

(** ** The Claude move call with its retry loop
       (anthropic_model_v1.py, lines 10-12 and 161-244) *)

Module Retry.

Definition MAX_RETRIES : nat := 3.
Definition RETRY_DELAY_BASE : Z := 1.

(** A content block of a response. The code reads the attributes with
    [getattr(block, name, default)], so each may be missing ([None]). *)
Record block : Type := Block {
  block_type : option string;
  block_text : option string;
  block_thinking : option string;
  block_summary : option string
}.

(** Python truthiness of a string-or-None value, and [x or y]. *)
Definition truthy (o : option string) : bool :=
  match o with
  | Some s => negb (String.eqb s "")
  | None => false
  end.

Definition por (x y : option string) : option string :=
  if truthy x then x else y.

Definition str_or_empty (o : option string) : string :=
  match por o (Some "") with
  | Some s => s
  | None => ""
  end.

Definition type_is (bl : block) (name : string) : bool :=
  match block_type bl with
  | Some t => String.eqb t name
  | None => false
  end.

Definition newline : string := String (ascii_of_nat 10) EmptyString.

(** [str(n)] for the integers the code formats into messages. *)
Definition str_nat (n : nat) : string := NilEmpty.string_of_uint (Nat.to_uint n).

Section Call.

(** Library functions the call relies on: [str.strip], and
    [int(json.loads(text)["column"])] which either yields the integer or
    raises. The call to the remote API is [api]: the response content of
    the attempt with the given index, or the exception the client raises. *)
Variable strip : string -> string.
Variable parse_column : string -> outcome Z.
Variable api : nat -> outcome (list block).

(** The first loop over [response.content]: the thinking parts. *)
Fixpoint thinking_parts (content : list block) : list string :=
  match content with
  | [] => []
  | bl :: rest =>
      if type_is bl "thinking"
      then
        let s := str_or_empty (por (block_thinking bl) (block_summary bl)) in
        if negb (String.eqb s "") then s :: thinking_parts rest
        else thinking_parts rest
      else thinking_parts rest
  end.

Definition thinking_summary (content : list block) : option string :=
  match thinking_parts content with
  | [] => None
  | parts => Some (strip (String.concat newline parts))
  end.

(** The second loop: the text blocks whose text is not blank, appended. *)
Fixpoint json_text (content : list block) : string :=
  match content with
  | [] => ""
  | bl :: rest =>
      if type_is bl "text"
      then
        let t := str_or_empty (block_text bl) in
        if negb (String.eqb (strip t) "") then t ++ json_text rest
        else json_text rest
      else json_text rest
  end.

Definition exhausted_message : string :=
  "No text response from Claude model after " ++ str_nat MAX_RETRIES ++ " attempts.".

(** The loop [for attempt in range(MAX_RETRIES)]. [slept] is the list of
    the delays passed to [time.sleep] so far, oldest first. Both branches
    of [if use_thinking] run the same steps; the thinking branch also
    collects the summary. *)
Fixpoint retry_loop (use_thinking : bool) (attempts : list nat) (slept : list Z)
  : list Z * outcome (Z * option string) :=
  match attempts with
  | [] =>
      (slept,
       Raise (RuntimeError "Unexpected error in call_claude_move_with_thinking_flag"))
  | attempt :: rest =>
      match api attempt with
      | Raise e => (slept, Raise e)
      | Return content =>
          let summary := if use_thinking then thinking_summary content else None in
          let text := json_text content in
          if String.eqb (strip text) ""
          then
            if (attempt <? MAX_RETRIES - 1)%nat
            then
              let delay := (RETRY_DELAY_BASE * 2 ^ Z.of_nat attempt)%Z in
              retry_loop use_thinking rest (slept ++ [delay])
            else (slept, Raise (RuntimeError exhausted_message))
          else
            match parse_column text with
            | Raise e => (slept, Raise e)
            | Return column => (slept, Return (column, summary))
            end
      end
  end.

Definition call_claude_move_with_thinking_flag (use_thinking : bool)
  : list Z * outcome (Z * option string) :=
  retry_loop use_thinking (seq 0 MAX_RETRIES) [].

(** The structured-answer segment of a response is empty or blank. *)
Definition empty_answer (content : list block) : Prop :=
  strip (json_text content) = "".

(** The attempt with the given index got a response whose answer is
    empty. *)
Definition attempt_empty (attempt : nat) : Prop :=
  exists content, api attempt = Return content /\ empty_answer content.

(** What the call returns or raises once an attempt has an answer. *)
Definition answer_of (use_thinking : bool) (content : list block)
  : outcome (Z * option string) :=
  match parse_column (json_text content) with
  | Raise e => Raise e
  | Return column =>
      Return (column, if use_thinking then thinking_summary content else None)
  end.

End Call.

(** Sample instances of the library functions, for ASCII text. *)
Definition is_space (c : ascii) : bool :=
  let n := nat_of_ascii c in
  ((n =? 32) || ((9 <=? n) && (n <=? 13)) || ((28 <=? n) && (n <=? 31)))%nat.

Fixpoint lstrip (s : string) : string :=
  match s with
  | EmptyString => EmptyString
  | String c rest => if is_space c then lstrip rest else s
  end.

Fixpoint rstrip (s : string) : string :=
  match s with
  | EmptyString => EmptyString
  | String c rest =>
      match rstrip rest with
      | EmptyString => if is_space c then EmptyString else String c EmptyString
      | r => String c r
      end
  end.

Definition ascii_strip (s : string) : string := rstrip (lstrip s).

(** A decoder for the sample answers. It accepts the one shape the
    output schema allows, an object whose only member is [column] with an
    integer literal, written with JSON white space around the tokens, and
    raises on every other text. On the texts it accepts,
    [int(json.loads(text)["column"])] is the integer it returns. *)
Definition quote : string := String (ascii_of_nat 34) EmptyString.

Definition is_json_space (c : ascii) : bool :=
  let n := nat_of_ascii c in
  ((n =? 32) || (n =? 9) || (n =? 10) || (n =? 13))%nat.

Fixpoint skip_json_space (s : string) : string :=
  match s with
  | EmptyString => EmptyString
  | String c rest => if is_json_space c then skip_json_space rest else s
  end.

(** The rest of [s] after the token [token], when [s] starts with it. *)
Fixpoint expect (token s : string) : option string :=
  match token with
  | EmptyString => Some s
  | String a token' =>
      match s with
      | EmptyString => None
      | String b s' => if Ascii.eqb a b then expect token' s' else None
      end
  end.

Definition digit_of (c : ascii) : option Z :=
  let n := nat_of_ascii c in
  if ((48 <=? n) && (n <=? 57))%nat then Some (Z.of_nat (n - 48)) else None.

Fixpoint read_digits (s : string) (acc : Z) : Z * string :=
  match s with
  | EmptyString => (acc, s)
  | String c rest =>
      match digit_of c with
      | Some d => read_digits rest (10 * acc + d)%Z
      | None => (acc, s)
      end
  end.

(** A JSON integer without sign: [0], or a digit from 1 to 9 followed by
    digits. *)
Definition read_natural (s : string) : option (Z * string) :=
  match s with
  | EmptyString => None
  | String c rest =>
      match digit_of c with
      | None => None
      | Some d => if (d =? 0)%Z then Some (0%Z, rest) else Some (read_digits rest d)
      end
  end.

Definition read_integer (s : string) : option (Z * string) :=
  match expect "-" s with
  | Some rest =>
      match read_natural rest with
      | Some (n, rest') => Some ((- n)%Z, rest')
      | None => None
      end
  | None => read_natural s
  end.

Definition column_key : string := quote ++ "column" ++ quote.

Definition decode_column (text : string) : outcome Z :=
  let malformed := Raise (OtherError "JSONDecodeError") in
  match expect "{" (skip_json_space text) with
  | None => malformed
  | Some s1 =>
      match expect column_key (skip_json_space s1) with
      | None => malformed
      | Some s2 =>
          match expect ":" (skip_json_space s2) with
          | None => malformed
          | Some s3 =>
              match read_integer (skip_json_space s3) with
              | None => malformed
              | Some (column, s4) =>
                  match expect "}" (skip_json_space s4) with
                  | None => malformed
                  | Some s5 =>
                      match skip_json_space s5 with
                      | EmptyString => Return column
                      | _ => malformed
                      end
                  end
              end
          end
      end
  end.

(** The text [{"column": n}]. *)
Definition move_json (n : string) : string :=
  "{" ++ column_key ++ ": " ++ n ++ "}".

Definition text_block (t : string) : block :=
  Block (Some "text") (Some t) None None.

Definition thinking_block (t : string) : block :=
  Block (Some "thinking") None (Some t) None.

(** Two thinking-only attempts, then an answer. *)
Definition api_third_time_lucky (attempt : nat) : outcome (list block) :=
  match attempt with
  | 0 | 1 => Return [thinking_block "let me think"]
  | _ => Return [thinking_block "centre column"; text_block (move_json "4")]
  end.

(** Two thinking-only attempts, then a text that is not JSON. *)
Definition api_third_time_malformed (attempt : nat) : outcome (list block) :=
  match attempt with
  | 0 | 1 => Return [thinking_block "let me think"]
  | _ => Return [text_block "column: 4"]
  end.

Definition api_thinking_only (attempt : nat) : outcome (list block) :=
  Return [thinking_block "let me think"].

Definition api_no_blocks (attempt : nat) : outcome (list block) :=
  Return [].

(** ** The earlier entry point [call_claude_move]
       (anthropic_model_v1.py, lines 48-158) *)

(** [s.lower()] on ASCII text. *)
Definition lower_ascii (c : ascii) : ascii :=
  let n := nat_of_ascii c in
  if ((65 <=? n) && (n <=? 90))%nat then ascii_of_nat (n + 32) else c.

Fixpoint lower (s : string) : string :=
  match s with
  | EmptyString => EmptyString
  | String c rest => String (lower_ascii c) (lower rest)
  end.

(** [needle in s] *)
Fixpoint contains (needle s : string) : bool :=
  String.prefix needle s ||
  match s with
  | EmptyString => false
  | String _ rest => contains needle rest
  end.

(** Line 56: [model != "claude-haiku-4-5-20251001" or
    "standard" not in str(model).lower()]; [or] evaluates its right side
    only when the left one is false. *)
Definition claude_move_uses_thinking (model : string) : bool :=
  if negb (String.eqb model "claude-haiku-4-5-20251001") then true
  else negb (contains "standard" (lower model)).

Section CallMove.

(** [J] is the type of decoded JSON values; [json_loads] is [None] when
    [json.loads] raises [JSONDecodeError]; [column_of] is
    [int(data["column"])]; [repr_block_types] is the text of
    [[b.type for b in response.content]] in the error message, or the
    exception met while building it. The [logging.warning] calls are left
    out. *)
Variable strip : string -> string.
Variable J : Type.
Variable json_loads : string -> option J.
Variable column_of : J -> outcome Z.
Variable repr_block_types : list block -> outcome string.
Variable api : nat -> outcome (list block).

Definition decode_answer (text : string) (summary : option string)
  : outcome (Z * option string) :=
  match json_loads text with
  | None => Raise (RuntimeError ("Expected JSON from model, got:" ++ newline ++ text))
  | Some data =>
      match column_of data with
      | Raise e => Raise e
      | Return column => Return (column, summary)
      end
  end.

Fixpoint move_loop (use_thinking : bool) (attempts : list nat) (slept : list Z)
  : list Z * outcome (Z * option string) :=
  match attempts with
  | [] => (slept, Raise (RuntimeError "Unexpected error in call_claude_move"))
  | attempt :: rest =>
      match api attempt with
      | Raise e => (slept, Raise e)
      | Return content =>
          if use_thinking
          then
            let summary := thinking_summary strip content in
            let text := json_text strip content in
            if String.eqb (strip text) ""
            then
              if (attempt <? MAX_RETRIES - 1)%nat
              then
                let delay := (RETRY_DELAY_BASE * 2 ^ Z.of_nat attempt)%Z in
                move_loop use_thinking rest (slept ++ [delay])
              else
                match repr_block_types content with
                | Raise e => (slept, Raise e)
                | Return types =>
                    (slept,
                     Raise (RuntimeError
                              (exhausted_message ++ " Response blocks: " ++ types)))
                end
            else (slept, decode_answer text summary)
          else
            let text := json_text strip content in
            if String.eqb (strip text) ""
            then
              if (attempt <? MAX_RETRIES - 1)%nat
              then
                let delay := (RETRY_DELAY_BASE * 2 ^ Z.of_nat attempt)%Z in
                move_loop use_thinking rest (slept ++ [delay])
              else (slept, Raise (RuntimeError exhausted_message))
            else (slept, decode_answer text None)
      end
  end.

Definition call_claude_move (model : string) : list Z * outcome (Z * option string) :=
  move_loop (claude_move_uses_thinking model) (seq 0 MAX_RETRIES) [].

(** What [int(json.loads(text)["column"])] is for the other entry point,
    where a decoding error is not caught; [decode_error] is its message. *)
Definition parse_with (decode_error : string -> string) (text : string) : outcome Z :=
  match json_loads text with
  | None => Raise (OtherError (decode_error text))
  | Some data => column_of data
  end.

End CallMove.

(** Two results agree when they carry the same sleeps and either return
    the same value or both raise. *)
Definition agree (r1 r2 : list Z * outcome (Z * option string)) : Prop :=
  fst r1 = fst r2 /\
  match snd r1, snd r2 with
  | Return v1, Return v2 => v1 = v2
  | Raise _, Raise _ => True
  | _, _ => False
  end.

End Retry.

(** ** The GPT move call (openai_model_v1.py, lines 13-93) *)

Module OpenAI.

(** An element of [item.summary]; [part_text] is [getattr(s, "text", None)]. *)
Record summary_part : Type := SummaryPart {
  part_text : option string
}.

(** An element of [response.output]: its type, read with [getattr], and
    its [summary] attribute, which may be [None]. *)
Record output_item : Type := OutputItem {
  item_type : option string;
  item_summary : option (list summary_part)
}.

(** The parsed response: [output_parsed] ([None] when the client could not
    parse an answer; its [column] otherwise) and [output]. *)
Record gpt_response : Type := GptResponse {
  output_parsed : option Z;
  output : list output_item
}.

(** The arguments of [client.responses.parse] that vary: the model, the
    reasoning effort and whether a summary is requested. *)
Record gpt_request : Type := GptRequest {
  req_model : string;
  req_effort : string;
  req_summary : option string
}.

(** [x or y] on strings, the first possibly [None]. *)
Definition or_else (x : option string) (y : string) : string :=
  match x with
  | Some s => if String.eqb s "" then y else s
  | None => y
  end.

(** The texts of a summary that are not empty. *)
Fixpoint summary_texts (parts : list summary_part) : list string :=
  match parts with
  | [] => []
  | p :: rest =>
      match part_text p with
      | Some t => if String.eqb t "" then summary_texts rest else t :: summary_texts rest
      | None => summary_texts rest
      end
  end.

Definition is_reasoning (item : output_item) : bool :=
  match item_type item with
  | Some t => String.eqb t "reasoning"
  | None => false
  end.

(** The summary a reasoning item gives: [item.summary or []], the texts
    kept, joined by newlines when there is one at least. *)
Definition item_reasoning (item : output_item) : option string :=
  match summary_texts (match item_summary item with Some l => l | None => [] end) with
  | [] => None
  | parts => Some (String.concat Retry.newline parts)
  end.

(** The loop over [response.output], left at the first reasoning item. *)
Fixpoint reasoning_summary (items : list output_item) : option string :=
  match items with
  | [] => None
  | item :: rest =>
      if is_reasoning item then item_reasoning item else reasoning_summary rest
  end.

Definition no_column : exn :=
  OtherError "'NoneType' object has no attribute 'column'".

Section Call.

Variable api : gpt_request -> outcome gpt_response.

Definition call_chatgpt_move (model : string) (model_key : option string)
  : outcome (Z * option string) :=
  let key := or_else model_key model in
  let use_full_reasoning := negb (String.eqb key "gpt-5-mini") in
  let use_low_reasoning := String.eqb key "gpt-5.1-low" in
  if use_full_reasoning
  then
    let reasoning_effort := if use_low_reasoning then "low" else "medium" in
    match api (GptRequest model reasoning_effort (Some "auto")) with
    | Raise e => Raise e
    | Return response =>
        match output_parsed response with
        | None => Raise no_column
        | Some column => Return (column, reasoning_summary (output response))
        end
    end
  else
    match api (GptRequest model "minimal" None) with
    | Raise e => Raise e
    | Return response =>
        match output_parsed response with
        | None => Raise no_column
        | Some column => Return (column, None)
        end
    end.

End Call.

(** Sample output: a reasoning item without text, then one with text. *)
Definition silent_then_spoken : list output_item :=
  [OutputItem (Some "message") None;
   OutputItem (Some "reasoning") (Some [SummaryPart None; SummaryPart (Some "")]);
   OutputItem (Some "reasoning") (Some [SummaryPart (Some "block the left")])].

End OpenAI.

(** ** Game session and series controller (app.py, lines 143-175, 254-447) *)

Module Game.
Import Board.

(** The two agents, the dictionary values ['gpt'] and ['claude']. *)
Inductive player : Type :=
| gpt
| claude.

(** The value of [state['winner']] once set: ['gpt'], ['claude'] or
    ['draw']; [None] before. *)
Inductive result : Type :=
| Won (p : player)
| Draw.

(** [{'wins': _, 'losses': _, 'draws': _}] *)
Record stats : Type := Stats {
  wins : Z;
  losses : Z;
  draws : Z
}.

(** [{'col': _, 'row': _, 'player': _}] *)
Record move_record : Type := MoveRecord {
  col : Z;
  row : Z;
  mover : player
}.

(** Model name tables: Python dictionaries read with [.get(key, default)]. *)
Definition GPT_MODELS : list (string * string) :=
  [("gpt-5-mini", "gpt-5-mini"); ("gpt-5.1-low", "gpt-5.1");
   ("gpt-5.1", "gpt-5.1"); ("gpt-5.2", "gpt-5.2")].

Definition CLAUDE_MODELS : list (string * string) :=
  [("claude-haiku-4.5-standard", "claude-haiku-4-5-20251001");
   ("claude-haiku-4.5", "claude-haiku-4-5-20251001");
   ("claude-sonnet-4.5-standard", "claude-sonnet-4-5-20250929");
   ("claude-sonnet-4.5", "claude-sonnet-4-5-20250929")].

Definition GPT_DISPLAY_NAMES : list (string * string) :=
  [("gpt-5-mini", "GPT 5 Mini"); ("gpt-5.1-low", "GPT 5.1 Low");
   ("gpt-5.1", "GPT 5.1 Medium"); ("gpt-5.2", "GPT 5.2 Medium")].

Definition CLAUDE_DISPLAY_NAMES : list (string * string) :=
  [("claude-haiku-4.5-standard", "Claude Haiku 4.5");
   ("claude-haiku-4.5", "Claude Haiku 4.5 Thinking");
   ("claude-sonnet-4.5-standard", "Claude Sonnet 4.5");
   ("claude-sonnet-4.5", "Claude Sonnet 4.5 Thinking")].

Fixpoint dict_get (d : list (string * string)) (key default : string) : string :=
  match d with
  | [] => default
  | (k, v) :: rest => if String.eqb k key then v else dict_get rest key default
  end.

(** [str(n)] for an integer. *)
Definition str_Z (n : Z) : string := NilZero.string_of_int (Z.to_int n).

(** [reasoning or 'Move selected.'] *)
Definition reasoning_or (reasoning : option string) (default : string) : string :=
  match reasoning with
  | Some s => if String.eqb s "" then default else s
  | None => default
  end.

(** [l[-10:]] *)
(** Python texts are sequences of code points. A text is held here as
    the bytes of its UTF-8 encoding, in which a byte of the form 10xxxxxx
    continues the code point begun before it and every other byte begins
    one. *)
Definition is_continuation (c : ascii) : bool :=
  let n := nat_of_ascii c in ((128 <=? n) && (n <? 192))%nat.

(** [len(text)] *)
Fixpoint code_points (text : string) : nat :=
  match text with
  | EmptyString => 0
  | String c rest =>
      if is_continuation c then code_points rest else S (code_points rest)
  end.

(** [text[:n]]: the bytes before the one that begins code point [n]. *)
Fixpoint first_code_points (n : nat) (text : string) : string :=
  match text with
  | EmptyString => EmptyString
  | String c rest =>
      if is_continuation c then String c (first_code_points n rest)
      else
        match n with
        | O => EmptyString
        | S n' => String c (first_code_points n' rest)
        end
  end.

(** The text does not start in the middle of a code point. *)
Definition at_code_point (text : string) : Prop :=
  match text with
  | EmptyString => True
  | String c _ => is_continuation c = false
  end.

Definition last10 {A : Type} (l : list A) : list A := drop (length l - 10) l.

Definition piece_of (p : player) : string :=
  match p with gpt => "R" | claude => "Y" end.

Definition other (p : player) : player :=
  match p with gpt => claude | claude => gpt end.

Section Session.

(** Wall-clock durations are Python floats. The code only adds them and
    rounds them to two decimals; both operations and the value [0.0] are
    kept abstract. *)
Variable Time : Type.
Variable zero_time : Time.
Variable add_time : Time -> Time -> Time.
Variable round2 : Time -> Time.

(** An entry of [state['game_history']]. *)
Record game_record : Type := GameRecord {
  gh_game : Z;
  gh_time : string;
  gh_winner : string;
  gh_turns : Z;
  gh_gpt_time : Time;
  gh_claude_time : Time
}.

(** The dictionary [GAME_STATE]. *)
Record state : Type := State {
  board : grid;
  current_player : player;
  first_player : player;
  game_over : bool;
  winner : option result;
  turn_count : Z;
  move_history : list (player * Z);
  gpt_reasoning : string;
  claude_reasoning : string;
  gpt_stats : stats;
  claude_stats : stats;
  current_game : Z;
  total_games : Z;
  game_history : list game_record;
  gpt_total_time : Time;
  claude_total_time : Time;
  gpt_last_time : Time;
  claude_last_time : Time;
  last_move : option move_record;
  gpt_model : string;
  claude_model : string;
  gpt_model_id : string;
  claude_model_id : string;
  gpt_display_name : string;
  claude_display_name : string
}.

(** Assignments [state[key] = v]. *)
Definition set_board (s : state) (v : grid) : state :=
  {| board := v;
     current_player := current_player s;
     first_player := first_player s;
     game_over := game_over s;
     winner := winner s;
     turn_count := turn_count s;
     move_history := move_history s;
     gpt_reasoning := gpt_reasoning s;
     claude_reasoning := claude_reasoning s;
     gpt_stats := gpt_stats s;
     claude_stats := claude_stats s;
     current_game := current_game s;
     total_games := total_games s;
     game_history := game_history s;
     gpt_total_time := gpt_total_time s;
     claude_total_time := claude_total_time s;
     gpt_last_time := gpt_last_time s;
     claude_last_time := claude_last_time s;
     last_move := last_move s;
     gpt_model := gpt_model s;
     claude_model := claude_model s;
     gpt_model_id := gpt_model_id s;
     claude_model_id := claude_model_id s;
     gpt_display_name := gpt_display_name s;
     claude_display_name := claude_display_name s |}.

Definition set_current_player (s : state) (v : player) : state :=
  {| board := board s;
     current_player := v;
     first_player := first_player s;
     game_over := game_over s;
     winner := winner s;
     turn_count := turn_count s;
     move_history := move_history s;
     gpt_reasoning := gpt_reasoning s;
     claude_reasoning := claude_reasoning s;
     gpt_stats := gpt_stats s;
     claude_stats := claude_stats s;
     current_game := current_game s;
     total_games := total_games s;
     game_history := game_history s;
     gpt_total_time := gpt_total_time s;
     claude_total_time := claude_total_time s;
     gpt_last_time := gpt_last_time s;
     claude_last_time := claude_last_time s;
     last_move := last_move s;
     gpt_model := gpt_model s;
     claude_model := claude_model s;
     gpt_model_id := gpt_model_id s;
     claude_model_id := claude_model_id s;
     gpt_display_name := gpt_display_name s;
     claude_display_name := claude_display_name s |}.

Definition set_game_over (s : state) (v : bool) : state :=
  {| board := board s;
     current_player := current_player s;
     first_player := first_player s;
     game_over := v;
     winner := winner s;
     turn_count := turn_count s;
     move_history := move_history s;
     gpt_reasoning := gpt_reasoning s;
     claude_reasoning := claude_reasoning s;
     gpt_stats := gpt_stats s;
     claude_stats := claude_stats s;
     current_game := current_game s;
     total_games := total_games s;
     game_history := game_history s;
     gpt_total_time := gpt_total_time s;
     claude_total_time := claude_total_time s;
     gpt_last_time := gpt_last_time s;
     claude_last_time := claude_last_time s;
     last_move := last_move s;
     gpt_model := gpt_model s;
     claude_model := claude_model s;
     gpt_model_id := gpt_model_id s;
     claude_model_id := claude_model_id s;
     gpt_display_name := gpt_display_name s;
     claude_display_name := claude_display_name s |}.

Definition set_winner (s : state) (v : option result) : state :=
  {| board := board s;
     current_player := current_player s;
     first_player := first_player s;
     game_over := game_over s;
     winner := v;
     turn_count := turn_count s;
     move_history := move_history s;
     gpt_reasoning := gpt_reasoning s;
     claude_reasoning := claude_reasoning s;
     gpt_stats := gpt_stats s;
     claude_stats := claude_stats s;
     current_game := current_game s;
     total_games := total_games s;
     game_history := game_history s;
     gpt_total_time := gpt_total_time s;
     claude_total_time := claude_total_time s;
     gpt_last_time := gpt_last_time s;
     claude_last_time := claude_last_time s;
     last_move := last_move s;
     gpt_model := gpt_model s;
     claude_model := claude_model s;
     gpt_model_id := gpt_model_id s;
     claude_model_id := claude_model_id s;
     gpt_display_name := gpt_display_name s;
     claude_display_name := claude_display_name s |}.

Definition set_turn_count (s : state) (v : Z) : state :=
  {| board := board s;
     current_player := current_player s;
     first_player := first_player s;
     game_over := game_over s;
     winner := winner s;
     turn_count := v;
     move_history := move_history s;
     gpt_reasoning := gpt_reasoning s;
     claude_reasoning := claude_reasoning s;
     gpt_stats := gpt_stats s;
     claude_stats := claude_stats s;
     current_game := current_game s;
     total_games := total_games s;
     game_history := game_history s;
     gpt_total_time := gpt_total_time s;
     claude_total_time := claude_total_time s;
     gpt_last_time := gpt_last_time s;
     claude_last_time := claude_last_time s;
     last_move := last_move s;
     gpt_model := gpt_model s;
     claude_model := claude_model s;
     gpt_model_id := gpt_model_id s;
     claude_model_id := claude_model_id s;
     gpt_display_name := gpt_display_name s;
     claude_display_name := claude_display_name s |}.

Definition set_move_history (s : state) (v : list (player * Z)) : state :=
  {| board := board s;
     current_player := current_player s;
     first_player := first_player s;
     game_over := game_over s;
     winner := winner s;
     turn_count := turn_count s;
     move_history := v;
     gpt_reasoning := gpt_reasoning s;
     claude_reasoning := claude_reasoning s;
     gpt_stats := gpt_stats s;
     claude_stats := claude_stats s;
     current_game := current_game s;
     total_games := total_games s;
     game_history := game_history s;
     gpt_total_time := gpt_total_time s;
     claude_total_time := claude_total_time s;
     gpt_last_time := gpt_last_time s;
     claude_last_time := claude_last_time s;
     last_move := last_move s;
     gpt_model := gpt_model s;
     claude_model := claude_model s;
     gpt_model_id := gpt_model_id s;
     claude_model_id := claude_model_id s;
     gpt_display_name := gpt_display_name s;
     claude_display_name := claude_display_name s |}.

Definition set_gpt_reasoning (s : state) (v : string) : state :=
  {| board := board s;
     current_player := current_player s;
     first_player := first_player s;
     game_over := game_over s;
     winner := winner s;
     turn_count := turn_count s;
     move_history := move_history s;
     gpt_reasoning := v;
     claude_reasoning := claude_reasoning s;
     gpt_stats := gpt_stats s;
     claude_stats := claude_stats s;
     current_game := current_game s;
     total_games := total_games s;
     game_history := game_history s;
     gpt_total_time := gpt_total_time s;
     claude_total_time := claude_total_time s;
     gpt_last_time := gpt_last_time s;
     claude_last_time := claude_last_time s;
     last_move := last_move s;
     gpt_model := gpt_model s;
     claude_model := claude_model s;
     gpt_model_id := gpt_model_id s;
     claude_model_id := claude_model_id s;
     gpt_display_name := gpt_display_name s;
     claude_display_name := claude_display_name s |}.

Definition set_claude_reasoning (s : state) (v : string) : state :=
  {| board := board s;
     current_player := current_player s;
     first_player := first_player s;
     game_over := game_over s;
     winner := winner s;
     turn_count := turn_count s;
     move_history := move_history s;
     gpt_reasoning := gpt_reasoning s;
     claude_reasoning := v;
     gpt_stats := gpt_stats s;
     claude_stats := claude_stats s;
     current_game := current_game s;
     total_games := total_games s;
     game_history := game_history s;
     gpt_total_time := gpt_total_time s;
     claude_total_time := claude_total_time s;
     gpt_last_time := gpt_last_time s;
     claude_last_time := claude_last_time s;
     last_move := last_move s;
     gpt_model := gpt_model s;
     claude_model := claude_model s;
     gpt_model_id := gpt_model_id s;
     claude_model_id := claude_model_id s;
     gpt_display_name := gpt_display_name s;
     claude_display_name := claude_display_name s |}.

Definition set_gpt_stats (s : state) (v : stats) : state :=
  {| board := board s;
     current_player := current_player s;
     first_player := first_player s;
     game_over := game_over s;
     winner := winner s;
     turn_count := turn_count s;
     move_history := move_history s;
     gpt_reasoning := gpt_reasoning s;
     claude_reasoning := claude_reasoning s;
     gpt_stats := v;
     claude_stats := claude_stats s;
     current_game := current_game s;
     total_games := total_games s;
     game_history := game_history s;
     gpt_total_time := gpt_total_time s;
     claude_total_time := claude_total_time s;
     gpt_last_time := gpt_last_time s;
     claude_last_time := claude_last_time s;
     last_move := last_move s;
     gpt_model := gpt_model s;
     claude_model := claude_model s;
     gpt_model_id := gpt_model_id s;
     claude_model_id := claude_model_id s;
     gpt_display_name := gpt_display_name s;
     claude_display_name := claude_display_name s |}.

Definition set_claude_stats (s : state) (v : stats) : state :=
  {| board := board s;
     current_player := current_player s;
     first_player := first_player s;
     game_over := game_over s;
     winner := winner s;
     turn_count := turn_count s;
     move_history := move_history s;
     gpt_reasoning := gpt_reasoning s;
     claude_reasoning := claude_reasoning s;
     gpt_stats := gpt_stats s;
     claude_stats := v;
     current_game := current_game s;
     total_games := total_games s;
     game_history := game_history s;
     gpt_total_time := gpt_total_time s;
     claude_total_time := claude_total_time s;
     gpt_last_time := gpt_last_time s;
     claude_last_time := claude_last_time s;
     last_move := last_move s;
     gpt_model := gpt_model s;
     claude_model := claude_model s;
     gpt_model_id := gpt_model_id s;
     claude_model_id := claude_model_id s;
     gpt_display_name := gpt_display_name s;
     claude_display_name := claude_display_name s |}.

Definition set_current_game (s : state) (v : Z) : state :=
  {| board := board s;
     current_player := current_player s;
     first_player := first_player s;
     game_over := game_over s;
     winner := winner s;
     turn_count := turn_count s;
     move_history := move_history s;
     gpt_reasoning := gpt_reasoning s;
     claude_reasoning := claude_reasoning s;
     gpt_stats := gpt_stats s;
     claude_stats := claude_stats s;
     current_game := v;
     total_games := total_games s;
     game_history := game_history s;
     gpt_total_time := gpt_total_time s;
     claude_total_time := claude_total_time s;
     gpt_last_time := gpt_last_time s;
     claude_last_time := claude_last_time s;
     last_move := last_move s;
     gpt_model := gpt_model s;
     claude_model := claude_model s;
     gpt_model_id := gpt_model_id s;
     claude_model_id := claude_model_id s;
     gpt_display_name := gpt_display_name s;
     claude_display_name := claude_display_name s |}.

Definition set_total_games (s : state) (v : Z) : state :=
  {| board := board s;
     current_player := current_player s;
     first_player := first_player s;
     game_over := game_over s;
     winner := winner s;
     turn_count := turn_count s;
     move_history := move_history s;
     gpt_reasoning := gpt_reasoning s;
     claude_reasoning := claude_reasoning s;
     gpt_stats := gpt_stats s;
     claude_stats := claude_stats s;
     current_game := current_game s;
     total_games := v;
     game_history := game_history s;
     gpt_total_time := gpt_total_time s;
     claude_total_time := claude_total_time s;
     gpt_last_time := gpt_last_time s;
     claude_last_time := claude_last_time s;
     last_move := last_move s;
     gpt_model := gpt_model s;
     claude_model := claude_model s;
     gpt_model_id := gpt_model_id s;
     claude_model_id := claude_model_id s;
     gpt_display_name := gpt_display_name s;
     claude_display_name := claude_display_name s |}.

Definition set_game_history (s : state) (v : list game_record) : state :=
  {| board := board s;
     current_player := current_player s;
     first_player := first_player s;
     game_over := game_over s;
     winner := winner s;
     turn_count := turn_count s;
     move_history := move_history s;
     gpt_reasoning := gpt_reasoning s;
     claude_reasoning := claude_reasoning s;
     gpt_stats := gpt_stats s;
     claude_stats := claude_stats s;
     current_game := current_game s;
     total_games := total_games s;
     game_history := v;
     gpt_total_time := gpt_total_time s;
     claude_total_time := claude_total_time s;
     gpt_last_time := gpt_last_time s;
     claude_last_time := claude_last_time s;
     last_move := last_move s;
     gpt_model := gpt_model s;
     claude_model := claude_model s;
     gpt_model_id := gpt_model_id s;
     claude_model_id := claude_model_id s;
     gpt_display_name := gpt_display_name s;
     claude_display_name := claude_display_name s |}.

Definition set_gpt_total_time (s : state) (v : Time) : state :=
  {| board := board s;
     current_player := current_player s;
     first_player := first_player s;
     game_over := game_over s;
     winner := winner s;
     turn_count := turn_count s;
     move_history := move_history s;
     gpt_reasoning := gpt_reasoning s;
     claude_reasoning := claude_reasoning s;
     gpt_stats := gpt_stats s;
     claude_stats := claude_stats s;
     current_game := current_game s;
     total_games := total_games s;
     game_history := game_history s;
     gpt_total_time := v;
     claude_total_time := claude_total_time s;
     gpt_last_time := gpt_last_time s;
     claude_last_time := claude_last_time s;
     last_move := last_move s;
     gpt_model := gpt_model s;
     claude_model := claude_model s;
     gpt_model_id := gpt_model_id s;
     claude_model_id := claude_model_id s;
     gpt_display_name := gpt_display_name s;
     claude_display_name := claude_display_name s |}.

Definition set_claude_total_time (s : state) (v : Time) : state :=
  {| board := board s;
     current_player := current_player s;
     first_player := first_player s;
     game_over := game_over s;
     winner := winner s;
     turn_count := turn_count s;
     move_history := move_history s;
     gpt_reasoning := gpt_reasoning s;
     claude_reasoning := claude_reasoning s;
     gpt_stats := gpt_stats s;
     claude_stats := claude_stats s;
     current_game := current_game s;
     total_games := total_games s;
     game_history := game_history s;
     gpt_total_time := gpt_total_time s;
     claude_total_time := v;
     gpt_last_time := gpt_last_time s;
     claude_last_time := claude_last_time s;
     last_move := last_move s;
     gpt_model := gpt_model s;
     claude_model := claude_model s;
     gpt_model_id := gpt_model_id s;
     claude_model_id := claude_model_id s;
     gpt_display_name := gpt_display_name s;
     claude_display_name := claude_display_name s |}.

Definition set_gpt_last_time (s : state) (v : Time) : state :=
  {| board := board s;
     current_player := current_player s;
     first_player := first_player s;
     game_over := game_over s;
     winner := winner s;
     turn_count := turn_count s;
     move_history := move_history s;
     gpt_reasoning := gpt_reasoning s;
     claude_reasoning := claude_reasoning s;
     gpt_stats := gpt_stats s;
     claude_stats := claude_stats s;
     current_game := current_game s;
     total_games := total_games s;
     game_history := game_history s;
     gpt_total_time := gpt_total_time s;
     claude_total_time := claude_total_time s;
     gpt_last_time := v;
     claude_last_time := claude_last_time s;
     last_move := last_move s;
     gpt_model := gpt_model s;
     claude_model := claude_model s;
     gpt_model_id := gpt_model_id s;
     claude_model_id := claude_model_id s;
     gpt_display_name := gpt_display_name s;
     claude_display_name := claude_display_name s |}.

Definition set_claude_last_time (s : state) (v : Time) : state :=
  {| board := board s;
     current_player := current_player s;
     first_player := first_player s;
     game_over := game_over s;
     winner := winner s;
     turn_count := turn_count s;
     move_history := move_history s;
     gpt_reasoning := gpt_reasoning s;
     claude_reasoning := claude_reasoning s;
     gpt_stats := gpt_stats s;
     claude_stats := claude_stats s;
     current_game := current_game s;
     total_games := total_games s;
     game_history := game_history s;
     gpt_total_time := gpt_total_time s;
     claude_total_time := claude_total_time s;
     gpt_last_time := gpt_last_time s;
     claude_last_time := v;
     last_move := last_move s;
     gpt_model := gpt_model s;
     claude_model := claude_model s;
     gpt_model_id := gpt_model_id s;
     claude_model_id := claude_model_id s;
     gpt_display_name := gpt_display_name s;
     claude_display_name := claude_display_name s |}.

Definition set_last_move (s : state) (v : option move_record) : state :=
  {| board := board s;
     current_player := current_player s;
     first_player := first_player s;
     game_over := game_over s;
     winner := winner s;
     turn_count := turn_count s;
     move_history := move_history s;
     gpt_reasoning := gpt_reasoning s;
     claude_reasoning := claude_reasoning s;
     gpt_stats := gpt_stats s;
     claude_stats := claude_stats s;
     current_game := current_game s;
     total_games := total_games s;
     game_history := game_history s;
     gpt_total_time := gpt_total_time s;
     claude_total_time := claude_total_time s;
     gpt_last_time := gpt_last_time s;
     claude_last_time := claude_last_time s;
     last_move := v;
     gpt_model := gpt_model s;
     claude_model := claude_model s;
     gpt_model_id := gpt_model_id s;
     claude_model_id := claude_model_id s;
     gpt_display_name := gpt_display_name s;
     claude_display_name := claude_display_name s |}.

(** [init_game_state]; [gpt_first] is the draw of
    [random.choice([True, False])]. *)
Definition init_game_state (gpt_first : bool) (gpt_model claude_model : string) : state :=
  {| board := create_empty_board;
     current_player := if gpt_first then gpt else claude;
     first_player := if gpt_first then gpt else claude;
     game_over := false;
     winner := None;
     turn_count := 0;
     move_history := [];
     gpt_reasoning := "";
     claude_reasoning := "";
     gpt_stats := Stats 0 0 0;
     claude_stats := Stats 0 0 0;
     current_game := 1;
     total_games := 1;
     game_history := [];
     gpt_total_time := zero_time;
     claude_total_time := zero_time;
     gpt_last_time := zero_time;
     claude_last_time := zero_time;
     last_move := None;
     gpt_model := gpt_model;
     claude_model := claude_model;
     gpt_model_id := dict_get GPT_MODELS gpt_model "gpt-5.1";
     claude_model_id := dict_get CLAUDE_MODELS claude_model "claude-haiku-4-5-20251001";
     gpt_display_name := dict_get GPT_DISPLAY_NAMES gpt_model "GPT 5.1 Medium";
     claude_display_name :=
       dict_get CLAUDE_DISPLAY_NAMES claude_model "Claude Haiku 4.5 Thinking" |}.

(** The dictionary built by [get_client_state]. *)
Record client_state : Type := ClientState {
  cs_board : grid;
  cs_current_player : player;
  cs_first_player : player;
  cs_turn_count : Z;
  cs_game_over : bool;
  cs_winner : option result;
  cs_last_move : option move_record;
  cs_move_history : list (player * Z);
  cs_gpt_reasoning : string;
  cs_claude_reasoning : string;
  cs_gpt_stats : stats;
  cs_claude_stats : stats;
  cs_current_game : Z;
  cs_total_games : Z;
  cs_game_history : list game_record;
  cs_all_games_complete : bool;
  cs_gpt_total_time : Time;
  cs_claude_total_time : Time;
  cs_gpt_last_time : Time;
  cs_claude_last_time : Time;
  cs_gpt_display_name : string;
  cs_claude_display_name : string
}.

Definition get_client_state (s : state) : client_state :=
  {| cs_board := board s;
     cs_current_player := current_player s;
     cs_first_player := first_player s;
     cs_turn_count := turn_count s;
     cs_game_over := game_over s;
     cs_winner := winner s;
     cs_last_move := last_move s;
     cs_move_history := last10 (move_history s);
     cs_gpt_reasoning := first_code_points 500 (gpt_reasoning s);
     cs_claude_reasoning := first_code_points 500 (claude_reasoning s);
     cs_gpt_stats := gpt_stats s;
     cs_claude_stats := claude_stats s;
     cs_current_game := current_game s;
     cs_total_games := total_games s;
     cs_game_history := game_history s;
     cs_all_games_complete := game_over s && (current_game s >=? total_games s)%Z;
     cs_gpt_total_time := gpt_total_time s;
     cs_claude_total_time := claude_total_time s;
     cs_gpt_last_time := gpt_last_time s;
     cs_claude_last_time := claude_last_time s;
     cs_gpt_display_name := gpt_display_name s;
     cs_claude_display_name := claude_display_name s |}.

(** What a handler sends back: [jsonify({'error': msg}), status], the
    [success] answer with the client state, or the [success] answer of a
    move with player, column and row. *)
Inductive response : Type :=
| ErrorResponse (msg : string) (status : Z)
| StateResponse (cs : client_state)
| MoveResponse (p : player) (column row : Z) (cs : client_state).

(** What the outside world contributes to one call of [next_move]: the
    outcome of the move provider ([call_chatgpt_move] for gpt,
    [call_claude_move_with_thinking_flag] for claude), the wall time the
    call took, and the clock reading [datetime.now().strftime(...)]. *)
Record tick_env : Type := TickEnv {
  provider : outcome (Z * option string);
  elapsed : Time;
  now : string
}.

Definition add_win (st : stats) : stats := Stats (wins st + 1) (losses st) (draws st).
Definition add_loss (st : stats) : stats := Stats (wins st) (losses st + 1) (draws st).
Definition add_draw (st : stats) : stats := Stats (wins st) (losses st) (draws st + 1).

Definition history_entry (s : state) (winner_name now : string) : game_record :=
  {| gh_game := current_game s;
     gh_time := now;
     gh_winner := winner_name;
     gh_turns := turn_count s;
     gh_gpt_time := gpt_total_time s;
     gh_claude_time := claude_total_time s |}.

(** Lines 327-379: the piece is on the board; record the move and settle
    the game. *)
Definition record_move (s : state) (current : player) (piece : string)
    (column row : Z) (now : string) : option state * outcome response :=
  let s := set_move_history s (move_history s ++ [(current, column)]) in
  let s := set_last_move s (Some (MoveRecord column row current)) in
  match check_winner (board s) piece with
  | Raise e => (Some s, Raise e)
  | Return true =>
      let s := set_game_over s true in
      let s := set_winner s (Some (Won current)) in
      let s :=
        match current with
        | gpt =>
            let s := set_gpt_stats s (add_win (gpt_stats s)) in
            set_claude_stats s (add_loss (claude_stats s))
        | claude =>
            let s := set_claude_stats s (add_win (claude_stats s)) in
            set_gpt_stats s (add_loss (gpt_stats s))
        end in
      let winner_name :=
        match current with
        | gpt => gpt_display_name s
        | claude => claude_display_name s
        end in
      let s := set_game_history s (game_history s ++ [history_entry s winner_name now]) in
      (Some s, Return (MoveResponse current column row (get_client_state s)))
  | Return false =>
      match is_board_full (board s) with
      | Raise e => (Some s, Raise e)
      | Return true =>
          let s := set_game_over s true in
          let s := set_winner s (Some Draw) in
          let s := set_gpt_stats s (add_draw (gpt_stats s)) in
          let s := set_claude_stats s (add_draw (claude_stats s)) in
          let s := set_game_history s (game_history s ++ [history_entry s "Draw" now]) in
          (Some s, Return (MoveResponse current column row (get_client_state s)))
      | Return false =>
          let s := set_current_player s (other current) in
          (Some s, Return (MoveResponse current column row (get_client_state s)))
      end
  end.

(** Lines 318-325: validate the column, falling back to the first valid
    one, and drop the piece. [drop_piece] works on the board object of the
    state, so the state holds whatever board the call leaves. *)
Definition play_column (s : state) (current : player) (piece : string)
    (valid_cols : list Z) (first_valid column : Z) (now : string)
  : option state * outcome response :=
  let column := if bool_decide (column ∈ valid_cols) then column else first_valid in
  match drop_piece (board s) column piece with
  | (b', Raise e) => (Some (set_board s b'), Raise e)
  | (b', Return (success, row)) =>
      let s := set_board s b' in
      if negb success
      then (Some s,
            Return (ErrorResponse ("Failed to drop piece in column " ++ str_Z column) 400))
      else record_move s current piece column row now
  end.

(** [next_move]. [state = GAME_STATE] names the same dictionary, so every
    assignment made before an early [return] stays in [GAME_STATE]: the
    first component of the result is the global state as the call leaves
    it. [None] is the empty dictionary [{}] the module starts with. An
    exception of the provider is caught and answered with status 500;
    exceptions raised elsewhere leave the handler. The prompt text of
    [generate_move_prompt] only travels to the provider, whose outcome is
    given by [env]. *)
Definition next_move (G : option state) (env : tick_env)
  : option state * outcome response :=
  match G with
  | None => (None, Return (ErrorResponse "No game in progress" 400))
  | Some s =>
      if game_over s
      then (Some s, Return (ErrorResponse "Game is over" 400))
      else
        let current := current_player s in
        let s := set_turn_count s (turn_count s + 1) in
        let piece := piece_of current in
        match get_valid_columns (board s) with
        | Raise e => (Some s, Raise e)
        | Return [] =>
            let s := set_game_over s true in
            let s := set_winner s (Some Draw) in
            (Some s, Return (StateResponse (get_client_state s)))
        | Return ((first_valid :: _) as valid_cols) =>
            match current with
            | gpt =>
                match provider env with
                | Raise e =>
                    (Some s,
                     Return (ErrorResponse ("GPT API error: " ++ exn_str e) 500))
                | Return (column, reasoning) =>
                    let s := set_gpt_reasoning s
                               (reasoning_or reasoning "Move selected.") in
                    let s := set_gpt_last_time s (round2 (elapsed env)) in
                    let s := set_gpt_total_time s
                               (round2 (add_time (gpt_total_time s) (elapsed env))) in
                    play_column s current piece valid_cols first_valid column (now env)
                end
            | claude =>
                match provider env with
                | Raise e =>
                    (Some s,
                     Return (ErrorResponse ("Claude API error: " ++ exn_str e) 500))
                | Return (column, reasoning) =>
                    let s := set_claude_reasoning s
                               (reasoning_or reasoning "Move selected.") in
                    let s := set_claude_last_time s (round2 (elapsed env)) in
                    let s := set_claude_total_time s
                               (round2 (add_time (claude_total_time s) (elapsed env))) in
                    play_column s current piece valid_cols first_valid column (now env)
                end
            end
        end
  end.

(** [start_games], after the request body was read: [num_games] is
    [int(data.get('num_games', 1))]. *)
Definition start_games (num_games : Z) (gpt_model claude_model : string)
    (gpt_first : bool) : option state * outcome response :=
  let num_games := Z.max 1 (Z.min 10 num_games) in
  let s := init_game_state gpt_first gpt_model claude_model in
  let s := set_total_games s num_games in
  (Some s, Return (StateResponse (get_client_state s))).

(** [get_game_state_route]: an empty [GAME_STATE] is replaced by a fresh
    state with the default models; the body sent is the client state. *)
Definition get_game_state_route (G : option state) (gpt_first : bool)
  : option state * client_state :=
  let s :=
    match G with
    | None => init_game_state gpt_first "gpt-5.1" "claude-haiku-4.5"
    | Some s => s
    end in
  (Some s, get_client_state s).

(** [next_game]; [gpt_first] is the draw made by [init_game_state]. *)
Definition next_game (G : option state) (gpt_first : bool)
  : option state * outcome response :=
  match G with
  | None => (None, Return (ErrorResponse "No game in progress" 400))
  | Some s =>
      if (current_game s >=? total_games s)%Z
      then (Some s, Return (ErrorResponse "All games completed" 400))
      else
        let new_state := init_game_state gpt_first (gpt_model s) (claude_model s) in
        let new_state := set_gpt_stats new_state (gpt_stats s) in
        let new_state := set_claude_stats new_state (claude_stats s) in
        let new_state := set_game_history new_state (game_history s) in
        let new_state := set_total_games new_state (total_games s) in
        let new_state := set_current_game new_state (current_game s + 1) in
        (Some new_state, Return (StateResponse (get_client_state new_state)))
  end.

(** *** Vocabulary of the statements *)

(** A handler call succeeded: it answered with a [success] body. *)
Definition succeeded (r : outcome response) : bool :=
  match r with
  | Return (StateResponse _) => true
  | Return (MoveResponse _ _ _ _) => true
  | _ => false
  end.

(** The session is concluded / awaits a move of [p]. *)
Definition concluded (s : state) : Prop := game_over s = true.

Definition awaiting_move (s : state) (p : player) : Prop :=
  game_over s = false /\ current_player s = p.

(** The share of a tick that touches neither the board nor the series
    fields: what [record_move] leaves of the state it is given. *)
Definition recorded (s s' : state) (current : player) (column row : Z) : Prop :=
  move_history s' = (move_history s ++ [(current, column)])%list /\
  last_move s' = Some (MoveRecord column row current) /\
  board s' = board s /\
  turn_count s' = turn_count s /\
  gpt_last_time s' = gpt_last_time s /\
  claude_last_time s' = claude_last_time s.

(** The state just before the column is validated (line 318): turn
    counted, reasoning and times of the mover stored. *)
Definition provider_bookkeeping (s : state) (env : tick_env)
    (reasoning : option string) : state :=
  let current := current_player s in
  let s := set_turn_count s (turn_count s + 1) in
  match current with
  | gpt =>
      let s := set_gpt_reasoning s (reasoning_or reasoning "Move selected.") in
      let s := set_gpt_last_time s (round2 (elapsed env)) in
      set_gpt_total_time s (round2 (add_time (gpt_total_time s) (elapsed env)))
  | claude =>
      let s := set_claude_reasoning s (reasoning_or reasoning "Move selected.") in
      let s := set_claude_last_time s (round2 (elapsed env)) in
      set_claude_total_time s (round2 (add_time (claude_total_time s) (elapsed env)))
  end.

(** A session whose board is 6x7 and which, while not over, has a column
    to play. *)
Definition playable (s : state) : Prop :=
  wf_board (board s) /\
  (game_over s = false ->
   exists first_valid rest, get_valid_columns (board s) = Return (first_valid :: rest)).

(** The global states the handlers produce, from the empty dictionary. *)
Inductive reachable : option state -> Prop :=
| reachable_initial : reachable None
| reachable_start (G : option state) (num_games : Z) (gpt_model claude_model : string)
    (gpt_first : bool) :
    reachable G ->
    reachable (fst (start_games num_games gpt_model claude_model gpt_first))
| reachable_get (G : option state) (gpt_first : bool) :
    reachable G -> reachable (fst (get_game_state_route G gpt_first))
| reachable_move (G : option state) (env : tick_env) :
    reachable G -> reachable (fst (next_move G env))
| reachable_next_game (G : option state) (gpt_first : bool) :
    reachable G -> reachable (fst (next_game G gpt_first)).

(** The duration of the last provider call of [p], as the state keeps it. *)
Definition last_time_of (s : state) (p : player) : Time :=
  match p with
  | gpt => gpt_last_time s
  | claude => claude_last_time s
  end.

(** *** Vocabulary of the session invariants *)

(** Who moves at position [i] of a game opened by [first]. *)
Definition nth_mover (first : player) (i : nat) : player :=
  if Nat.even i then first else other first.

Definition stats_of (s : state) (p : player) : stats :=
  match p with
  | gpt => gpt_stats s
  | claude => claude_stats s
  end.

(** What holds of every state the handlers produce. *)
Record session_inv (s : state) : Prop := SessionInv {
  inv_playable : playable s;
  inv_no_floating : no_floating (board s);
  inv_count : count_occupied (board s) = length (move_history s);
  inv_turns : (Z.of_nat (length (move_history s)) <= turn_count s)%Z;
  inv_alternate :
    forall i p c, move_history s !! i = Some (p, c) -> p = nth_mover (first_player s) i;
  inv_current :
    game_over s = false ->
    current_player s = nth_mover (first_player s) (length (move_history s));
  inv_stats :
    wins (gpt_stats s) = losses (claude_stats s) /\
    losses (gpt_stats s) = wins (claude_stats s) /\
    draws (gpt_stats s) = draws (claude_stats s);
  inv_totals :
    (wins (gpt_stats s) + wins (claude_stats s) + draws (gpt_stats s)
     = Z.of_nat (length (game_history s)))%Z;
  inv_series : (1 <= current_game s <= total_games s /\ total_games s <= 10)%Z;
  inv_history :
    (Z.of_nat (length (game_history s)) + (if game_over s then 0 else 1)
     <= current_game s)%Z;
  inv_winner :
    match winner s with
    | None => game_over s = false
    | Some (Won p) => game_over s = true /\ has_four (board s) (piece_of p)
    | Some Draw => game_over s = true /\ is_board_full (board s) = Return true
    end;
  inv_four :
    forall p, has_four (board s) (piece_of p) -> winner s = Some (Won p);
  inv_last_move :
    match last_move s with
    | None => move_history s = []
    | Some m =>
        last (move_history s) = Some (mover m, col m) /\
        exists r, row m = Z.of_nat r /\
          cell_of (board s) r (Z.to_nat (col m - 1)) = Some (piece_of (mover m))
    end
}.

Definition display_name_of (s : state) (p : player) : string :=
  match p with
  | gpt => gpt_display_name s
  | claude => claude_display_name s
  end.

(** The three ways [record_move] leaves the state [s] it is given. *)
Definition settled_win (s s' : state) (current : player) : Prop :=
  game_over s' = true /\ winner s' = Some (Won current) /\
  current_player s' = current_player s /\
  stats_of s' current = add_win (stats_of s current) /\
  stats_of s' (other current) = add_loss (stats_of s (other current)) /\
  exists entry,
    (game_history s' = game_history s ++ [entry])%list /\
    gh_game entry = current_game s /\ gh_turns entry = turn_count s /\
    gh_winner entry = display_name_of s current.

Definition settled_draw (s s' : state) : Prop :=
  game_over s' = true /\ winner s' = Some Draw /\
  current_player s' = current_player s /\
  gpt_stats s' = add_draw (gpt_stats s) /\
  claude_stats s' = add_draw (claude_stats s) /\
  exists entry,
    (game_history s' = game_history s ++ [entry])%list /\
    gh_game entry = current_game s /\ gh_turns entry = turn_count s /\
    gh_winner entry = "Draw".

Definition settled_pass (s s' : state) (current : player) : Prop :=
  game_over s' = game_over s /\ winner s' = winner s /\
  current_player s' = other current /\
  gpt_stats s' = gpt_stats s /\ claude_stats s' = claude_stats s /\
  game_history s' = game_history s.

(** The model choices of a session and what was derived from them. *)
Definition models_of (s : state) : string * string * string * string * string * string :=
  (gpt_model s, claude_model s, gpt_model_id s, claude_model_id s,
   gpt_display_name s, claude_display_name s).

(** The ids and display names are the table entries of the choices. *)
Definition models_consistent (s : state) : Prop :=
  gpt_model_id s = dict_get GPT_MODELS (gpt_model s) "gpt-5.1" /\
  claude_model_id s = dict_get CLAUDE_MODELS (claude_model s) "claude-haiku-4-5-20251001" /\
  gpt_display_name s = dict_get GPT_DISPLAY_NAMES (gpt_model s) "GPT 5.1 Medium" /\
  claude_display_name s
  = dict_get CLAUDE_DISPLAY_NAMES (claude_model s) "Claude Haiku 4.5 Thinking".

(** Line 303: the thinking flag handed to the Claude call. *)
Definition claude_use_thinking (s : state) : bool :=
  negb (String.eqb (claude_model s) "claude-haiku-4.5-standard" ||
        String.eqb (claude_model s) "claude-sonnet-4.5-standard").

(** Lines 289 and 307-309: the provider calls [next_move] makes, on the
    APIs of the two vendors. *)
Definition gpt_provider (gpt_api : OpenAI.gpt_request -> outcome OpenAI.gpt_response)
    (s : state) : outcome (Z * option string) :=
  OpenAI.call_chatgpt_move gpt_api (gpt_model_id s) (Some (gpt_model s)).

Definition claude_provider (strip : string -> string) (parse_column : string -> outcome Z)
    (claude_api : nat -> outcome (list Retry.block)) (s : state)
  : outcome (Z * option string) :=
  snd (Retry.call_claude_move_with_thinking_flag strip parse_column claude_api
         (claude_use_thinking s)).

(** The reasoning and time fields of an agent. *)
Definition reasoning_of (s : state) (p : player) : string :=
  match p with
  | gpt => gpt_reasoning s
  | claude => claude_reasoning s
  end.

Definition total_time_of (s : state) (p : player) : Time :=
  match p with
  | gpt => gpt_total_time s
  | claude => claude_total_time s
  end.

(** Two states of the same game: they agree on everything but the turn
    counter, the times, the reasoning texts and the turn numbers and times
    written into the game history. *)
Definition same_game (s1 s2 : state) : Prop :=
  board s1 = board s2 /\ move_history s1 = move_history s2 /\
  current_player s1 = current_player s2 /\ first_player s1 = first_player s2 /\
  game_over s1 = game_over s2 /\ winner s1 = winner s2 /\
  last_move s1 = last_move s2 /\
  gpt_stats s1 = gpt_stats s2 /\ claude_stats s1 = claude_stats s2 /\
  current_game s1 = current_game s2 /\ total_games s1 = total_games s2 /\
  map gh_game (game_history s1) = map gh_game (game_history s2) /\
  map gh_winner (game_history s1) = map gh_winner (game_history s2) /\
  models_of s1 = models_of s2.

End Session.

Arguments State {Time}.
Arguments GameRecord {Time}.
Arguments TickEnv {Time}.
Arguments ErrorResponse {Time}.
Arguments StateResponse {Time}.
Arguments MoveResponse {Time}.
Arguments board {Time}.
Arguments current_player {Time}.
Arguments first_player {Time}.
Arguments game_over {Time}.
Arguments winner {Time}.
Arguments turn_count {Time}.
Arguments move_history {Time}.
Arguments gpt_reasoning {Time}.
Arguments claude_reasoning {Time}.
Arguments gpt_stats {Time}.
Arguments claude_stats {Time}.
Arguments current_game {Time}.
Arguments total_games {Time}.
Arguments game_history {Time}.
Arguments gpt_total_time {Time}.
Arguments claude_total_time {Time}.
Arguments gpt_last_time {Time}.
Arguments claude_last_time {Time}.
Arguments last_move {Time}.
Arguments gpt_model {Time}.
Arguments claude_model {Time}.
Arguments gpt_model_id {Time}.
Arguments claude_model_id {Time}.
Arguments gpt_display_name {Time}.
Arguments claude_display_name {Time}.
Arguments set_board {Time}.
Arguments set_current_player {Time}.
Arguments set_game_over {Time}.
Arguments set_winner {Time}.
Arguments set_turn_count {Time}.
Arguments set_move_history {Time}.
Arguments set_gpt_reasoning {Time}.
Arguments set_claude_reasoning {Time}.
Arguments set_gpt_stats {Time}.
Arguments set_claude_stats {Time}.
Arguments set_current_game {Time}.
Arguments set_total_games {Time}.
Arguments set_game_history {Time}.
Arguments set_gpt_total_time {Time}.
Arguments set_claude_total_time {Time}.
Arguments set_gpt_last_time {Time}.
Arguments set_claude_last_time {Time}.
Arguments set_last_move {Time}.
Arguments cs_board {Time}.
Arguments cs_current_player {Time}.
Arguments cs_first_player {Time}.
Arguments cs_turn_count {Time}.
Arguments cs_game_over {Time}.
Arguments cs_winner {Time}.
Arguments cs_last_move {Time}.
Arguments cs_move_history {Time}.
Arguments cs_gpt_reasoning {Time}.
Arguments cs_claude_reasoning {Time}.
Arguments cs_gpt_stats {Time}.
Arguments cs_claude_stats {Time}.
Arguments cs_current_game {Time}.
Arguments cs_total_games {Time}.
Arguments cs_game_history {Time}.
Arguments cs_all_games_complete {Time}.
Arguments cs_gpt_total_time {Time}.
Arguments cs_claude_total_time {Time}.
Arguments cs_gpt_last_time {Time}.
Arguments cs_claude_last_time {Time}.
Arguments cs_gpt_display_name {Time}.
Arguments cs_claude_display_name {Time}.
Arguments gh_game {Time}.
Arguments gh_time {Time}.
Arguments gh_winner {Time}.
Arguments gh_turns {Time}.
Arguments gh_gpt_time {Time}.
Arguments gh_claude_time {Time}.
Arguments provider {Time}.
Arguments elapsed {Time}.
Arguments now {Time}.
Arguments init_game_state {Time}.
Arguments get_client_state {Time}.
Arguments history_entry {Time}.
Arguments record_move {Time}.
Arguments play_column {Time}.
Arguments next_move {Time}.
Arguments start_games {Time}.
Arguments next_game {Time}.
Arguments get_game_state_route {Time}.
Arguments succeeded {Time}.
Arguments concluded {Time}.
Arguments awaiting_move {Time}.
Arguments recorded {Time}.
Arguments playable {Time}.
Arguments reachable {Time}.
Arguments provider_bookkeeping {Time}.
Arguments last_time_of {Time}.
Arguments ClientState {Time}.

(** Sample sessions, with durations counted in hundredths of a second. *)
Definition sample_start : state Z :=
  set_total_games (init_game_state 0%Z true "gpt-5.1" "claude-haiku-4.5") 3.

Definition sample_env (column elapsed : Z) : tick_env Z :=
  TickEnv (Return (column, None)) elapsed "12:00:00".

Definition sample_failing_env : tick_env Z :=
  TickEnv (Raise (OtherError "connection reset")) 5%Z "12:00:00".

(** [next_move] on sample sessions: durations add up as integers and are
    already rounded. *)
Abbreviation sample_next_move := (next_move Z.add (fun t : Z => t)).

Definition sample_tick (G : option (state Z)) (column elapsed : Z)
  : option (state Z) :=
  fst (sample_next_move G (sample_env column elapsed)).

Definition after_first_move : option (state Z) :=
  sample_tick (Some sample_start) 1 10.

Definition after_third_move : option (state Z) :=
  sample_tick (sample_tick after_first_move 2 20) 1 30.

(** A board with every cell taken and no four in line. *)
Definition drawn_board : grid :=
  [["R";"R";"Y";"Y";"R";"R";"Y"];
   ["Y";"Y";"R";"R";"Y";"Y";"R"];
   ["R";"R";"Y";"Y";"R";"R";"Y"];
   ["Y";"Y";"R";"R";"Y";"Y";"R"];
   ["R";"R";"Y";"Y";"R";"R";"Y"];
   ["Y";"Y";"R";"R";"Y";"Y";"R"]].

(** A game that fills the board to [drawn_board]: its first 41 columns,
    and the ticks that play them, each answered after 0.10s. The last
    move goes to column 7. *)
Definition drawn_game_columns : list Z :=
  [3; 1; 1; 1; 1; 1; 1; 2; 2; 2; 2; 2; 2; 3; 3; 3; 3; 3; 4; 4; 4; 4; 4; 4;
   7; 5; 5; 5; 5; 5; 5; 6; 6; 6; 6; 6; 6; 7; 7; 7; 7]%Z.

Definition play_columns (G : option (state Z)) (columns : list Z)
  : option (state Z) :=
  fold_left (fun G column => sample_tick G column 10) columns G.

Arguments stats_of {Time}.
Arguments session_inv {Time}.
Arguments inv_playable {Time}.
Arguments inv_no_floating {Time}.
Arguments inv_count {Time}.
Arguments inv_turns {Time}.
Arguments inv_alternate {Time}.
Arguments inv_current {Time}.
Arguments inv_stats {Time}.
Arguments inv_totals {Time}.
Arguments inv_series {Time}.
Arguments inv_history {Time}.
Arguments inv_winner {Time}.
Arguments inv_four {Time}.
Arguments inv_last_move {Time}.
Arguments display_name_of {Time}.
Arguments settled_win {Time}.
Arguments settled_draw {Time}.
Arguments settled_pass {Time}.

Arguments models_of {Time}.
Arguments models_consistent {Time}.
Arguments claude_use_thinking {Time}.
Arguments gpt_provider {Time}.
Arguments claude_provider {Time}.
Arguments reasoning_of {Time}.
Arguments total_time_of {Time}.

Arguments same_game {Time}.

(** A series with the plain models, and a tick of it answered by a sample
    GPT response. *)
Definition mini_start : state Z :=
  init_game_state 0%Z true "gpt-5-mini" "claude-haiku-4.5-standard".

Definition sample_gpt_api (request : OpenAI.gpt_request) : outcome OpenAI.gpt_response :=
  Return (OpenAI.GptResponse (Some 4%Z) OpenAI.silent_then_spoken).

Definition mini_env : tick_env Z :=
  TickEnv (gpt_provider sample_gpt_api mini_start) 10%Z "12:00:00".


(** A session whose stored GPT reasoning is 501 times the two-byte
    character U+00E9. *)
Fixpoint repeat_text (n : nat) (t : string) : string :=
  match n with
  | O => EmptyString
  | S n' => t ++ repeat_text n' t
  end.

Definition e_acute : string :=
  String (ascii_of_nat 195) (String (ascii_of_nat 169) EmptyString).

Definition sample_long : state Z :=
  set_gpt_reasoning sample_start (repeat_text 501 e_acute).
End Game.

(** * Properties of the board engine *)

Module BoardFacts.
Import Board.

Lemma board_get_cell_of (b : grid) (row col : nat) (x : string) :
  board_get b row col = Return x <-> cell_of b row col = Some x.
Proof.
  unfold board_get, cell_of.
  destruct (b !! row) as [r|]; [|split; discriminate].
  destruct (r !! col) as [y|]; split; intros H; inversion H; reflexivity.
Qed.

Lemma board_get_raise (b : grid) (row col : nat) (e : exn) :
  board_get b row col = Raise e -> cell_of b row col = None /\ e = IndexError.
Proof.
  unfold board_get, cell_of.
  destruct (b !! row) as [r|]; [|intros H; inversion H; auto].
  destruct (r !! col) as [y|]; intros H; inversion H; auto.
Qed.

Lemma wf_row_length (b : grid) (row : nat) (r : list string) :
  wf_board b -> b !! row = Some r -> length r = COLS.
Proof.
  intros [_ Hrows] Hrow. rewrite Forall_forall in Hrows.
  apply Hrows. apply list_elem_of_lookup. eauto.
Qed.

Lemma wf_cell_of (b : grid) (row col : nat) :
  wf_board b -> row < ROWS -> col < COLS -> exists x, cell_of b row col = Some x.
Proof.
  intros [Hlen Hrows] Hr Hc. unfold cell_of.
  destruct (lookup_lt_is_Some_2 b row) as [r Hrow]; [lia|].
  rewrite Hrow.
  assert (length r = COLS) as Hl by (eapply wf_row_length; eauto; split; auto).
  destruct (lookup_lt_is_Some_2 r col) as [x Hx]; [lia|]. eauto.
Qed.

Lemma cell_of_in_grid (b : grid) (row col : nat) (x : string) :
  wf_board b -> cell_of b row col = Some x -> row < ROWS /\ col < COLS.
Proof.
  intros [Hlen Hrows]. unfold cell_of.
  destruct (b !! row) as [r|] eqn:Hrow; [|discriminate].
  intros Hx. split.
  - rewrite <- Hlen. eapply lookup_lt_Some; eauto.
  - assert (length r = COLS) as Hl by (eapply wf_row_length; eauto; split; auto).
    rewrite <- Hl. eapply lookup_lt_Some; eauto.
Qed.

(** *** The engine on sample boards *)

Example check_winner_red_row : check_winner red_bottom_row "R" = Return true.
Proof. reflexivity. Qed.

Example check_winner_yellow_none : check_winner red_bottom_row "Y" = Return false.
Proof. reflexivity. Qed.

Example check_winner_short_board : check_winner [empty_row] "R" = Raise IndexError.
Proof. reflexivity. Qed.

Example drop_piece_centre :
  drop_piece create_empty_board 4 "R"
  = ([empty_row; empty_row; empty_row; empty_row; empty_row;
      [".";".";".";"R";".";".";"."]], Return (true, 5%Z)).
Proof. reflexivity. Qed.

Example drop_piece_on_top :
  snd (drop_piece red_bottom_row 2 "Y") = Return (true, 4%Z).
Proof. reflexivity. Qed.

Example valid_columns_full_first :
  get_valid_columns full_first_column = Return [2; 3; 4; 5; 6; 7]%Z.
Proof. reflexivity. Qed.

(** *** [check_winner] *)

Lemma cell_is_true (b : grid) (piece : string) (row col : nat) :
  cell_is b piece row col = true <-> cell_of b row col = Some piece.
Proof.
  unfold cell_is. destruct (cell_of b row col) as [x|]; [|split; discriminate].
  rewrite String.eqb_eq. split; congruence.
Qed.

Lemma four_in_grid (b : grid) (piece : string) (c1 c2 c3 c4 : nat * nat) :
  wf_board b -> in_grid c1 -> in_grid c2 -> in_grid c3 -> in_grid c4 ->
  four b piece c1 c2 c3 c4 = Return (line_is b piece c1 c2 c3 c4).
Proof.
  intros Hwf [R1 C1] [R2 C2] [R3 C3] [R4 C4].
  destruct (wf_cell_of b _ _ Hwf R1 C1) as [x1 H1].
  destruct (wf_cell_of b _ _ Hwf R2 C2) as [x2 H2].
  destruct (wf_cell_of b _ _ Hwf R3 C3) as [x3 H3].
  destruct (wf_cell_of b _ _ Hwf R4 C4) as [x4 H4].
  unfold four, line_is, cell_is. rewrite H1, H2, H3, H4.
  apply board_get_cell_of in H1, H2, H3, H4. rewrite H1, H2, H3, H4. simpl.
  destruct (String.eqb x1 piece), (String.eqb x2 piece), (String.eqb x3 piece);
    reflexivity.
Qed.

Lemma for_any_pure {A : Type} (f : A -> outcome bool) (g : A -> bool) (l : list A) :
  (forall x, In x l -> f x = Return (g x)) ->
  for_any f l = Return (existsb g l).
Proof.
  induction l as [|x l IH]; intros Hf; simpl; [reflexivity|].
  rewrite (Hf x) by (left; reflexivity). simpl.
  destruct (g x); [reflexivity|]. apply IH. intros y Hy. apply Hf. right. exact Hy.
Qed.

(** A doubly nested scan over cells that all lie in the grid reads no cell
    outside it and computes the pure disjunction. *)
Lemma scan_pure (b : grid) (piece : string) (rows cols : list nat)
    (line : nat -> nat -> (nat * nat) * (nat * nat) * (nat * nat) * (nat * nat)) :
  wf_board b ->
  (forall row col, In row rows -> In col cols ->
     let '(c1, c2, c3, c4) := line row col in
     in_grid c1 /\ in_grid c2 /\ in_grid c3 /\ in_grid c4) ->
  for_any (fun row => for_any (fun col =>
     let '(c1, c2, c3, c4) := line row col in four b piece c1 c2 c3 c4) cols) rows
  = Return (existsb (fun row => existsb (fun col =>
     let '(c1, c2, c3, c4) := line row col in line_is b piece c1 c2 c3 c4) cols) rows).
Proof.
  intros Hwf Hin. apply for_any_pure. intros row Hrow.
  apply for_any_pure. intros col Hcol.
  specialize (Hin row col Hrow Hcol).
  destruct (line row col) as [[[c1 c2] c3] c4].
  destruct Hin as (G1 & G2 & G3 & G4). apply four_in_grid; assumption.
Qed.

Ltac grid_bounds :=
  intros row col Hrow%in_seq Hcol%in_seq; unfold in_grid, ROWS, COLS in *;
  simpl; lia.

Lemma check_horizontal_pure (b : grid) (piece : string) :
  wf_board b ->
  check_horizontal b piece
  = Return (scan_is b piece (seq 0 ROWS) (seq 0 (COLS - 3)) horizontal_line).
Proof.
  intros Hwf. apply (scan_pure b piece _ _ horizontal_line Hwf). grid_bounds.
Qed.

Lemma check_vertical_pure (b : grid) (piece : string) :
  wf_board b ->
  check_vertical b piece
  = Return (scan_is b piece (seq 0 (ROWS - 3)) (seq 0 COLS) vertical_line).
Proof.
  intros Hwf. apply (scan_pure b piece _ _ vertical_line Hwf). grid_bounds.
Qed.

Lemma check_down_right_pure (b : grid) (piece : string) :
  wf_board b ->
  check_down_right b piece
  = Return (scan_is b piece (seq 0 (ROWS - 3)) (seq 0 (COLS - 3)) down_right_line).
Proof.
  intros Hwf. apply (scan_pure b piece _ _ down_right_line Hwf). grid_bounds.
Qed.

Lemma check_up_right_pure (b : grid) (piece : string) :
  wf_board b ->
  check_up_right b piece
  = Return (scan_is b piece (seq 3 (ROWS - 3)) (seq 0 (COLS - 3)) up_right_line).
Proof.
  intros Hwf. apply (scan_pure b piece _ _ up_right_line Hwf). grid_bounds.
Qed.

(** On a 6x7 board [check_winner] raises nothing. *)
Lemma check_winner_pure (b : grid) (piece : string) :
  wf_board b -> check_winner b piece = Return (winner_is b piece).
Proof.
  intros Hwf. unfold check_winner, winner_is.
  rewrite check_horizontal_pure, check_vertical_pure,
    check_down_right_pure, check_up_right_pure by assumption.
  generalize (scan_is b piece (seq 0 ROWS) (seq 0 (COLS - 3)) horizontal_line),
    (scan_is b piece (seq 0 (ROWS - 3)) (seq 0 COLS) vertical_line),
    (scan_is b piece (seq 0 (ROWS - 3)) (seq 0 (COLS - 3)) down_right_line),
    (scan_is b piece (seq 3 (ROWS - 3)) (seq 0 (COLS - 3)) up_right_line).
  intros [] [] [] []; reflexivity.
Qed.

Lemma cell_at_of_nat (b : grid) (row col : nat) (zr zc : Z) :
  zr = Z.of_nat row -> zc = Z.of_nat col -> cell_at b zr zc = cell_of b row col.
Proof.
  intros -> ->. unfold cell_at.
  replace (0 <=? Z.of_nat row)%Z with true by (symmetry; apply Z.leb_le; lia).
  replace (0 <=? Z.of_nat col)%Z with true by (symmetry; apply Z.leb_le; lia).
  simpl. rewrite !Nat2Z.id. reflexivity.
Qed.

Lemma cell_at_Some (b : grid) (piece : string) (zr zc : Z) :
  wf_board b -> cell_at b zr zc = Some piece ->
  exists row col, zr = Z.of_nat row /\ zc = Z.of_nat col /\
    row < ROWS /\ col < COLS /\ cell_is b piece row col = true.
Proof.
  intros Hwf. unfold cell_at.
  destruct (0 <=? zr)%Z eqn:Hr; [|discriminate].
  destruct (0 <=? zc)%Z eqn:Hc; [|discriminate]. simpl.
  apply Z.leb_le in Hr, Hc. intros H.
  exists (Z.to_nat zr), (Z.to_nat zc).
  destruct (cell_of_in_grid b _ _ _ Hwf H) as [? ?].
  repeat split; try lia; try assumption. apply cell_is_true. exact H.
Qed.

Lemma scan_is_true (b : grid) (piece : string) (rows cols : list nat) line :
  scan_is b piece rows cols line = true <->
  exists row col, In row rows /\ In col cols /\
    (let '(c1, c2, c3, c4) := line row col in line_is b piece c1 c2 c3 c4) = true.
Proof.
  unfold scan_is. rewrite existsb_exists. split.
  - intros (row & Hrow & H). apply existsb_exists in H as (col & Hcol & H). eauto.
  - intros (row & col & Hrow & Hcol & H). exists row. split; [assumption|].
    apply existsb_exists. eauto.
Qed.

Lemma line_is_true (b : grid) (piece : string) (c1 c2 c3 c4 : nat * nat) :
  line_is b piece c1 c2 c3 c4 = true <->
  cell_of b (fst c1) (snd c1) = Some piece /\ cell_of b (fst c2) (snd c2) = Some piece /\
  cell_of b (fst c3) (snd c3) = Some piece /\ cell_of b (fst c4) (snd c4) = Some piece.
Proof.
  unfold line_is. rewrite !andb_true_iff, !cell_is_true. tauto.
Qed.

(** A winning line found by one of the scans is a run of four. *)
Lemma line_run (b : grid) (piece : string) (row col : nat) (d : direction)
    (c1 c2 c3 c4 : nat * nat) :
  line_is b piece c1 c2 c3 c4 = true ->
  c1 = (row, col) ->
  (Z.of_nat (fst c2) = Z.of_nat row + 1 * fst (delta d) /\
   Z.of_nat (snd c2) = Z.of_nat col + 1 * snd (delta d))%Z ->
  (Z.of_nat (fst c3) = Z.of_nat row + 2 * fst (delta d) /\
   Z.of_nat (snd c3) = Z.of_nat col + 2 * snd (delta d))%Z ->
  (Z.of_nat (fst c4) = Z.of_nat row + 3 * fst (delta d) /\
   Z.of_nat (snd c4) = Z.of_nat col + 3 * snd (delta d))%Z ->
  run_of_four b piece (Z.of_nat row) (Z.of_nat col) d.
Proof.
  intros (H1 & H2 & H3 & H4)%line_is_true -> [R2 C2] [R3 C3] [R4 C4] k Hk.
  simpl in H1.
  assert (k = 0 \/ k = 1 \/ k = 2 \/ k = 3)%Z as [-> | [-> | [-> | ->]]] by lia.
  - rewrite <- H1. apply cell_at_of_nat; lia.
  - rewrite <- H2. apply cell_at_of_nat; lia.
  - rewrite <- H3. apply cell_at_of_nat; lia.
  - rewrite <- H4. apply cell_at_of_nat; lia.
Qed.

Lemma winner_is_has_four (b : grid) (piece : string) :
  winner_is b piece = true -> has_four b piece.
Proof.
  unfold winner_is. rewrite !orb_true_iff, !scan_is_true.
  intros [[[H | H] | H] | H]; destruct H as (row & col & Hrow & Hcol & H);
    apply in_seq in Hrow, Hcol; exists (Z.of_nat row), (Z.of_nat col).
  - exists Horizontal. eapply line_run; [exact H|reflexivity|simpl; lia..].
  - exists Vertical. eapply line_run; [exact H|reflexivity|simpl; lia..].
  - exists DownRight. eapply line_run; [exact H|reflexivity|simpl; lia..].
  - exists UpRight. eapply line_run; [exact H|reflexivity|simpl; lia..].
Qed.

Lemma has_four_winner_is (b : grid) (piece : string) :
  wf_board b -> has_four b piece -> winner_is b piece = true.
Proof.
  intros Hwf (zr & zc & d & Hrun).
  destruct (cell_at_Some b piece _ _ Hwf (Hrun 0%Z ltac:(lia)))
    as (r0 & c0 & Er0 & Ec0 & Br0 & Bc0 & I0).
  destruct (cell_at_Some b piece _ _ Hwf (Hrun 1%Z ltac:(lia)))
    as (r1 & c1 & Er1 & Ec1 & Br1 & Bc1 & I1).
  destruct (cell_at_Some b piece _ _ Hwf (Hrun 2%Z ltac:(lia)))
    as (r2 & c2 & Er2 & Ec2 & Br2 & Bc2 & I2).
  destruct (cell_at_Some b piece _ _ Hwf (Hrun 3%Z ltac:(lia)))
    as (r3 & c3 & Er3 & Ec3 & Br3 & Bc3 & I3).
  unfold winner_is. rewrite !orb_true_iff, !scan_is_true.
  unfold ROWS, COLS in *.
  destruct d; simpl in Er0, Ec0, Er1, Ec1, Er2, Ec2, Er3, Ec3.
  - left; left; left. exists r0, c0. rewrite !in_seq.
    split; [lia|]. split; [lia|]. unfold horizontal_line, line_is. simpl.
    replace r0 with r1 at 2 by lia. replace (c0 + 1) with c1 by lia.
    replace r0 with r2 at 2 by lia. replace (c0 + 2) with c2 by lia.
    replace r0 with r3 at 2 by lia. replace (c0 + 3) with c3 by lia.
    rewrite I0, I1, I2, I3. reflexivity.
  - left; left; right. exists r0, c0. rewrite !in_seq.
    split; [lia|]. split; [lia|]. unfold vertical_line, line_is. simpl.
    replace (r0 + 1) with r1 by lia. replace c0 with c1 at 2 by lia.
    replace (r0 + 2) with r2 by lia. replace c0 with c2 at 2 by lia.
    replace (r0 + 3) with r3 by lia. replace c0 with c3 at 2 by lia.
    rewrite I0, I1, I2, I3. reflexivity.
  - left; right. exists r0, c0. rewrite !in_seq.
    split; [lia|]. split; [lia|]. unfold down_right_line, line_is. simpl.
    replace (r0 + 1) with r1 by lia. replace (c0 + 1) with c1 by lia.
    replace (r0 + 2) with r2 by lia. replace (c0 + 2) with c2 by lia.
    replace (r0 + 3) with r3 by lia. replace (c0 + 3) with c3 by lia.
    rewrite I0, I1, I2, I3. reflexivity.
  - right. exists r0, c0. rewrite !in_seq.
    split; [lia|]. split; [lia|]. unfold up_right_line, line_is. simpl.
    replace (r0 - 1) with r1 by lia. replace (c0 + 1) with c1 by lia.
    replace (r0 - 2) with r2 by lia. replace (c0 + 2) with c2 by lia.
    replace (r0 - 3) with r3 by lia. replace (c0 + 3) with c3 by lia.
    rewrite I0, I1, I2, I3. reflexivity.
Qed.

Lemma run_length_ge (b : grid) (piece : string) (d : direction) (n : nat) :
  forall (fuel : nat) (row col : Z),
    n <= fuel ->
    (forall k : Z, (0 <= k < Z.of_nat n)%Z ->
       cell_at b (row + k * fst (delta d)) (col + k * snd (delta d)) = Some piece) ->
    n <= run_length b piece row col d fuel.
Proof.
  induction n as [|n IH]; intros fuel row col Hfuel Hrun; [lia|].
  destruct fuel as [|fuel]; [lia|]. simpl.
  pose proof (Hrun 0%Z ltac:(lia)) as H0.
  replace (row + 0 * fst (delta d))%Z with row in H0 by lia.
  replace (col + 0 * snd (delta d))%Z with col in H0 by lia.
  rewrite H0, String.eqb_refl.
  apply le_n_S, IH; [lia|]. intros k Hk.
  specialize (Hrun (k + 1)%Z ltac:(lia)).
  rewrite <- Hrun. f_equal; lia.
Qed.

Lemma wf_sample_boards :
  wf_board create_empty_board /\ wf_board red_bottom_row /\ wf_board full_first_column.
Proof.
  repeat split; try reflexivity; repeat constructor.
Qed.

(** C1. On every 6x7 board and for every piece, [check_winner] returns
    [True] exactly when the board holds four contiguous cells with that
    piece along a row, a column, the down-right or the up-right diagonal;
    in particular it returns [False] when no run of the piece is longer
    than three. *)
Theorem check_winner_four_in_line (b : grid) (piece : string) :
  wf_board b ->
  (check_winner b piece = Return true <-> has_four b piece) /\
  (longest_run_at_most b piece 3 -> check_winner b piece = Return false).
Proof.
  intros Hwf. rewrite (check_winner_pure b piece Hwf).
  assert (winner_is b piece = true <-> has_four b piece) as Hiff.
  { split; [apply winner_is_has_four | apply has_four_winner_is; assumption]. }
  split.
  - rewrite <- Hiff. split; [intros H; inversion H; reflexivity | intros ->; reflexivity].
  - intros Hlong. destruct (winner_is b piece) eqn:Hw; [|reflexivity].
    destruct (proj1 Hiff eq_refl) as (row & col & d & Hrun).
    pose proof (run_length_ge b piece d 4 (ROWS + COLS) row col
                  ltac:(unfold ROWS, COLS; lia) Hrun) as Hge.
    specialize (Hlong row col d). lia.
Qed.

Lemma check_winner_four_in_line_witness :
  (check_winner red_bottom_row "R" = Return true <-> has_four red_bottom_row "R") /\
  (longest_run_at_most red_bottom_row "R" 3 ->
   check_winner red_bottom_row "R" = Return false).
Proof.
  apply (check_winner_four_in_line red_bottom_row "R").
  split; [reflexivity | repeat constructor].
Defined.

(** *** [drop_piece] *)

Lemma cell_of_board_set_eq (b : grid) (row col : nat) (piece x : string) :
  cell_of b row col = Some x ->
  cell_of (board_set b row col piece) row col = Some piece.
Proof.
  unfold cell_of, board_set.
  destruct (b !! row) as [r|] eqn:Hrow; [|discriminate]. intros Hx.
  rewrite list_lookup_insert_eq by (eapply lookup_lt_Some; eauto).
  apply list_lookup_insert_eq. eapply lookup_lt_Some; eauto.
Qed.

Lemma cell_of_board_set_ne (b : grid) (row col row' col' : nat) (piece : string) :
  (row', col') <> (row, col) ->
  cell_of (board_set b row col piece) row' col' = cell_of b row' col'.
Proof.
  intros Hne. unfold cell_of, board_set.
  destruct (b !! row) as [r|] eqn:Hrow; [|reflexivity].
  destruct (decide (row' = row)) as [->|Hr].
  - rewrite list_lookup_insert_eq by (eapply lookup_lt_Some; eauto).
    rewrite Hrow. apply list_lookup_insert_ne. congruence.
  - rewrite list_lookup_insert_ne by congruence. reflexivity.
Qed.

Lemma wf_board_set (b : grid) (row col : nat) (piece : string) :
  wf_board b -> wf_board (board_set b row col piece).
Proof.
  intros Hwf. pose proof Hwf as [Hlen Hrows]. unfold board_set.
  destruct (b !! row) as [r|] eqn:Hrow; [|assumption].
  split; [rewrite length_insert; assumption|].
  apply Forall_insert; [assumption|].
  rewrite length_insert. eapply wf_row_length; eauto.
Qed.

(** What the scan of the rows [n - 1], ..., [0] does on any board. *)
Lemma drop_scan_spec (b : grid) (col_idx : nat) (piece : string) (n : nat) :
  match drop_scan b col_idx piece n with
  | (b', Return (true, z)) =>
      exists row, z = Z.of_nat row /\ row < n /\
        cell_of b row col_idx = Some "." /\
        b' = board_set b row col_idx piece /\
        forall row', row < row' < n ->
          exists y, cell_of b row' col_idx = Some y /\ occupied y
  | (b', Return (false, z)) =>
      z = (-1)%Z /\ b' = b /\
      forall row', row' < n ->
        exists y, cell_of b row' col_idx = Some y /\ occupied y
  | (b', Raise e) =>
      e = IndexError /\ b' = b /\
      exists row, row < n /\ cell_of b row col_idx = None
  end.
Proof.
  induction n as [|n IH]; simpl.
  - repeat split. intros row' Hlt. lia.
  - destruct (board_get b n col_idx) as [x|e] eqn:Hget.
    + apply board_get_cell_of in Hget.
      destruct (String.eqb x ".") eqn:Hx.
      * apply String.eqb_eq in Hx. subst x.
        exists n. repeat split; try assumption; try lia.
      * apply String.eqb_neq in Hx.
        destruct (drop_scan b col_idx piece n) as [b' [[[|] z]|e]].
        -- destruct IH as (row & -> & Hlt & Hempty & -> & Hbelow).
           exists row. repeat split; try assumption; try lia.
           intros row' Hr. destruct (decide (row' = n)) as [->|Hn].
           ++ exists x. split; assumption.
           ++ apply Hbelow. lia.
        -- destruct IH as (-> & -> & Hall). repeat split.
           intros row' Hr. destruct (decide (row' = n)) as [->|Hn].
           ++ exists x. split; assumption.
           ++ apply Hall. lia.
        -- destruct IH as (-> & -> & row & Hlt & Hnone). repeat split.
           exists row. split; [lia | assumption].
    + apply board_get_raise in Hget as [Hnone ->]. repeat split.
      exists n. split; [lia | assumption].
Qed.

Lemma drop_piece_out_of_range (b : grid) (col : Z) (piece : string) :
  (col < 1 \/ 7 < col)%Z -> drop_piece b col piece = (b, Return (false, (-1)%Z)).
Proof.
  intros Hcol. unfold drop_piece, COLS.
  destruct (col - 1 <? 0)%Z eqn:Hlo; [reflexivity|].
  destruct (col - 1 >=? Z.of_nat 7)%Z eqn:Hhi; [reflexivity|].
  apply Z.ltb_ge in Hlo. rewrite Z.geb_leb in Hhi. apply Z.leb_gt in Hhi. lia.
Qed.

Lemma drop_piece_in_range (b : grid) (col : Z) (piece : string) :
  (1 <= col <= 7)%Z ->
  drop_piece b col piece = drop_scan b (Z.to_nat (col - 1)) piece ROWS.
Proof.
  intros Hcol. unfold drop_piece, COLS.
  destruct (col - 1 <? 0)%Z eqn:Hlo; [apply Z.ltb_lt in Hlo; lia|].
  destruct (col - 1 >=? Z.of_nat 7)%Z eqn:Hhi; [|reflexivity].
  rewrite Z.geb_leb in Hhi. apply Z.leb_le in Hhi. lia.
Qed.

Lemma drop_piece_full (b : grid) (col : Z) (piece : string) :
  (1 <= col <= 7)%Z -> column_full b (Z.to_nat (col - 1)) ->
  drop_piece b col piece = (b, Return (false, (-1)%Z)).
Proof.
  intros Hcol Hfull. rewrite drop_piece_in_range by assumption.
  pose proof (drop_scan_spec b (Z.to_nat (col - 1)) piece ROWS) as Hspec.
  destruct (drop_scan b (Z.to_nat (col - 1)) piece ROWS) as [b' [[[|] z]|e]].
  - destruct Hspec as (row & _ & Hlt & Hempty & _).
    destruct (Hfull row Hlt) as (y & Hy & Hocc). congruence.
  - destruct Hspec as (-> & -> & _). reflexivity.
  - destruct Hspec as (_ & _ & row & Hlt & Hnone).
    destruct (Hfull row Hlt) as (y & Hy & _). congruence.
Qed.

Lemma lowest_empty_unique (b : grid) (col_idx row1 row2 : nat) :
  lowest_empty b col_idx row1 -> lowest_empty b col_idx row2 -> row1 = row2.
Proof.
  intros (L1 & E1 & B1) (L2 & E2 & B2).
  destruct (lt_eq_lt_dec row1 row2) as [[Hlt | Heq] | Hgt]; [|assumption|].
  - destruct (B1 row2 ltac:(lia)) as (y & Hy & Hocc). congruence.
  - destruct (B2 row1 ltac:(lia)) as (y & Hy & Hocc). congruence.
Qed.

(** On a 6x7 board a column in range with an empty cell takes the piece. *)
Lemma drop_piece_places (b : grid) (col : Z) (piece : string) :
  wf_board b -> (1 <= col <= 7)%Z -> column_has_empty b (Z.to_nat (col - 1)) ->
  exists row,
    lowest_empty b (Z.to_nat (col - 1)) row /\
    drop_piece b col piece
    = (board_set b row (Z.to_nat (col - 1)) piece, Return (true, Z.of_nat row)).
Proof.
  intros Hwf Hcol (r & Hr & Hempty). rewrite drop_piece_in_range by assumption.
  pose proof (drop_scan_spec b (Z.to_nat (col - 1)) piece ROWS) as Hspec.
  destruct (drop_scan b (Z.to_nat (col - 1)) piece ROWS) as [b' [[[|] z]|e]].
  - destruct Hspec as (row & -> & Hlt & He & -> & Hbelow).
    exists row. split; [|reflexivity]. repeat split; assumption.
  - destruct Hspec as (_ & _ & Hall).
    destruct (Hall r Hr) as (y & Hy & Hocc). congruence.
  - destruct Hspec as (_ & _ & row & Hlt & Hnone).
    destruct (wf_cell_of b row (Z.to_nat (col - 1)) Hwf Hlt) as [x Hx];
      [unfold COLS; lia | congruence].
Qed.

Lemma full_first_column_is_full : column_full full_first_column 0.
Proof.
  intros row Hrow. unfold ROWS in Hrow.
  do 6 (destruct row as [|row]; [eexists; split; [reflexivity | discriminate]|]).
  lia.
Qed.

(** C2 (as the code has it). On every 6x7 board: a column in [1,7] with an
    empty cell receives the piece in its lowest empty row and that row is
    returned with [True]; a column in [1,7] with no empty cell and a column
    outside [1,7] both end in the single failure value [(False, -1)] with
    the board as it was. *)
Theorem drop_piece_lowest_row_or_failure (b : grid) (col : Z) (piece : string) :
  wf_board b ->
  ((1 <= col <= 7)%Z -> column_has_empty b (Z.to_nat (col - 1)) ->
   exists row,
     lowest_empty b (Z.to_nat (col - 1)) row /\
     drop_piece b col piece
     = (board_set b row (Z.to_nat (col - 1)) piece, Return (true, Z.of_nat row)) /\
     cell_of (board_set b row (Z.to_nat (col - 1)) piece) row (Z.to_nat (col - 1))
     = Some piece) /\
  ((1 <= col <= 7)%Z -> column_full b (Z.to_nat (col - 1)) ->
   drop_piece b col piece = (b, Return (false, (-1)%Z))) /\
  ((col < 1 \/ 7 < col)%Z ->
   drop_piece b col piece = (b, Return (false, (-1)%Z))).
Proof.
  intros Hwf. split; [|split].
  - intros Hcol Hempty.
    destruct (drop_piece_places b col piece Hwf Hcol Hempty) as (row & Hlow & Hdrop).
    exists row. split; [assumption|]. split; [assumption|].
    destruct Hlow as (_ & Hcell & _). eapply cell_of_board_set_eq; eauto.
  - apply drop_piece_full.
  - apply drop_piece_out_of_range.
Qed.

Lemma drop_piece_lowest_row_or_failure_witness :
  exists row,
    lowest_empty red_bottom_row 0 row /\
    drop_piece red_bottom_row 1 "Y"
    = (board_set red_bottom_row row 0 "Y", Return (true, Z.of_nat row)) /\
    cell_of (board_set red_bottom_row row 0 "Y") row 0 = Some "Y".
Proof.
  apply (drop_piece_lowest_row_or_failure red_bottom_row 1 "Y").
  - split; [reflexivity | repeat constructor].
  - lia.
  - exists 4. split; [unfold ROWS; lia | reflexivity].
Defined.

(** C2, the statement of the specification fails: a full column and a
    column out of range yield the same result on the same board, so no
    reading of the result names [ColumnFullError] in one case and
    [ColumnOutOfRangeError] in the other. *)
Lemma drop_piece_failures_not_distinguished :
  column_full full_first_column 0 /\
  ~ exists classify : grid * outcome (bool * Z) -> place_error,
      classify (drop_piece full_first_column 1 "R") = ColumnFullError /\
      classify (drop_piece full_first_column 8 "R") = ColumnOutOfRangeError.
Proof.
  split; [apply full_first_column_is_full|].
  intros (classify & Hfull & Hrange).
  change (drop_piece full_first_column 8 "R")
    with (drop_piece full_first_column 1 "R") in Hrange.
  congruence.
Qed.

(** C10. For every board, column and piece: [drop_piece] returns
    [(False, -1)] and leaves the board as it was when the column is outside
    [1,7] or has no empty cell; whenever it does not return success the
    board is unchanged; and when it returns [(True, row)] the only cell
    written is the lowest empty cell of the chosen column, which now holds
    the piece. *)
Theorem drop_piece_writes_one_cell_on_success (b : grid) (col : Z) (piece : string) :
  ((col < 1 \/ 7 < col)%Z ->
   drop_piece b col piece = (b, Return (false, (-1)%Z))) /\
  ((1 <= col <= 7)%Z -> column_full b (Z.to_nat (col - 1)) ->
   drop_piece b col piece = (b, Return (false, (-1)%Z))) /\
  (forall b' o, drop_piece b col piece = (b', o) ->
     match o with
     | Return (true, z) =>
         (1 <= col <= 7)%Z /\
         exists row, z = Z.of_nat row /\
           lowest_empty b (Z.to_nat (col - 1)) row /\
           b' = board_set b row (Z.to_nat (col - 1)) piece /\
           cell_of b' row (Z.to_nat (col - 1)) = Some piece /\
           forall row' col', (row', col') <> (row, Z.to_nat (col - 1)) ->
             cell_of b' row' col' = cell_of b row' col'
     | Return (false, z) => z = (-1)%Z /\ b' = b
     | Raise _ => b' = b
     end).
Proof.
  split; [apply drop_piece_out_of_range|]. split; [apply drop_piece_full|].
  intros b' o Hdrop.
  destruct (Z_lt_le_dec col 1) as [Hlo|Hlo];
    [rewrite drop_piece_out_of_range in Hdrop by lia; inversion Hdrop; auto|].
  destruct (Z_lt_le_dec 7 col) as [Hhi|Hhi];
    [rewrite drop_piece_out_of_range in Hdrop by lia; inversion Hdrop; auto|].
  rewrite drop_piece_in_range in Hdrop by lia.
  pose proof (drop_scan_spec b (Z.to_nat (col - 1)) piece ROWS) as Hspec.
  rewrite Hdrop in Hspec. destruct o as [[[|] z]|e].
  - destruct Hspec as (row & -> & Hlt & Hempty & -> & Hbelow).
    split; [lia|]. exists row. split; [reflexivity|].
    split; [repeat split; assumption|]. split; [reflexivity|].
    split; [eapply cell_of_board_set_eq; eauto|].
    intros row' col' Hne. apply cell_of_board_set_ne. assumption.
  - destruct Hspec as (-> & -> & _). auto.
  - destruct Hspec as (_ & -> & _). reflexivity.
Qed.

Lemma drop_piece_writes_one_cell_on_success_witness :
  drop_piece full_first_column 0 "R" = (full_first_column, Return (false, (-1)%Z)) /\
  drop_piece full_first_column 1 "R" = (full_first_column, Return (false, (-1)%Z)) /\
  exists row, lowest_empty red_bottom_row 4 row /\
    cell_of (fst (drop_piece red_bottom_row 5 "Y")) row 4 = Some "Y".
Proof.
  destruct (drop_piece_writes_one_cell_on_success full_first_column 0 "R")
    as (Hrange & _ & _).
  destruct (drop_piece_writes_one_cell_on_success full_first_column 1 "R")
    as (_ & Hfull & _).
  destruct (drop_piece_writes_one_cell_on_success red_bottom_row 5 "Y")
    as (_ & _ & Hok).
  split; [apply Hrange; lia|].
  split; [apply Hfull; [lia | apply full_first_column_is_full]|].
  specialize (Hok _ _ eq_refl). simpl in Hok.
  destruct Hok as (_ & row & _ & Hlow & _ & Hcell & _).
  exists row. split; assumption.
Defined.

(** *** The bottom-up invariant *)

Lemma cell_of_empty_board (row col : nat) (x : string) :
  cell_of create_empty_board row col = Some x -> x = ".".
Proof.
  unfold cell_of, create_empty_board.
  destruct (replicate ROWS (replicate COLS ".") !! row) as [r|] eqn:Hrow;
    [|discriminate].
  apply lookup_replicate in Hrow as [-> _].
  intros Hx. apply lookup_replicate in Hx as [-> _]. reflexivity.
Qed.

Lemma no_floating_empty_board : no_floating create_empty_board.
Proof.
  intros row col x Hx Hocc. apply cell_of_empty_board in Hx. contradiction.
Qed.

(** One successful placement keeps the columns filled from the bottom. *)
Lemma drop_piece_no_floating (b b' : grid) (col : Z) (piece : string) (z : Z) :
  no_floating b ->
  drop_piece b col piece = (b', Return (true, z)) ->
  no_floating b'.
Proof.
  intros Hinv Hdrop.
  destruct (Z_lt_le_dec col 1) as [Hlo|Hlo];
    [rewrite drop_piece_out_of_range in Hdrop by lia; inversion Hdrop|].
  destruct (Z_lt_le_dec 7 col) as [Hhi|Hhi];
    [rewrite drop_piece_out_of_range in Hdrop by lia; inversion Hdrop|].
  rewrite drop_piece_in_range in Hdrop by lia.
  pose proof (drop_scan_spec b (Z.to_nat (col - 1)) piece ROWS) as Hspec.
  rewrite Hdrop in Hspec.
  destruct Hspec as (r & _ & Hlt & Hempty & -> & Hbelow).
  set (c := Z.to_nat (col - 1)) in *.
  intros row col' x Hx Hocc row' Hrow'.
  assert ((row', col') <> (r, c)) as Hne'.
  { intros Heq. inversion Heq; subst row' col'.
    destruct (decide (row = r)) as [->|Hr]; [lia|].
    rewrite cell_of_board_set_ne in Hx by congruence.
    destruct (Hinv row c x Hx Hocc r Hrow') as (y & Hy & Hyocc).
    rewrite Hempty in Hy. inversion Hy. subst y. apply Hyocc. reflexivity. }
  rewrite cell_of_board_set_ne by assumption.
  destruct (decide ((row, col') = (r, c))) as [Heq|Hne].
  - inversion Heq; subst row col'. apply Hbelow. assumption.
  - rewrite cell_of_board_set_ne in Hx by assumption.
    eapply Hinv; eauto.
Qed.

Lemma place_all_no_floating (moves : list (Z * string)) :
  forall b0 b, no_floating b0 -> place_all b0 moves = Some b -> no_floating b.
Proof.
  induction moves as [|[col piece] moves IH]; intros b0 b Hinv Hplay; simpl in Hplay.
  - inversion Hplay; subst; assumption.
  - destruct (drop_piece b0 col piece) as [b1 [[[|] z]|e]] eqn:Hdrop;
      try discriminate.
    eapply IH; [|exact Hplay]. eapply drop_piece_no_floating; eauto.
Qed.

(** C3. Every successful [drop_piece] keeps the bottom-up invariant, and so
    after any sequence of successful placements from the empty 7x6 board no
    piece floats: under every occupied cell the column is occupied down to
    the bottom row. *)
Theorem placements_leave_no_floating_piece :
  (forall (b b' : grid) (col : Z) (piece : string) (z : Z),
     no_floating b -> drop_piece b col piece = (b', Return (true, z)) ->
     no_floating b') /\
  (forall (moves : list (Z * string)) (b : grid),
     place_all create_empty_board moves = Some b -> no_floating b).
Proof.
  split.
  - apply drop_piece_no_floating.
  - intros moves b Hplay.
    eapply place_all_no_floating; [apply no_floating_empty_board | exact Hplay].
Qed.

Lemma placements_leave_no_floating_piece_witness :
  no_floating
    [empty_row; empty_row; empty_row;
     [".";".";".";"R";".";".";"."];
     [".";".";".";"Y";".";".";"."];
     [".";".";"Y";"R";".";".";"."]].
Proof.
  apply (proj2 placements_leave_no_floating_piece
           [(4, "R"); (4, "Y"); (3, "Y"); (4, "R")]%Z).
  reflexivity.
Defined.

(** *** [get_valid_columns] and [is_board_full] *)

Lemma valid_loop_spec (b : grid) (cols : list nat) :
  forall (valid l : list Z),
    valid_loop b cols valid = Return l ->
    forall c, c ∈ l ->
      c ∈ valid \/
      exists col_idx, In col_idx cols /\ c = (Z.of_nat col_idx + 1)%Z /\
        cell_of b 0 col_idx = Some ".".
Proof.
  induction cols as [|col cols IH]; intros valid l Hloop c Hc; simpl in Hloop.
  - inversion Hloop; subst. left. assumption.
  - destruct (board_get b 0 col) as [x|e] eqn:Hget; [|discriminate].
    simpl in Hloop. apply board_get_cell_of in Hget.
    destruct (IH _ _ Hloop c Hc) as [Hin | (col_idx & Hin & Heq & Hcell)].
    + destruct (String.eqb x ".") eqn:Hx; [|left; assumption].
      apply String.eqb_eq in Hx. subst x.
      apply elem_of_app in Hin as [Hin | Hin]; [left; assumption|].
      apply list_elem_of_singleton in Hin. right. exists col.
      split; [left; reflexivity|]. split; assumption.
    + right. exists col_idx. split; [right; assumption|]. split; assumption.
Qed.

(** A column listed by [get_valid_columns] is in [1,7] and its top cell is
    empty. *)
Lemma get_valid_columns_sound (b : grid) (l : list Z) (c : Z) :
  get_valid_columns b = Return l -> c ∈ l ->
  (1 <= c <= 7)%Z /\ cell_of b 0 (Z.to_nat (c - 1)) = Some ".".
Proof.
  intros Hvalid Hc.
  destruct (valid_loop_spec b _ _ _ Hvalid c Hc) as [Hin | (col & Hin & -> & Hcell)].
  - apply elem_of_nil in Hin. contradiction.
  - apply in_seq in Hin. unfold COLS in Hin. split; [lia|].
    replace (Z.to_nat (Z.of_nat col + 1 - 1)) with col by lia. assumption.
Qed.

Lemma full_loop_total (b : grid) (cols : list nat) :
  wf_board b -> (forall col_idx, In col_idx cols -> col_idx < COLS) ->
  exists v, full_loop b cols = Return v.
Proof.
  intros Hwf. induction cols as [|col cols IH]; intros Hcols; simpl; [eauto|].
  destruct (wf_cell_of b 0 col Hwf) as [x Hx];
    [unfold ROWS; lia | apply Hcols; left; reflexivity |].
  apply board_get_cell_of in Hx. rewrite Hx. simpl.
  destruct (negb (String.eqb x ".")); [|eauto].
  apply IH. intros c Hc. apply Hcols. right. assumption.
Qed.

Lemma is_board_full_total (b : grid) :
  wf_board b -> exists v, is_board_full b = Return v.
Proof.
  intros Hwf. apply full_loop_total; [assumption|].
  intros c Hc%in_seq. lia.
Qed.

(** A valid column accepts a piece. *)
Lemma drop_piece_valid_column (b : grid) (l : list Z) (c : Z) (piece : string) :
  wf_board b -> get_valid_columns b = Return l -> c ∈ l ->
  exists row,
    lowest_empty b (Z.to_nat (c - 1)) row /\
    drop_piece b c piece
    = (board_set b row (Z.to_nat (c - 1)) piece, Return (true, Z.of_nat row)).
Proof.
  intros Hwf Hvalid Hc.
  destruct (get_valid_columns_sound b l c Hvalid Hc) as [Hrange Htop].
  apply drop_piece_places; [assumption | assumption |].
  exists 0. split; [unfold ROWS; lia | assumption].
Qed.

Lemma valid_loop_complete (b : grid) (cols : list nat) :
  wf_board b -> (forall col_idx, In col_idx cols -> col_idx < COLS) ->
  forall valid : list Z,
    exists l, valid_loop b cols valid = Return l /\
      (forall c, c ∈ valid -> c ∈ l) /\
      (forall col_idx, In col_idx cols -> cell_of b 0 col_idx = Some "." ->
         (Z.of_nat col_idx + 1)%Z ∈ l).
Proof.
  intros Hwf. induction cols as [|col cols IH]; intros Hcols valid; simpl.
  - exists valid. split; [reflexivity|]. split; [auto|]. intros c [].
  - destruct (wf_cell_of b 0 col Hwf) as [x Hx];
      [unfold ROWS; lia | apply Hcols; left; reflexivity |].
    pose proof Hx as Hget. apply board_get_cell_of in Hget. rewrite Hget. simpl.
    destruct (IH (fun c Hc => Hcols c (or_intror Hc))
                (if String.eqb x "." then (valid ++ [(Z.of_nat col + 1)%Z])%list else valid))
      as (l & Hloop & Hacc & Hnew).
    exists l. split; [assumption|]. split.
    + intros c Hc. apply Hacc. destruct (String.eqb x "."); [|assumption].
      apply elem_of_app. left. assumption.
    + intros c [<- | Hc] Hcell; [|apply Hnew; assumption].
      apply Hacc. rewrite Hx in Hcell. inversion Hcell; subst x. simpl.
      apply elem_of_app. right. apply list_elem_of_here.
Qed.

Lemma full_loop_false (b : grid) (cols : list nat) :
  full_loop b cols = Return false ->
  exists col_idx, In col_idx cols /\ cell_of b 0 col_idx = Some ".".
Proof.
  induction cols as [|col cols IH]; simpl; [discriminate|].
  destruct (board_get b 0 col) as [x|e] eqn:Hget; [|discriminate]. simpl.
  apply board_get_cell_of in Hget.
  destruct (String.eqb x ".") eqn:Hx; simpl.
  - apply String.eqb_eq in Hx. subst x. intros _. exists col.
    split; [left; reflexivity | assumption].
  - intros Hrest. destruct (IH Hrest) as (c & Hc & Hcell).
    exists c. split; [right; assumption | assumption].
Qed.

(** A 6x7 board that is not full has a valid column. *)
Lemma not_full_has_valid_column (b : grid) :
  wf_board b -> is_board_full b = Return false ->
  exists first_valid rest, get_valid_columns b = Return (first_valid :: rest).
Proof.
  intros Hwf Hfull.
  destruct (full_loop_false b _ Hfull) as (col & Hcol & Hcell).
  destruct (valid_loop_complete b (seq 0 COLS) Hwf
              ltac:(intros c Hc%in_seq; lia) [])
    as (l & Hloop & _ & Hnew).
  specialize (Hnew col Hcol Hcell). unfold get_valid_columns. rewrite Hloop.
  destruct l as [|c l]; [apply elem_of_nil in Hnew; contradiction | eauto].
Qed.

Lemma empty_board_valid_columns :
  get_valid_columns create_empty_board = Return [1; 2; 3; 4; 5; 6; 7]%Z.
Proof. reflexivity. Qed.

(** Whatever [drop_piece] does, a 6x7 board stays 6x7. *)
Lemma drop_piece_wf (b b' : grid) (col : Z) (piece : string) (o : outcome (bool * Z)) :
  wf_board b -> drop_piece b col piece = (b', o) ->
  wf_board b' /\ ((forall z, o <> Return (true, z)) -> b' = b).
Proof.
  intros Hwf Hdrop.
  destruct (Z_lt_le_dec col 1) as [Hlo|Hlo];
    [rewrite drop_piece_out_of_range in Hdrop by lia; inversion Hdrop; subst; split; auto|].
  destruct (Z_lt_le_dec 7 col) as [Hhi|Hhi];
    [rewrite drop_piece_out_of_range in Hdrop by lia; inversion Hdrop; subst; split; auto|].
  rewrite drop_piece_in_range in Hdrop by lia.
  pose proof (drop_scan_spec b (Z.to_nat (col - 1)) piece ROWS) as Hspec.
  rewrite Hdrop in Hspec. destruct o as [[[|] z]|e].
  - destruct Hspec as (row & _ & _ & _ & -> & _).
    split; [apply wf_board_set; assumption|]. intros Hne. destruct (Hne z eq_refl).
  - destruct Hspec as (_ & -> & _). auto.
  - destruct Hspec as (_ & -> & _). auto.
Qed.

(** *** More on the engine: valid columns, fullness, counting *)

Lemma valid_loop_filter (b : grid) (cols : list nat) :
  wf_board b -> (forall col_idx, In col_idx cols -> col_idx < COLS) ->
  forall valid : list Z,
    valid_loop b cols valid
    = Return (valid ++ map (fun col_idx => (Z.of_nat col_idx + 1)%Z)
                         (List.filter (top_empty b) cols))%list.
Proof.
  intros Hwf. induction cols as [|col cols IH]; intros Hcols valid; simpl.
  - rewrite app_nil_r. reflexivity.
  - destruct (wf_cell_of b 0 col Hwf) as [x Hx];
      [unfold ROWS; lia | apply Hcols; left; reflexivity |].
    pose proof Hx as Hget. apply board_get_cell_of in Hget. rewrite Hget. simpl.
    rewrite IH by (intros c Hc; apply Hcols; right; assumption).
    unfold top_empty at 2. rewrite Hx.
    destruct (String.eqb x "."); simpl; [rewrite <- app_assoc|]; reflexivity.
Qed.

Lemma get_valid_columns_open (b : grid) :
  wf_board b -> get_valid_columns b = Return (open_columns b).
Proof.
  intros Hwf. unfold get_valid_columns, open_columns.
  rewrite valid_loop_filter; [reflexivity | assumption |].
  intros c Hc%in_seq. lia.
Qed.

Lemma open_columns_sorted (P : nat -> bool) (n : nat) :
  forall start,
    StronglySorted Z.lt
      (map (fun col_idx => (Z.of_nat col_idx + 1)%Z) (List.filter P (seq start n))) /\
    Forall (fun c => (Z.of_nat start < c)%Z)
      (map (fun col_idx => (Z.of_nat col_idx + 1)%Z) (List.filter P (seq start n))).
Proof.
  induction n as [|n IH]; intros start; simpl.
  - split; constructor.
  - destruct (IH (S start)) as [Hsorted Hall].
    assert (Forall (fun c => (Z.of_nat start < c)%Z)
              (map (fun col_idx => (Z.of_nat col_idx + 1)%Z)
                 (List.filter P (seq (S start) n)))) as Hall'.
    { eapply Forall_impl; [exact Hall|]. simpl. intros c Hc. lia. }
    destruct (P start); simpl; [|split; assumption].
    split.
    + constructor; [assumption|].
      eapply Forall_impl; [exact Hall|]. simpl. intros c Hc. lia.
    + constructor; [lia | assumption].
Qed.

Lemma elem_of_open_columns (b : grid) (c : Z) :
  c ∈ open_columns b <->
  (1 <= c <= 7)%Z /\ cell_of b 0 (Z.to_nat (c - 1)) = Some ".".
Proof.
  unfold open_columns. rewrite list_elem_of_In, in_map_iff. split.
  - intros (col & <- & Hin). apply filter_In in Hin as [Hseq Htop].
    apply in_seq in Hseq. unfold COLS in Hseq. split; [lia|].
    replace (Z.to_nat (Z.of_nat col + 1 - 1)) with col by lia.
    unfold top_empty in Htop. destruct (cell_of b 0 col) as [x|]; [|discriminate].
    apply String.eqb_eq in Htop. congruence.
  - intros [Hrange Hcell]. exists (Z.to_nat (c - 1)). split; [lia|].
    apply filter_In. split; [apply in_seq; unfold COLS; lia|].
    unfold top_empty. rewrite Hcell. reflexivity.
Qed.

(** X1. On a 6x7 board [get_valid_columns] returns exactly the columns of
    [1,7] whose top cell is empty, in ascending order and without
    repetition. *)
Theorem get_valid_columns_exact (b : grid) :
  wf_board b ->
  exists l, get_valid_columns b = Return l /\
    (forall c, c ∈ l <->
       (1 <= c <= 7)%Z /\ cell_of b 0 (Z.to_nat (c - 1)) = Some ".") /\
    StronglySorted Z.lt l.
Proof.
  intros Hwf. exists (open_columns b).
  split; [apply get_valid_columns_open; assumption|].
  split; [apply elem_of_open_columns|].
  apply (open_columns_sorted (top_empty b) COLS 0).
Qed.

Lemma get_valid_columns_exact_witness :
  exists l, get_valid_columns full_first_column = Return l /\
    (forall c, c ∈ l <->
       (1 <= c <= 7)%Z /\ cell_of full_first_column 0 (Z.to_nat (c - 1)) = Some ".") /\
    StronglySorted Z.lt l.
Proof.
  apply (get_valid_columns_exact full_first_column). apply wf_sample_boards.
Defined.

Lemma full_loop_forallb (b : grid) (cols : list nat) :
  wf_board b -> (forall col_idx, In col_idx cols -> col_idx < COLS) ->
  full_loop b cols = Return (forallb (fun col_idx => negb (top_empty b col_idx)) cols).
Proof.
  intros Hwf. induction cols as [|col cols IH]; intros Hcols; simpl; [reflexivity|].
  destruct (wf_cell_of b 0 col Hwf) as [x Hx];
    [unfold ROWS; lia | apply Hcols; left; reflexivity |].
  pose proof Hx as Hget. apply board_get_cell_of in Hget. rewrite Hget. simpl.
  unfold top_empty at 1. rewrite Hx.
  destruct (String.eqb x "."); simpl; [reflexivity|].
  apply IH. intros c Hc. apply Hcols. right. assumption.
Qed.

Lemma filter_nil_forallb {A : Type} (P : A -> bool) (l : list A) :
  List.filter P l = [] <-> forallb (fun x => negb (P x)) l = true.
Proof.
  induction l as [|x l IH]; simpl; [tauto|].
  destruct (P x); simpl; [split; discriminate | exact IH].
Qed.

(** X2. On a 6x7 board [is_board_full] answers [True] exactly when
    [get_valid_columns] returns the empty list, that is when the top cell
    of each of the seven columns is occupied. *)
Theorem is_board_full_iff_no_valid_column (b : grid) :
  wf_board b ->
  (is_board_full b = Return true <-> get_valid_columns b = Return []) /\
  (is_board_full b = Return true <->
   forall col_idx, col_idx < COLS ->
     exists x, cell_of b 0 col_idx = Some x /\ occupied x).
Proof.
  intros Hwf. unfold is_board_full.
  rewrite full_loop_forallb by (try assumption; intros c Hc%in_seq; lia).
  rewrite get_valid_columns_open by assumption.
  assert (forallb (fun col_idx => negb (top_empty b col_idx)) (seq 0 COLS) = true <->
          forall col_idx, col_idx < COLS ->
            exists x, cell_of b 0 col_idx = Some x /\ occupied x) as Hall.
  { rewrite forallb_forall. split.
    - intros H col Hcol. specialize (H col ltac:(apply in_seq; lia)).
      destruct (wf_cell_of b 0 col Hwf) as [x Hx]; [unfold ROWS; lia | assumption |].
      exists x. split; [assumption|]. unfold top_empty in H. rewrite Hx in H.
      intros ->. discriminate.
    - intros H col Hcol%in_seq. destruct (H col ltac:(lia)) as (x & Hx & Hocc).
      unfold top_empty. rewrite Hx. apply negb_true_iff, String.eqb_neq. exact Hocc. }
  pose proof (filter_nil_forallb (top_empty b) (seq 0 COLS)) as Hnil.
  unfold open_columns.
  remember (forallb (fun col_idx => negb (top_empty b col_idx)) (seq 0 COLS)) as fb.
  remember (List.filter (top_empty b) (seq 0 COLS)) as open.
  clear Heqfb Heqopen. split.
  - split.
    + intros H. inversion H; subst fb. rewrite (proj2 Hnil eq_refl). reflexivity.
    + intros H. inversion H as [Hmap]. apply map_eq_nil in Hmap.
      rewrite (proj1 Hnil Hmap). reflexivity.
  - rewrite <- Hall. split; [intros H; inversion H; reflexivity | intros ->; reflexivity].
Qed.

Lemma is_board_full_iff_no_valid_column_witness :
  is_board_full full_first_column = Return true <->
  get_valid_columns full_first_column = Return [].
Proof.
  apply (is_board_full_iff_no_valid_column full_first_column). apply wf_sample_boards.
Defined.

Lemma top_occupied_column_full (b : grid) (col_idx : nat) (x : string) :
  no_floating b -> cell_of b 0 col_idx = Some x -> occupied x ->
  column_full b col_idx.
Proof.
  intros Hinv Htop Hocc row Hrow. destruct row as [|row].
  - exists x. split; assumption.
  - apply (Hinv 0 col_idx x Htop Hocc). lia.
Qed.

(** X3. On a 6x7 board without floating piece the valid columns are exactly
    the columns that take a piece: [drop_piece] succeeds in every column
    [get_valid_columns] lists, and in every other column, in or out of
    range, it returns [(False, -1)] and leaves the board alone. *)
Theorem drop_piece_succeeds_iff_valid (b : grid) (col : Z) (piece : string) :
  wf_board b -> no_floating b ->
  exists l, get_valid_columns b = Return l /\
    (col ∈ l ->
     exists row,
       lowest_empty b (Z.to_nat (col - 1)) row /\
       drop_piece b col piece
       = (board_set b row (Z.to_nat (col - 1)) piece, Return (true, Z.of_nat row))) /\
    (col ∉ l -> drop_piece b col piece = (b, Return (false, (-1)%Z))).
Proof.
  intros Hwf Hinv. exists (open_columns b).
  pose proof (get_valid_columns_open b Hwf) as Hvalid.
  split; [assumption|]. split.
  - intros Hin. eapply drop_piece_valid_column; eauto.
  - intros Hnotin.
    destruct (Z_lt_le_dec col 1) as [Hlo|Hlo]; [apply drop_piece_out_of_range; lia|].
    destruct (Z_lt_le_dec 7 col) as [Hhi|Hhi]; [apply drop_piece_out_of_range; lia|].
    apply drop_piece_full; [lia|].
    destruct (wf_cell_of b 0 (Z.to_nat (col - 1)) Hwf) as [x Hx];
      [unfold ROWS; lia | unfold COLS; lia |].
    apply (top_occupied_column_full b _ x Hinv Hx).
    intros ->. apply Hnotin. apply elem_of_open_columns. split; [lia | assumption].
Qed.

Lemma no_floating_full_first_column : no_floating full_first_column.
Proof.
  intros row col x Hx Hocc row' Hrow'. unfold ROWS in Hrow'.
  destruct col as [|col].
  - do 6 (destruct row' as [|row']; [eexists; split; [reflexivity | discriminate]|]).
    lia.
  - exfalso. apply Hocc.
    do 6 (destruct row as [|row];
          [do 6 (destruct col as [|col]; [inversion Hx; reflexivity|]);
           discriminate|]).
    discriminate.
Qed.

Lemma drop_piece_succeeds_iff_valid_witness :
  exists l, get_valid_columns full_first_column = Return l /\
    (1%Z ∉ l ->
     drop_piece full_first_column 1 "R" = (full_first_column, Return (false, (-1)%Z))).
Proof.
  destruct (drop_piece_succeeds_iff_valid full_first_column 1 "R")
    as (l & Hvalid & _ & Hfail).
  - apply wf_sample_boards.
  - apply no_floating_full_first_column.
  - exists l. split; assumption.
Defined.

(** Without the bottom-up invariant the two can differ: column 1 of this
    board is not valid, yet a piece dropped there lands. *)
Example drop_piece_under_floating_piece :
  get_valid_columns floating_board = Return [2; 3; 4; 5; 6; 7]%Z /\
  snd (drop_piece floating_board 1 "Y") = Return (true, 5%Z).
Proof. split; reflexivity. Qed.



(** *** Counting the pieces *)

Lemma count_row_insert (r : list string) (col_idx : nat) (piece : string) :
  r !! col_idx = Some "." -> piece <> "." ->
  count_row (<[col_idx := piece]> r) = S (count_row r).
Proof.
  revert col_idx. induction r as [|x r IH]; intros [|c] Hcell Hpiece; simpl in *;
    try discriminate.
  - inversion Hcell; subst x. simpl.
    apply String.eqb_neq in Hpiece. rewrite Hpiece. reflexivity.
  - rewrite (IH c Hcell Hpiece). lia.
Qed.

Lemma count_occupied_insert (b : grid) (row col_idx : nat) (r : list string)
    (piece : string) :
  b !! row = Some r -> r !! col_idx = Some "." -> piece <> "." ->
  count_occupied (<[row := <[col_idx := piece]> r]> b) = S (count_occupied b).
Proof.
  revert row. induction b as [|r0 b IH]; intros [|row] Hrow Hcell Hpiece;
    simpl in *; try discriminate.
  - inversion Hrow; subst r0.
    rewrite (count_row_insert r col_idx piece Hcell Hpiece). reflexivity.
  - rewrite (IH row Hrow Hcell Hpiece). lia.
Qed.

Lemma count_occupied_board_set (b : grid) (row col_idx : nat) (piece : string) :
  cell_of b row col_idx = Some "." -> piece <> "." ->
  count_occupied (board_set b row col_idx piece) = S (count_occupied b).
Proof.
  unfold cell_of, board_set.
  destruct (b !! row) as [r|] eqn:Hrow; [|discriminate].
  intros Hcell Hpiece. eapply count_occupied_insert; eauto.
Qed.

Lemma count_row_le (r : list string) : count_row r <= length r.
Proof.
  induction r as [|x r IH]; simpl; [lia|]. destruct (String.eqb x "."); lia.
Qed.

Lemma count_occupied_le (b : grid) :
  Forall (fun r => length r = COLS) b -> count_occupied b <= length b * COLS.
Proof.
  induction 1 as [|r b Hr _ IH]; [simpl; lia|].
  pose proof (count_row_le r). unfold COLS in *.
  cbn [count_occupied length]. lia.
Qed.

Lemma count_occupied_empty_board : count_occupied create_empty_board = 0.
Proof. reflexivity. Qed.

(** X5. A successful [drop_piece] of a piece other than ['.'] adds exactly
    one occupied cell, whatever the board; a failed one adds none; and a
    6x7 board never holds more than 42. *)
Theorem drop_piece_adds_one_piece (b b' : grid) (col : Z) (piece : string)
    (o : outcome (bool * Z)) :
  piece <> "." ->
  drop_piece b col piece = (b', o) ->
  (forall z, o = Return (true, z) -> count_occupied b' = S (count_occupied b)) /\
  ((forall z, o <> Return (true, z)) -> count_occupied b' = count_occupied b) /\
  (wf_board b -> count_occupied b' <= 42).
Proof.
  intros Hpiece Hdrop. split; [|split].
  - intros z ->.
    destruct (Z_lt_le_dec col 1) as [Hlo|Hlo];
      [rewrite drop_piece_out_of_range in Hdrop by lia; discriminate|].
    destruct (Z_lt_le_dec 7 col) as [Hhi|Hhi];
      [rewrite drop_piece_out_of_range in Hdrop by lia; discriminate|].
    rewrite drop_piece_in_range in Hdrop by lia.
    pose proof (drop_scan_spec b (Z.to_nat (col - 1)) piece ROWS) as Hspec.
    rewrite Hdrop in Hspec. destruct Hspec as (row & _ & _ & Hempty & -> & _).
    apply count_occupied_board_set; assumption.
  - intros Hfail.
    destruct (Z_lt_le_dec col 1) as [Hlo|Hlo];
      [rewrite drop_piece_out_of_range in Hdrop by lia; inversion Hdrop; reflexivity|].
    destruct (Z_lt_le_dec 7 col) as [Hhi|Hhi];
      [rewrite drop_piece_out_of_range in Hdrop by lia; inversion Hdrop; reflexivity|].
    rewrite drop_piece_in_range in Hdrop by lia.
    pose proof (drop_scan_spec b (Z.to_nat (col - 1)) piece ROWS) as Hspec.
    rewrite Hdrop in Hspec. destruct o as [[[|] z]|e].
    + destruct (Hfail z eq_refl).
    + destruct Hspec as (_ & -> & _). reflexivity.
    + destruct Hspec as (_ & -> & _). reflexivity.
  - intros Hwf. destruct (drop_piece_wf b b' col piece o Hwf Hdrop) as [[Hlen Hrows] _].
    pose proof (count_occupied_le b' Hrows) as Hle.
    rewrite Hlen in Hle. unfold ROWS, COLS in Hle. lia.
Qed.

Lemma drop_piece_adds_one_piece_witness :
  count_occupied (fst (drop_piece red_bottom_row 4 "Y")) = 5.
Proof.
  destruct (drop_piece_adds_one_piece red_bottom_row
              (fst (drop_piece red_bottom_row 4 "Y")) 4 "Y"
              (snd (drop_piece red_bottom_row 4 "Y")))
    as (Hone & _ & _); [discriminate | reflexivity |].
  apply (Hone 4%Z). reflexivity.
Defined.

(** A placement cannot complete a line of another piece. *)
Lemma cell_at_board_set_other (b : grid) (row col_idx : nat) (piece q : string)
    (zr zc : Z) :
  cell_of b row col_idx = Some "." -> q <> piece ->
  cell_at (board_set b row col_idx piece) zr zc = Some q ->
  cell_at b zr zc = Some q.
Proof.
  intros Hempty Hne. unfold cell_at.
  destruct ((0 <=? zr)%Z && (0 <=? zc)%Z); [|discriminate].
  destruct (decide ((Z.to_nat zr, Z.to_nat zc) = (row, col_idx))) as [Heq|Hneq].
  - inversion Heq; subst. rewrite (cell_of_board_set_eq _ _ _ _ _ Hempty).
    intros H. inversion H. congruence.
  - rewrite cell_of_board_set_ne by assumption. auto.
Qed.

Lemma has_four_board_set_other (b : grid) (row col_idx : nat) (piece q : string) :
  cell_of b row col_idx = Some "." -> q <> piece ->
  has_four (board_set b row col_idx piece) q -> has_four b q.
Proof.
  intros Hempty Hne (zr & zc & d & Hrun). exists zr, zc, d.
  intros k Hk. eapply cell_at_board_set_other; eauto.
Qed.

Lemma winner_is_iff (b : grid) (piece : string) :
  wf_board b -> (winner_is b piece = true <-> has_four b piece).
Proof.
  intros Hwf. split; [apply winner_is_has_four | apply has_four_winner_is; assumption].
Qed.

Lemma no_four_empty_board (piece : string) : piece <> "." -> ~ has_four create_empty_board piece.
Proof.
  intros Hne (zr & zc & d & Hrun).
  specialize (Hrun 0%Z ltac:(lia)). unfold cell_at in Hrun.
  destruct ((0 <=? _)%Z && (0 <=? _)%Z); [|discriminate].
  apply cell_of_empty_board in Hrun. congruence.
Qed.

End BoardFacts.

(** * Properties of the retry loop *)

Module RetryFacts.
Import Retry.

Section Call.

Variable strip : string -> string.
Variable parse_column : string -> outcome Z.
Variable api : nat -> outcome (list block).

Lemma exhausted_message_text :
  exhausted_message = "No text response from Claude model after 3 attempts.".
Proof. reflexivity. Qed.

(** One turn of the loop on an empty answer that is not the last attempt:
    sleep, then go on with the next attempt. *)
Lemma retry_loop_empty (use_thinking : bool) (attempt : nat) (rest : list nat)
    (slept : list Z) (content : list block) :
  api attempt = Return content ->
  empty_answer strip content ->
  attempt < MAX_RETRIES - 1 ->
  retry_loop strip parse_column api use_thinking (attempt :: rest) slept
  = retry_loop strip parse_column api use_thinking rest
      (slept ++ [(RETRY_DELAY_BASE * 2 ^ Z.of_nat attempt)%Z]).
Proof.
  intros Hapi Hempty Hlt. simpl. rewrite Hapi. unfold empty_answer in Hempty.
  rewrite Hempty. simpl.
  unfold MAX_RETRIES in Hlt. simpl in Hlt.
  destruct (Nat.ltb_spec attempt 2); [reflexivity | lia].
Qed.

Lemma retry_loop_last_empty (use_thinking : bool) (attempt : nat) (rest : list nat)
    (slept : list Z) (content : list block) :
  api attempt = Return content ->
  empty_answer strip content ->
  MAX_RETRIES - 1 <= attempt ->
  retry_loop strip parse_column api use_thinking (attempt :: rest) slept
  = (slept, Raise (RuntimeError exhausted_message)).
Proof.
  intros Hapi Hempty Hge. simpl. rewrite Hapi. unfold empty_answer in Hempty.
  rewrite Hempty. simpl.
  unfold MAX_RETRIES in Hge. simpl in Hge.
  destruct (Nat.ltb_spec attempt 2); [lia | reflexivity].
Qed.

Lemma retry_loop_answer (use_thinking : bool) (attempt : nat) (rest : list nat)
    (slept : list Z) (content : list block) (column : Z) :
  api attempt = Return content ->
  ~ empty_answer strip content ->
  parse_column (json_text strip content) = Return column ->
  retry_loop strip parse_column api use_thinking (attempt :: rest) slept
  = (slept,
     Return (column, if use_thinking then thinking_summary strip content else None)).
Proof.
  intros Hapi Hanswer Hparse. simpl. rewrite Hapi. unfold empty_answer in Hanswer.
  destruct (String.eqb (strip (json_text strip content)) "") eqn:Hcmp.
  - apply String.eqb_eq in Hcmp. contradiction.
  - rewrite Hparse. reflexivity.
Qed.

(** The delays slept are always the first delays of 1s, 2s. *)
Lemma retry_loop_sleeps (use_thinking : bool) :
  forall slept result,
    call_claude_move_with_thinking_flag strip parse_column api use_thinking
    = (slept, result) ->
    slept = [] \/ slept = [1%Z] \/ slept = [1%Z; 2%Z].
Proof.
  unfold call_claude_move_with_thinking_flag. simpl.
  intros slept result.
  destruct (api 0) as [c0|e0]; [|intros H; inversion H; auto].
  destruct (String.eqb (strip (json_text strip c0)) "");
    [|destruct (parse_column _); intros H; inversion H; auto].
  simpl.
  destruct (api 1) as [c1|e1]; [|intros H; inversion H; auto].
  destruct (String.eqb (strip (json_text strip c1)) "");
    [|destruct (parse_column _); intros H; inversion H; auto].
  simpl.
  destruct (api 2) as [c2|e2]; [|intros H; inversion H; auto].
  destruct (String.eqb (strip (json_text strip c2)) "");
    [|destruct (parse_column _); intros H; inversion H; auto].
  simpl. intros H; inversion H; auto.
Qed.

(** A sleep follows exactly an empty answer of the first or of the second
    attempt: 1s is slept when, and only when, the first answer is empty, and
    2s when, and only when, the first two are. *)
Lemma retry_loop_sleeps_exact (use_thinking : bool) :
  forall slept result,
    call_claude_move_with_thinking_flag strip parse_column api use_thinking
    = (slept, result) ->
    (In 1%Z slept <-> attempt_empty strip api 0) /\
    (In 2%Z slept <-> attempt_empty strip api 0 /\ attempt_empty strip api 1).
Proof.
  unfold call_claude_move_with_thinking_flag, attempt_empty, empty_answer. simpl.
  intros slept result.
  destruct (api 0) as [c0|e0] eqn:H0.
  2: { intros H; inversion H; subst. split; split.
       - intros [].
       - intros (c & Hc & _); discriminate.
       - intros [].
       - intros [(c & Hc & _) _]; discriminate. }
  destruct (String.eqb (strip (json_text strip c0)) "") eqn:E0.
  2: { apply String.eqb_neq in E0.
       intros H.
       assert (slept = []) as ->
         by (destruct (parse_column (json_text strip c0)); inversion H; reflexivity).
       split; split.
       - intros [].
       - intros (c & Hc & Hempty). congruence.
       - intros [].
       - intros [(c & Hc & Hempty) _]. congruence. }
  apply String.eqb_eq in E0. simpl.
  destruct (api 1) as [c1|e1] eqn:H1.
  2: { intros H; inversion H; subst. split; split.
       - intros _. eauto.
       - intros _. left. reflexivity.
       - intros [Hin | []]. discriminate.
       - intros [_ (c & Hc & _)]; discriminate. }
  destruct (String.eqb (strip (json_text strip c1)) "") eqn:E1.
  2: { apply String.eqb_neq in E1.
       intros H.
       assert (slept = [1%Z]) as ->
         by (destruct (parse_column (json_text strip c1)); inversion H; reflexivity).
       split; split.
       - intros _. eauto.
       - intros _. left. reflexivity.
       - intros [Hin | []]. discriminate.
       - intros [_ (c & Hc & Hempty)]. congruence. }
  apply String.eqb_eq in E1. simpl.
  intros H.
  assert (slept = [1%Z; 2%Z]) as ->.
  { destruct (api 2) as [c2|e2]; [|inversion H; reflexivity].
    destruct (String.eqb (strip (json_text strip c2)) "");
      [|destruct (parse_column (json_text strip c2))]; inversion H; reflexivity. }
  split; split.
  - intros _. eauto.
  - intros _. left. reflexivity.
  - intros _. split; eauto.
  - intros _. right. left. reflexivity.
Qed.

(** C5 (as the code has it). The call makes at most three attempts and
    sleeps only after an empty answer that is not the last attempt's: the
    delays slept are none, 1s, or 1s then 2s (base 1s times 2 to the attempt
    index), never more; 1s is slept exactly when the first answer is empty
    and 2s exactly when the first two are, so an answer that is not empty,
    or an exception of the API, is followed by no sleep. When the first two
    answers are empty and the third is not, the result of the third attempt
    is returned after sleeping 1s and 2s; when all three are empty the call
    raises the error whose message carries the attempt count 3, after the
    same two sleeps. *)
Theorem retry_three_attempts_two_sleeps (use_thinking : bool) :
  (forall slept result,
     call_claude_move_with_thinking_flag strip parse_column api use_thinking
     = (slept, result) ->
     (slept = [] \/ slept = [1%Z] \/ slept = [1%Z; 2%Z]) /\
     (In 1%Z slept <-> attempt_empty strip api 0) /\
     (In 2%Z slept <-> attempt_empty strip api 0 /\ attempt_empty strip api 1)) /\
  (forall c0 c1 c2 : list block,
     api 0 = Return c0 -> api 1 = Return c1 -> api 2 = Return c2 ->
     empty_answer strip c0 -> empty_answer strip c1 ->
     (forall column,
        ~ empty_answer strip c2 ->
        parse_column (json_text strip c2) = Return column ->
        call_claude_move_with_thinking_flag strip parse_column api use_thinking
        = ([1%Z; 2%Z],
           Return (column,
                   if use_thinking then thinking_summary strip c2 else None))) /\
     (empty_answer strip c2 ->
        call_claude_move_with_thinking_flag strip parse_column api use_thinking
        = ([1%Z; 2%Z],
           Raise (RuntimeError
                    "No text response from Claude model after 3 attempts.")))).
Proof.
  split.
  { intros slept result Hcall. split.
    - apply (retry_loop_sleeps use_thinking slept result Hcall).
    - apply (retry_loop_sleeps_exact use_thinking slept result Hcall). }
  intros c0 c1 c2 H0 H1 H2 E0 E1. unfold call_claude_move_with_thinking_flag.
  change (seq 0 MAX_RETRIES) with [0; 1; 2].
  rewrite (retry_loop_empty use_thinking 0 _ _ c0 H0 E0) by (unfold MAX_RETRIES; lia).
  rewrite (retry_loop_empty use_thinking 1 _ _ c1 H1 E1) by (unfold MAX_RETRIES; lia).
  split.
  - intros column Hanswer Hparse.
    rewrite (retry_loop_answer use_thinking 2 _ _ c2 column H2 Hanswer Hparse).
    reflexivity.
  - intros E2.
    rewrite (retry_loop_last_empty use_thinking 2 _ _ c2 H2 E2)
      by (unfold MAX_RETRIES; lia).
    reflexivity.
Qed.

End Call.

Lemma retry_three_attempts_two_sleeps_witness :
  call_claude_move_with_thinking_flag ascii_strip decode_column
    api_third_time_lucky true
  = ([1%Z; 2%Z], Return (4%Z, Some "centre column")) /\
  (forall slept result,
     call_claude_move_with_thinking_flag ascii_strip decode_column
       (fun _ => Return [text_block (move_json "4")]) true = (slept, result) ->
     ~ In 1%Z slept).
Proof.
  split.
  - apply (proj1 (proj2 (retry_three_attempts_two_sleeps ascii_strip decode_column
                           api_third_time_lucky true) _ _ _
                    eq_refl eq_refl eq_refl eq_refl eq_refl));
      [discriminate | reflexivity].
  - intros slept result Hcall Hin.
    destruct (proj1 (retry_three_attempts_two_sleeps ascii_strip decode_column
                       (fun _ => Return [text_block (move_json "4")]) true)
                slept result Hcall) as (_ & Hone & _).
    destruct (proj1 Hone Hin) as (content & Hcontent & Hempty).
    injection Hcontent as <-. discriminate Hempty.
Defined.

(** C5, the statement of the specification fails. With three empty answers
    the only delays are 1s and 2s, so no 4s delay is ever slept; and the
    error raised is the same whether the responses held a thinking block or
    no block at all, so it does not carry the observed segment types. *)
Lemma retry_no_third_delay_no_segment_types :
  fst (call_claude_move_with_thinking_flag ascii_strip decode_column
         api_thinking_only true) = [1%Z; 2%Z] /\
  ~ In 4%Z (fst (call_claude_move_with_thinking_flag ascii_strip decode_column
                   api_thinking_only true)) /\
  ~ exists segment_types : outcome (Z * option string) -> list (option string),
      segment_types
        (snd (call_claude_move_with_thinking_flag ascii_strip decode_column
                api_thinking_only true)) = [Some "thinking"] /\
      segment_types
        (snd (call_claude_move_with_thinking_flag ascii_strip decode_column
                api_no_blocks true)) = [].
Proof.
  split; [reflexivity|]. split.
  - simpl. intros [H | [H | []]]; discriminate.
  - intros (segment_types & Ha & Hb).
    change (snd (call_claude_move_with_thinking_flag ascii_strip decode_column
                   api_no_blocks true))
      with (snd (call_claude_move_with_thinking_flag ascii_strip decode_column
                   api_thinking_only true)) in Hb.
    congruence.
Qed.


(** *** More on the retry loop *)

Section Answers.

Variable strip : string -> string.
Variable parse_column : string -> outcome Z.

Local Abbreviation call := (call_claude_move_with_thinking_flag strip parse_column).

Lemma retry_loop_first_answer (api : nat -> outcome (list block)) (use_thinking : bool)
    (attempt : nat) (rest : list nat) (slept : list Z) (content : list block) :
  api attempt = Return content -> ~ empty_answer strip content ->
  retry_loop strip parse_column api use_thinking (attempt :: rest) slept
  = (slept, answer_of strip parse_column use_thinking content).
Proof.
  intros Hapi Hanswer. simpl. rewrite Hapi. unfold empty_answer in Hanswer.
  destruct (String.eqb (strip (json_text strip content)) "") eqn:Hcmp.
  - apply String.eqb_eq in Hcmp. contradiction.
  - unfold answer_of. destruct (parse_column _); reflexivity.
Qed.

Lemma retry_loop_api_error (api : nat -> outcome (list block)) (use_thinking : bool)
    (attempt : nat) (rest : list nat) (slept : list Z) (e : exn) :
  api attempt = Raise e ->
  retry_loop strip parse_column api use_thinking (attempt :: rest) slept
  = (slept, Raise e).
Proof. intros Hapi. simpl. rewrite Hapi. reflexivity. Qed.

Lemma retry_loop_ext (api api' : nat -> outcome (list block)) (use_thinking : bool)
    (attempts : list nat) :
  (forall n, In n attempts -> api n = api' n) ->
  forall slept,
    retry_loop strip parse_column api use_thinking attempts slept
    = retry_loop strip parse_column api' use_thinking attempts slept.
Proof.
  induction attempts as [|attempt rest IH]; intros Hext slept; simpl; [reflexivity|].
  rewrite <- (Hext attempt) by (left; reflexivity).
  destruct (api attempt) as [content|e]; [|reflexivity].
  destruct (String.eqb (strip (json_text strip content)) ""); [|reflexivity].
  destruct (attempt <? _)%nat; [|reflexivity].
  apply IH. intros n Hn. apply Hext. right. assumption.
Qed.

(** X17. Only an empty answer is retried. The first answer that is not
    empty ends the call at once, at the first, the second or the third
    attempt, with the sleeps made so far and no other: it is returned when
    it decodes, and when decoding raises that exception leaves the call; an
    exception of the API client leaves the call in the same way; three
    empty answers end it with the error of the exhausted retries. The call
    never looks at a fourth response. *)
Theorem retry_only_on_empty_answer (api : nat -> outcome (list block))
    (use_thinking : bool) :
  (forall c0, api 0 = Return c0 -> ~ empty_answer strip c0 ->
     call api use_thinking = ([], answer_of strip parse_column use_thinking c0)) /\
  (forall c0 c1, api 0 = Return c0 -> empty_answer strip c0 ->
     api 1 = Return c1 -> ~ empty_answer strip c1 ->
     call api use_thinking = ([1%Z], answer_of strip parse_column use_thinking c1)) /\
  (forall c0 c1 c2, api 0 = Return c0 -> empty_answer strip c0 ->
     api 1 = Return c1 -> empty_answer strip c1 ->
     api 2 = Return c2 -> ~ empty_answer strip c2 ->
     call api use_thinking
     = ([1%Z; 2%Z], answer_of strip parse_column use_thinking c2)) /\
  (forall c0 c1 c2, api 0 = Return c0 -> empty_answer strip c0 ->
     api 1 = Return c1 -> empty_answer strip c1 ->
     api 2 = Return c2 -> empty_answer strip c2 ->
     call api use_thinking
     = ([1%Z; 2%Z], Raise (RuntimeError exhausted_message))) /\
  (forall e, api 0 = Raise e -> call api use_thinking = ([], Raise e)) /\
  (forall c0 e, api 0 = Return c0 -> empty_answer strip c0 -> api 1 = Raise e ->
     call api use_thinking = ([1%Z], Raise e)) /\
  (forall c0 c1 e, api 0 = Return c0 -> empty_answer strip c0 ->
     api 1 = Return c1 -> empty_answer strip c1 -> api 2 = Raise e ->
     call api use_thinking = ([1%Z; 2%Z], Raise e)) /\
  (forall api', (forall n, n < MAX_RETRIES -> api n = api' n) ->
     call api use_thinking = call api' use_thinking).
Proof.
  unfold call_claude_move_with_thinking_flag.
  change (seq 0 MAX_RETRIES) with [0; 1; 2].
  split; [|split; [|split; [|split; [|split; [|split; [|split]]]]]].
  - intros c0 H0 A0. apply retry_loop_first_answer; assumption.
  - intros c0 c1 H0 E0 H1 A1.
    rewrite (retry_loop_empty strip parse_column api use_thinking 0 _ _ c0 H0 E0)
      by (unfold MAX_RETRIES; lia).
    apply retry_loop_first_answer; assumption.
  - intros c0 c1 c2 H0 E0 H1 E1 H2 A2.
    rewrite (retry_loop_empty strip parse_column api use_thinking 0 _ _ c0 H0 E0)
      by (unfold MAX_RETRIES; lia).
    rewrite (retry_loop_empty strip parse_column api use_thinking 1 _ _ c1 H1 E1)
      by (unfold MAX_RETRIES; lia).
    apply retry_loop_first_answer; assumption.
  - intros c0 c1 c2 H0 E0 H1 E1 H2 E2.
    rewrite (retry_loop_empty strip parse_column api use_thinking 0 _ _ c0 H0 E0)
      by (unfold MAX_RETRIES; lia).
    rewrite (retry_loop_empty strip parse_column api use_thinking 1 _ _ c1 H1 E1)
      by (unfold MAX_RETRIES; lia).
    apply (retry_loop_last_empty strip parse_column api use_thinking 2 _ _ c2 H2 E2).
    unfold MAX_RETRIES. lia.
  - intros e H0. apply retry_loop_api_error. assumption.
  - intros c0 e H0 E0 H1.
    rewrite (retry_loop_empty strip parse_column api use_thinking 0 _ _ c0 H0 E0)
      by (unfold MAX_RETRIES; lia).
    apply retry_loop_api_error. assumption.
  - intros c0 c1 e H0 E0 H1 E1 H2.
    rewrite (retry_loop_empty strip parse_column api use_thinking 0 _ _ c0 H0 E0)
      by (unfold MAX_RETRIES; lia).
    rewrite (retry_loop_empty strip parse_column api use_thinking 1 _ _ c1 H1 E1)
      by (unfold MAX_RETRIES; lia).
    apply retry_loop_api_error. assumption.
  - intros api' Hext. apply retry_loop_ext.
    intros n Hn. apply Hext. unfold MAX_RETRIES. simpl in Hn. lia.
Qed.

Lemma string_append_assoc (a b c : string) : a ++ (b ++ c) = (a ++ b) ++ c.
Proof.
  induction a as [|ch a IH]; [reflexivity|].
  change (String ch (a ++ (b ++ c)) = String ch ((a ++ b) ++ c)).
  f_equal. exact IH.
Qed.

Lemma json_text_app (c1 c2 : list block) :
  json_text strip (c1 ++ c2) = json_text strip c1 ++ json_text strip c2.
Proof.
  induction c1 as [|bl c1 IH]; simpl; [reflexivity|].
  destruct (type_is bl "text"); [|assumption].
  destruct (negb (String.eqb (strip (str_or_empty (block_text bl))) ""));
    [|assumption].
  rewrite IH. apply string_append_assoc.
Qed.

Lemma json_text_no_text (content : list block) :
  Forall (fun bl => type_is bl "text" = false \/
                    strip (str_or_empty (block_text bl)) = "") content ->
  json_text strip content = "".
Proof.
  induction 1 as [|bl content Hbl _ IH]; simpl; [reflexivity|].
  destruct (type_is bl "text"); [|assumption].
  destruct Hbl as [Hbl | Hbl]; [discriminate|].
  rewrite Hbl. simpl. assumption.
Qed.

(** X18. The answer text is the concatenation, in order, of the texts of
    the text blocks that are not blank; blocks of another type and blank
    text blocks contribute nothing. So a response made of thinking blocks
    only, or of no block at all, is an empty answer and is retried, given
    that stripping the empty text leaves it empty. *)
Theorem thinking_only_response_is_empty (content : list block) :
  strip "" = "" ->
  (forall c1 c2, json_text strip (c1 ++ c2) = json_text strip c1 ++ json_text strip c2) /\
  (Forall (fun bl => type_is bl "text" = false \/
                     strip (str_or_empty (block_text bl)) = "") content ->
   json_text strip content = "" /\ empty_answer strip content) /\
  (forall bl, type_is bl "text" = true ->
     strip (str_or_empty (block_text bl)) <> "" ->
     json_text strip [bl] = str_or_empty (block_text bl) ++ "").
Proof.
  intros Hstrip. split; [apply json_text_app|]. split.
  - intros Hall. pose proof (json_text_no_text content Hall) as Htext.
    split; [assumption|]. unfold empty_answer. rewrite Htext. assumption.
  - intros bl Htype Htext. simpl. rewrite Htype.
    apply String.eqb_neq in Htext. rewrite Htext. reflexivity.
Qed.

End Answers.

Lemma retry_only_on_empty_answer_witness :
  call_claude_move_with_thinking_flag ascii_strip decode_column
    (fun _ => Return [text_block (move_json "6")]) false
  = ([], Return (6%Z, None)) /\
  call_claude_move_with_thinking_flag ascii_strip decode_column
    api_third_time_malformed false
  = ([1%Z; 2%Z], Raise (OtherError "JSONDecodeError")).
Proof.
  split.
  - apply (proj1 (retry_only_on_empty_answer ascii_strip decode_column
                    (fun _ => Return [text_block (move_json "6")]) false)
             [text_block (move_json "6")] eq_refl).
    discriminate.
  - apply (proj1 (proj2 (proj2 (retry_only_on_empty_answer ascii_strip decode_column
                                  api_third_time_malformed false)))
             _ _ [text_block "column: 4"] eq_refl eq_refl eq_refl eq_refl eq_refl).
    discriminate.
Defined.

Lemma thinking_only_response_is_empty_witness :
  empty_answer ascii_strip [thinking_block "let me think"].
Proof.
  apply (thinking_only_response_is_empty ascii_strip
           [thinking_block "let me think"] eq_refl).
  repeat constructor.
Defined.

(** *** [call_claude_move] *)

Lemma uses_thinking_any_model (model : string) :
  claude_move_uses_thinking model = true.
Proof.
  unfold claude_move_uses_thinking.
  destruct (String.eqb model "claude-haiku-4-5-20251001") eqn:Hmodel; [|reflexivity].
  apply String.eqb_eq in Hmodel. subst model. reflexivity.
Qed.

Section CallMove.

Variable strip : string -> string.
Variable J : Type.
Variable json_loads : string -> option J.
Variable column_of : J -> outcome Z.
Variable repr_block_types : list block -> outcome string.
Variable decode_error : string -> string.
Variable api : nat -> outcome (list block).

Local Abbreviation parse := (parse_with J json_loads column_of decode_error).

Lemma move_loop_agrees (attempts : list nat) :
  forall slept,
    agree (move_loop strip J json_loads column_of repr_block_types api true attempts slept)
          (retry_loop strip parse api true attempts slept).
Proof.
  induction attempts as [|attempt rest IH]; intros slept; simpl.
  - split; [reflexivity | exact I].
  - destruct (api attempt) as [content|e]; [|split; [reflexivity | exact I]].
    destruct (String.eqb (strip (json_text strip content)) "").
    + destruct (attempt <? _)%nat; [apply IH|].
      destruct (repr_block_types content); split; try reflexivity; exact I.
    + unfold agree, decode_answer, parse_with.
      destruct (json_loads (json_text strip content)) as [data|];
        [|split; [reflexivity | exact I]].
      destruct (column_of data); split; try reflexivity; exact I.
Qed.

(** X19. The test at the head of [call_claude_move] is true for every
    model name: a name other than "claude-haiku-4-5-20251001" makes its
    first half true, and that name does not contain "standard". The call
    therefore always takes the thinking branch, its branch for standard
    models is never run, and its result does not depend on the model name
    beyond what the API answers. *)
Theorem call_claude_move_always_thinks (model : string) :
  claude_move_uses_thinking model = true /\
  call_claude_move strip J json_loads column_of repr_block_types api model
  = move_loop strip J json_loads column_of repr_block_types api true
      (seq 0 MAX_RETRIES) [] /\
  forall model',
    call_claude_move strip J json_loads column_of repr_block_types api model
    = call_claude_move strip J json_loads column_of repr_block_types api model'.
Proof.
  split; [apply uses_thinking_any_model|].
  unfold call_claude_move. split; [|intros model'];
    rewrite !uses_thinking_any_model; reflexivity.
Qed.


End CallMove.
End RetryFacts.

(** * Properties of the GPT move call *)

Module OpenAIFacts.
Import OpenAI.

(** X21. The reasoning text comes from the first item of type "reasoning"
    and from it alone: whatever follows that item is not read, so when its
    summary has no text the result is [None] even if a later reasoning item
    has one; and without any reasoning item the result is [None]. *)
Theorem reasoning_from_first_reasoning_item (before after : list output_item)
    (item : output_item) :
  Forall (fun i => is_reasoning i = false) before ->
  (is_reasoning item = true ->
   reasoning_summary (before ++ item :: after) = item_reasoning item) /\
  reasoning_summary before = None.
Proof.
  induction 1 as [|i before Hi _ IH]; simpl.
  - split; [intros ->; reflexivity | reflexivity].
  - rewrite Hi. exact IH.
Qed.

Lemma reasoning_from_first_reasoning_item_witness :
  reasoning_summary silent_then_spoken = None.
Proof.
  apply (proj1 (reasoning_from_first_reasoning_item
                  [OutputItem (Some "message") None]
                  [OutputItem (Some "reasoning")
                     (Some [SummaryPart (Some "block the left")])]
                  (OutputItem (Some "reasoning")
                     (Some [SummaryPart None; SummaryPart (Some "")]))
                  ltac:(repeat constructor))).
  reflexivity.
Defined.

Section Call.

Variable api : gpt_request -> outcome gpt_response.


End Call.


End OpenAIFacts.

(** * Properties of the game session and of the series controller *)

Module GameFacts.
Import Board Game BoardFacts.

Section Session.

Variable Time : Type.
Variable zero_time : Time.
Variable add_time : Time -> Time -> Time.
Variable round2 : Time -> Time.

Local Abbreviation state := (state Time).
Local Abbreviation tick_env := (tick_env Time).
Local Abbreviation next_move := (next_move add_time round2).
Local Abbreviation next_game := (next_game zero_time).

Lemma record_move_response (s : state) (current : player) (piece : string)
    (column row : Z) (now : string) (G' : option state) (r : response Time) :
  record_move s current piece column row now = (G', Return r) ->
  exists s', G' = Some s' /\
    r = MoveResponse current column row (get_client_state s') /\
    recorded s s' current column row.
Proof.
  unfold record_move. simpl.
  destruct (check_winner (board s) piece) as [[|]|e].
  - destruct current; intros H; inversion H; subst; clear H;
      eexists; (split; [reflexivity|]); (split; [reflexivity|]);
      repeat split.
  - destruct (is_board_full (board s)) as [[|]|e];
      intros H; inversion H; subst; clear H;
      eexists; (split; [reflexivity|]); (split; [reflexivity|]);
      repeat split.
  - intros H; inversion H.
Qed.

(** On a 6x7 board [record_move] always answers with the move. *)
Lemma record_move_total (s : state) (current : player) (piece : string)
    (column row : Z) (now : string) :
  wf_board (board s) ->
  exists s', record_move s current piece column row now
             = (Some s', Return (MoveResponse current column row (get_client_state s'))) /\
    recorded s s' current column row.
Proof.
  intros Hwf.
  destruct (record_move s current piece column row now) as [G' [r|e]] eqn:Hrec.
  - destruct (record_move_response _ _ _ _ _ _ _ _ Hrec) as (s' & -> & -> & Hs').
    exists s'. split; [reflexivity | assumption].
  - exfalso. revert Hrec. unfold record_move. simpl.
    rewrite (check_winner_pure _ _ Hwf).
    destruct (is_board_full_total _ Hwf) as [v Hv]. rewrite Hv.
    destruct (winner_is (board s) piece); [intros H; inversion H|].
    destruct v; intros H; inversion H.
Qed.


Lemma play_column_response (s : state) (current : player) (piece : string)
    (valid_cols : list Z) (first_valid column : Z) (now : string)
    (G' : option state) (p : player) (c r : Z) (cs : client_state Time) :
  play_column s current piece valid_cols first_valid column now
  = (G', Return (MoveResponse p c r cs)) ->
  exists s', G' = Some s' /\ p = current /\
    c = (if bool_decide (column ∈ valid_cols) then column else first_valid) /\
    cs = get_client_state s' /\
    drop_piece (board s) c piece = (board s', Return (true, r)) /\
    (move_history s' = move_history s ++ [(current, c)])%list /\
    last_move s' = Some (MoveRecord c r current) /\
    turn_count s' = turn_count s /\
    last_time_of s' current = last_time_of s current.
Proof.
  unfold play_column.
  set (c' := if bool_decide (column ∈ valid_cols) then column else first_valid).
  destruct (drop_piece (board s) c' piece) as [b' [[[|] row]|e]] eqn:Hdrop; simpl.
  - intros Hrec.
    destruct (record_move_response _ _ _ _ _ _ _ _ Hrec)
      as (s' & -> & Hresp & Hhist & Hlast & Hboard & Hturn & Hg & Hc).
    inversion Hresp; subst. exists s'. simpl in *.
    repeat split; try assumption.
    + rewrite Hboard. exact Hdrop.
    + destruct current; assumption.
  - intros H; inversion H.
  - intros H; inversion H.
Qed.

Lemma next_move_asks_provider (s : state) (env : tick_env)
    (first_valid : Z) (rest : list Z) (column : Z) (reasoning : option string) :
  game_over s = false ->
  get_valid_columns (board s) = Return (first_valid :: rest) ->
  provider env = Return (column, reasoning) ->
  next_move (Some s) env
  = play_column (provider_bookkeeping add_time round2 s env reasoning)
      (current_player s) (piece_of (current_player s))
      (first_valid :: rest) first_valid column (now env).
Proof.
  intros Hover Hvalid Hprov. unfold next_move, provider_bookkeeping.
  rewrite Hover. simpl. rewrite Hvalid, Hprov.
  destruct (current_player s); reflexivity.
Qed.

Lemma provider_bookkeeping_fields (s : state) (env : tick_env)
    (reasoning : option string) :
  let s1 := provider_bookkeeping add_time round2 s env reasoning in
  board s1 = board s /\ move_history s1 = move_history s /\
  current_player s1 = current_player s /\
  turn_count s1 = (turn_count s + 1)%Z /\
  last_time_of s1 (current_player s) = round2 (elapsed env).
Proof.
  unfold provider_bookkeeping. destruct (current_player s) eqn:Hcur; simpl;
    rewrite Hcur; repeat split.
Qed.


(** C4. When the provider answers with a column that is not among the
    valid columns (and there is a valid column), the tick plays the first
    valid column instead: the piece of the mover is dropped there, into the
    lowest empty cell of that column, which was empty before and holds the
    piece afterwards, while every other cell of the board stays as it was;
    the move is recorded with that column and row, and the answer is the
    success answer of a move. *)
Theorem illegal_column_falls_back_to_first_valid (s : state) (env : tick_env)
    (first_valid : Z) (rest : list Z) (column : Z) (reasoning : option string) :
  game_over s = false ->
  wf_board (board s) ->
  get_valid_columns (board s) = Return (first_valid :: rest) ->
  provider env = Return (column, reasoning) ->
  column ∉ first_valid :: rest ->
  exists s' (r : nat),
    next_move (Some s) env
    = (Some s',
       Return (MoveResponse (current_player s) first_valid (Z.of_nat r)
                 (get_client_state s'))) /\
    succeeded (snd (next_move (Some s) env)) = true /\
    drop_piece (board s) first_valid (piece_of (current_player s))
    = (board s', Return (true, Z.of_nat r)) /\
    lowest_empty (board s) (Z.to_nat (first_valid - 1)) r /\
    cell_of (board s) r (Z.to_nat (first_valid - 1)) = Some "." /\
    cell_of (board s') r (Z.to_nat (first_valid - 1))
    = Some (piece_of (current_player s)) /\
    (forall row' col', (row', col') <> (r, Z.to_nat (first_valid - 1)) ->
       cell_of (board s') row' col' = cell_of (board s) row' col') /\
    (move_history s' = move_history s ++ [(current_player s, first_valid)])%list /\
    last_move s' = Some (MoveRecord first_valid (Z.of_nat r) (current_player s)).
Proof.
  intros Hover Hwf Hvalid Hprov Hnotin.
  rewrite (next_move_asks_provider s env _ _ _ _ Hover Hvalid Hprov).
  destruct (provider_bookkeeping_fields s env reasoning)
    as (Hboard & Hhist & _ & _ & _).
  set (s1 := provider_bookkeeping add_time round2 s env reasoning) in *.
  unfold play_column. rewrite (bool_decide_eq_false_2 _ Hnotin), Hboard.
  destruct (drop_piece_valid_column (board s) _ first_valid
              (piece_of (current_player s)) Hwf Hvalid)
    as (row & Hlowest & Hdrop); [apply list_elem_of_here|].
  rewrite Hdrop. simpl negb. cbv iota.
  destruct (record_move_total
              (set_board s1 (board_set (board s) row (Z.to_nat (first_valid - 1))
                               (piece_of (current_player s))))
              (current_player s) (piece_of (current_player s))
              first_valid (Z.of_nat row) (now env))
    as (s' & Hrec & Hh & Hl & Hb & _); [simpl; apply wf_board_set; assumption|].
  exists s', row. rewrite Hrec. simpl in Hh, Hb.
  pose proof Hlowest as (_ & Hempty & _).
  split; [reflexivity|]. split; [reflexivity|].
  split; [rewrite Hb; reflexivity|].
  split; [assumption|]. split; [assumption|].
  split; [rewrite Hb; apply (cell_of_board_set_eq _ _ _ _ "."); assumption|].
  split; [intros row' col' Hne; rewrite Hb; apply cell_of_board_set_ne; assumption|].
  split; [rewrite Hh, Hhist; reflexivity | assumption].
Qed.

(** C6 (what the code does). When the provider call raises, [next_move]
    answers with the error and status 500 and leaves board, history,
    mover and every other field as they were, except [turn_count], which
    was incremented before the call and stays incremented. *)
Theorem provider_error_leaves_turn_counted (s : state) (env : tick_env)
    (first_valid : Z) (rest : list Z) (e : exn) :
  game_over s = false ->
  get_valid_columns (board s) = Return (first_valid :: rest) ->
  provider env = Raise e ->
  exists msg,
    next_move (Some s) env
    = (Some (set_turn_count s (turn_count s + 1)), Return (ErrorResponse msg 500)) /\
    turn_count (set_turn_count s (turn_count s + 1)) <> turn_count s /\
    awaiting_move (set_turn_count s (turn_count s + 1)) (current_player s).
Proof.
  intros Hover Hvalid Hprov. unfold next_move. rewrite Hover. simpl.
  rewrite Hvalid, Hprov.
  destruct (current_player s) eqn:Hcur; eexists;
    (split; [reflexivity|]); (split; [lia|]); split; assumption.
Qed.

(** The branch of lines 272-279, taken on its own: a tick that finds no
    valid column concludes the game as a draw without calling the provider,
    and leaves the draw counters of both agents and the game history as
    they were. No state the handlers produce enters this branch. *)
Lemma draw_without_valid_column_skips_counters (s : state) (env : tick_env) :
  game_over s = false ->
  get_valid_columns (board s) = Return [] ->
  exists s',
    next_move (Some s) env = (Some s', Return (StateResponse (get_client_state s'))) /\
    game_over s' = true /\ winner s' = Some Draw /\
    gpt_stats s' = gpt_stats s /\ claude_stats s' = claude_stats s /\
    game_history s' = game_history s.
Proof.
  intros Hover Hvalid. unfold next_move. rewrite Hover. simpl. rewrite Hvalid.
  eexists. split; [reflexivity|]. repeat split.
Qed.

(** The other way into a draw: the board is full once the move is applied;
    there both draw counters go up by one and the game enters the history. *)
Lemma record_move_draw (s : state) (current : player) (piece : string)
    (column row : Z) (now : string) :
  check_winner (board s) piece = Return false ->
  is_board_full (board s) = Return true ->
  exists s',
    record_move s current piece column row now
    = (Some s', Return (MoveResponse current column row (get_client_state s'))) /\
    game_over s' = true /\ winner s' = Some Draw /\
    draws (gpt_stats s') = (draws (gpt_stats s) + 1)%Z /\
    draws (claude_stats s') = (draws (claude_stats s) + 1)%Z /\
    length (game_history s') = S (length (game_history s)).
Proof.
  intros Hwin Hfull. unfold record_move. simpl. rewrite Hwin, Hfull.
  eexists. split; [reflexivity|]. simpl. repeat split.
  rewrite length_app. simpl. lia.
Qed.

Lemma last10_length {A : Type} (l : list A) :
  length (last10 l) = Nat.min 10 (length l).
Proof. unfold last10. rewrite length_drop. lia. Qed.

Lemma last10_suffix {A : Type} (l : list A) :
  exists older, l = (older ++ last10 l)%list.
Proof.
  exists (take (length l - 10) l). unfold last10. symmetry. apply take_drop.
Qed.

(** C9 (as the code has it). The record a successful tick appends to the
    move history is the pair of the agent and the column played; the row
    goes to [last_move] and the duration to the last-time field of the
    agent. The history keeps every record, and the client state shows its
    last ten. *)
Theorem move_record_is_agent_and_column (G G' : option state) (env : tick_env)
    (p : player) (c r : Z) (cs : client_state Time) :
  next_move G env = (G', Return (MoveResponse p c r cs)) ->
  exists s s',
    G = Some s /\ G' = Some s' /\ p = current_player s /\
    (move_history s' = move_history s ++ [(p, c)])%list /\
    last_move s' = Some (MoveRecord c r p) /\
    last_time_of s' p = round2 (elapsed env) /\
    cs = get_client_state s' /\
    cs_move_history cs = last10 (move_history s') /\
    length (cs_move_history cs) = Nat.min 10 (length (move_history s')) /\
    exists older, (move_history s' = older ++ cs_move_history cs)%list.
Proof.
  destruct G as [s|]; [|simpl; intros H; inversion H].
  destruct (game_over s) eqn:Hover;
    [unfold next_move; rewrite Hover; intros H; inversion H|].
  destruct (get_valid_columns (board s)) as [[|first_valid rest]|e] eqn:Hvalid;
    try (unfold next_move; rewrite Hover; simpl; rewrite Hvalid;
         intros H; inversion H; fail).
  destruct (provider env) as [[column reasoning]|e] eqn:Hprov;
    [|unfold next_move; rewrite Hover; simpl; rewrite Hvalid, Hprov;
      destruct (current_player s); intros H; inversion H].
  rewrite (next_move_asks_provider s env _ _ _ _ Hover Hvalid Hprov).
  intros Hplay.
  destruct (play_column_response _ _ _ _ _ _ _ _ _ _ _ _ Hplay)
    as (s' & -> & -> & _ & -> & _ & Hhist & Hlast & _ & Htime).
  destruct (provider_bookkeeping_fields s env reasoning)
    as (_ & Hhist1 & _ & _ & Htime1).
  exists s, s'. rewrite Hhist1 in Hhist. rewrite Htime1 in Htime.
  repeat split; try assumption; try reflexivity.
  - simpl. apply last10_length.
  - simpl. apply last10_suffix.
Qed.

(** C7 (as the code has it). [next_game] succeeds exactly when a series
    exists and the current game index is below the total, whatever the
    state of the current game; at the total it answers "All games
    completed" and without a series "No game in progress", in both cases
    leaving the state alone. On success the new state is a fresh game
    (empty board, drawn first mover, per-game fields reset) that keeps the
    statistics, the game history, the model choices and the total, with the
    game index one higher. *)
Theorem next_game_needs_only_index_below_total (G : option state) (gpt_first : bool) :
  (succeeded (snd (next_game G gpt_first)) = true <->
   exists s, G = Some s /\ (current_game s < total_games s)%Z) /\
  (G = None ->
   next_game G gpt_first = (None, Return (ErrorResponse "No game in progress" 400))) /\
  (forall s, G = Some s -> (total_games s <= current_game s)%Z ->
   next_game G gpt_first = (Some s, Return (ErrorResponse "All games completed" 400))) /\
  (forall s, G = Some s -> (current_game s < total_games s)%Z ->
   exists s',
     next_game G gpt_first = (Some s', Return (StateResponse (get_client_state s'))) /\
     board s' = create_empty_board /\
     current_player s' = (if gpt_first then gpt else claude) /\
     first_player s' = (if gpt_first then gpt else claude) /\
     game_over s' = false /\ winner s' = None /\ turn_count s' = 0%Z /\
     move_history s' = [] /\ last_move s' = None /\
     gpt_reasoning s' = "" /\ claude_reasoning s' = "" /\
     gpt_total_time s' = zero_time /\ claude_total_time s' = zero_time /\
     gpt_last_time s' = zero_time /\ claude_last_time s' = zero_time /\
     gpt_stats s' = gpt_stats s /\ claude_stats s' = claude_stats s /\
     game_history s' = game_history s /\
     gpt_model s' = gpt_model s /\ claude_model s' = claude_model s /\
     current_game s' = (current_game s + 1)%Z /\
     total_games s' = total_games s).
Proof.
  split; [|split; [|split]].
  - destruct G as [s|]; simpl.
    + destruct (Z.geb_spec (current_game s) (total_games s)) as [Hge|Hlt]; simpl.
      * split; [discriminate|]. intros (s0 & Heq & Hlt). inversion Heq; subst. lia.
      * split; [|reflexivity]. intros _. exists s. split; [reflexivity | lia].
    + split; [discriminate|]. intros (s0 & Heq & _). discriminate.
  - intros ->. reflexivity.
  - intros s -> Hge. simpl.
    destruct (Z.geb_spec (current_game s) (total_games s)); [reflexivity | lia].
  - intros s -> Hlt. simpl.
    destruct (Z.geb_spec (current_game s) (total_games s)); [lia|].
    eexists. split; [reflexivity|]. simpl. repeat split.
Qed.


(** *** Sessions the handlers produce *)

Lemma record_move_playable (s : state) (current : player) (piece : string)
    (column row : Z) (now : string) (G' : option state) (r : outcome (response Time)) :
  wf_board (board s) ->
  record_move s current piece column row now = (G', r) ->
  exists s', G' = Some s' /\ playable s'.
Proof.
  intros Hwf. unfold record_move. simpl.
  rewrite (check_winner_pure _ _ Hwf).
  destruct (is_board_full_total _ Hwf) as [v Hv]. rewrite Hv.
  destruct (winner_is (board s) piece).
  - destruct current; intros H; inversion H; subst; eexists;
      (split; [reflexivity|]); (split; [exact Hwf | discriminate]).
  - destruct v; intros H; inversion H; subst; eexists;
      (split; [reflexivity|]); (split; [exact Hwf|]); simpl; [discriminate|].
    intros _. apply not_full_has_valid_column; assumption.
Qed.

Lemma play_column_playable (s : state) (current : player) (piece : string)
    (valid_cols : list Z) (first_valid column : Z) (now : string)
    (G' : option state) (r : outcome (response Time)) :
  playable s ->
  play_column s current piece valid_cols first_valid column now = (G', r) ->
  exists s', G' = Some s' /\ playable s'.
Proof.
  intros [Hwf Hlive]. unfold play_column.
  set (c := if bool_decide (column ∈ valid_cols) then column else first_valid).
  destruct (drop_piece (board s) c piece) as [b' o] eqn:Hdrop.
  destruct (drop_piece_wf _ _ _ _ _ Hwf Hdrop) as [Hwf' Hsame].
  assert (forall t : state, (forall z, o <> Return (true, z)) ->
            board t = b' -> game_over t = game_over s -> playable t) as Hkeep.
  { intros t Hne Hb Hg. rewrite (Hsame Hne) in Hb. split; rewrite Hb; [assumption|].
    rewrite Hg. assumption. }
  destruct o as [[[|] row]|e]; simpl.
  - apply record_move_playable. simpl. assumption.
  - intros H; inversion H; subst. eexists. split; [reflexivity|].
    apply Hkeep; [discriminate | reflexivity..].
  - intros H; inversion H; subst. eexists. split; [reflexivity|].
    apply Hkeep; [discriminate | reflexivity..].
Qed.

Lemma provider_bookkeeping_playable (s : state) (env : tick_env)
    (reasoning : option string) :
  playable s -> playable (provider_bookkeeping add_time round2 s env reasoning).
Proof.
  intros Hplay. unfold provider_bookkeeping.
  destruct (current_player s); exact Hplay.
Qed.

Lemma next_move_playable (s : state) (env : tick_env)
    (G' : option state) (r : outcome (response Time)) :
  playable s -> next_move (Some s) env = (G', r) ->
  exists s', G' = Some s' /\ playable s'.
Proof.
  intros Hplay. pose proof Hplay as [Hwf Hlive].
  destruct (game_over s) eqn:Hover.
  - unfold next_move. rewrite Hover. intros H; inversion H; subst. eauto.
  - destruct (Hlive eq_refl) as (first_valid & rest & Hvalid).
    destruct (provider env) as [[column reasoning]|e] eqn:Hprov.
    + rewrite (next_move_asks_provider s env _ _ _ _ Hover Hvalid Hprov).
      apply play_column_playable. apply provider_bookkeeping_playable. assumption.
    + unfold next_move. rewrite Hover. simpl. rewrite Hvalid, Hprov.
      destruct (current_player s); intros H; inversion H; subst;
        eexists; (split; [reflexivity|]); exact Hplay.
Qed.

Lemma init_game_state_playable (gpt_first : bool) (gpt_model claude_model : string) :
  playable (init_game_state zero_time gpt_first gpt_model claude_model).
Proof.
  split; [apply wf_sample_boards|]. intros _. simpl.
  rewrite empty_board_valid_columns. eauto.
Qed.

(** Every session the handlers produce is playable: while the game is not
    over there is a valid column, so the branch of [next_move] for an
    empty list of valid columns is not entered from such a session. *)
Lemma reachable_playable (G : option state) :
  reachable zero_time add_time round2 G -> forall s, G = Some s -> playable s.
Proof.
  induction 1 as [| G n gm cm gf _ _ | G gf _ IH | G env _ IH | G gf _ IH];
    intros s Hs.
  - discriminate.
  - simpl in Hs. inversion Hs; subst.
    exact (init_game_state_playable gf gm cm).
  - destruct G as [s0|]; simpl in Hs; inversion Hs; subst.
    + apply IH. reflexivity.
    + apply init_game_state_playable.
  - destruct G as [s0|]; [|simpl in Hs; discriminate].
    destruct (next_move (Some s0) env) as [G' r] eqn:Hmove.
    destruct (next_move_playable s0 env G' r (IH s0 eq_refl) Hmove) as (s' & -> & Hplay).
    simpl in Hs. inversion Hs; subst. assumption.
  - destruct G as [s0|]; [|simpl in Hs; discriminate].
    simpl in Hs. destruct (current_game s0 >=? total_games s0)%Z; simpl in Hs;
      inversion Hs; subst; [apply IH; reflexivity|].
    exact (init_game_state_playable gf (gpt_model s0) (claude_model s0)).
Qed.

(** *** How a tick settles the game *)

Lemma record_move_outcome (s : state) (current : player) (piece : string)
    (column row : Z) (now : string) (G' : option state) (r : outcome (response Time)) :
  wf_board (board s) ->
  record_move s current piece column row now = (G', r) ->
  exists s', G' = Some s' /\
    r = Return (MoveResponse current column row (get_client_state s')) /\
    recorded s s' current column row /\
    first_player s' = first_player s /\
    current_game s' = current_game s /\ total_games s' = total_games s /\
    ((winner_is (board s) piece = true /\ settled_win s s' current) \/
     (winner_is (board s) piece = false /\ is_board_full (board s) = Return true /\
      settled_draw s s') \/
     (winner_is (board s) piece = false /\ is_board_full (board s) = Return false /\
      settled_pass s s' current)).
Proof.
  intros Hwf. unfold record_move. simpl.
  rewrite (check_winner_pure _ _ Hwf).
  destruct (is_board_full_total _ Hwf) as [full Hfull]. rewrite Hfull.
  destruct (winner_is (board s) piece).
  - intros H; inversion H; subst; clear H. eexists.
    split; [reflexivity|]. split; [reflexivity|].
    split; [destruct current; repeat split|].
    split; [destruct current; reflexivity|].
    split; [destruct current; reflexivity|].
    split; [destruct current; reflexivity|].
    left. split; [reflexivity|].
    destruct current; repeat split; eexists; repeat split.
  - destruct full; intros H; inversion H; subst; clear H; eexists;
      (split; [reflexivity|]); (split; [reflexivity|]);
      (split; [repeat split|]); (split; [reflexivity|]);
      (split; [reflexivity|]); (split; [reflexivity|]); right.
    + left. split; [reflexivity|]. split; [reflexivity|].
      repeat split. eexists. repeat split.
    + right. split; [reflexivity|]. split; [reflexivity|]. repeat split.
Qed.

(** A tick on a live, playable session: either the provider failed and
    only the turn was counted, or a valid column received the piece and
    [record_move] took over. *)
Lemma next_move_live (s : state) (env : tick_env) :
  playable s -> game_over s = false ->
  (exists e,
     provider env = Raise e /\
     fst (next_move (Some s) env) = Some (set_turn_count s (turn_count s + 1)) /\
     exists msg, snd (next_move (Some s) env) = Return (ErrorResponse msg 500)) \/
  (exists column reasoning c row,
     provider env = Return (column, reasoning) /\
     c ∈ open_columns (board s) /\
     (c = column \/ column ∉ open_columns (board s)) /\
     lowest_empty (board s) (Z.to_nat (c - 1)) row /\
     drop_piece (board s) c (piece_of (current_player s))
     = (board_set (board s) row (Z.to_nat (c - 1)) (piece_of (current_player s)),
        Return (true, Z.of_nat row)) /\
     next_move (Some s) env
     = record_move
         (set_board (provider_bookkeeping add_time round2 s env reasoning)
            (board_set (board s) row (Z.to_nat (c - 1)) (piece_of (current_player s))))
         (current_player s) (piece_of (current_player s)) c (Z.of_nat row) (now env)).
Proof.
  intros [Hwf Hlive] Hover.
  destruct (Hlive Hover) as (first_valid & rest & Hvalid).
  pose proof (get_valid_columns_open _ Hwf) as Hopen.
  rewrite Hvalid in Hopen. inversion Hopen as [Hcols].
  destruct (provider env) as [[column reasoning]|e] eqn:Hprov.
  - right.
    rewrite (next_move_asks_provider s env _ _ _ _ Hover Hvalid Hprov).
    destruct (provider_bookkeeping_fields s env reasoning) as (Hboard & _).
    unfold play_column. rewrite Hboard, Hcols.
    set (c := if bool_decide (column ∈ open_columns (board s))
              then column else first_valid).
    assert (c ∈ open_columns (board s) /\
            (c = column \/ column ∉ open_columns (board s))) as [Hc Hchoice].
    { unfold c. destruct (bool_decide_reflect (column ∈ open_columns (board s))).
      - split; [assumption | left; reflexivity].
      - split; [rewrite <- Hcols; apply list_elem_of_here | right; assumption]. }
    destruct (drop_piece_valid_column (board s) _ c (piece_of (current_player s))
                Hwf Hvalid) as (row & Hlow & Hdrop); [rewrite Hcols; assumption|].
    rewrite Hdrop. simpl negb. cbv iota.
    exists column, reasoning, c, row.
    split; [reflexivity|]. split; [assumption|]. split; [assumption|].
    split; [assumption|]. split; [assumption | reflexivity].
  - left. exists e. split; [reflexivity|].
    unfold next_move. rewrite Hover. simpl. rewrite Hvalid, Hprov.
    destruct (current_player s); simpl; (split; [reflexivity | eauto]).
Qed.

(** The column a tick plays: the answered one when it is valid, else the
    first valid one. *)
Lemma next_move_live_choice (s : state) (env : tick_env)
    (column : Z) (reasoning : option string) :
  playable s -> game_over s = false ->
  provider env = Return (column, reasoning) ->
  exists c row,
    c ∈ open_columns (board s) /\
    (column ∈ open_columns (board s) -> c = column) /\
    (column ∉ open_columns (board s) ->
     exists rest, open_columns (board s) = c :: rest) /\
    lowest_empty (board s) (Z.to_nat (c - 1)) row /\
    next_move (Some s) env
    = record_move
        (set_board (provider_bookkeeping add_time round2 s env reasoning)
           (board_set (board s) row (Z.to_nat (c - 1)) (piece_of (current_player s))))
        (current_player s) (piece_of (current_player s)) c (Z.of_nat row) (now env).
Proof.
  intros [Hwf Hlive] Hover Hprov.
  destruct (Hlive Hover) as (first_valid & rest & Hvalid).
  pose proof (get_valid_columns_open _ Hwf) as Hopen.
  rewrite Hvalid in Hopen. inversion Hopen as [Hcols].
  rewrite (next_move_asks_provider s env _ _ _ _ Hover Hvalid Hprov).
  destruct (provider_bookkeeping_fields s env reasoning) as (Hboard & _).
  unfold play_column. rewrite Hboard, Hcols.
  set (c := if bool_decide (column ∈ open_columns (board s))
            then column else first_valid).
  assert (c ∈ open_columns (board s) /\
          (column ∈ open_columns (board s) -> c = column) /\
          (column ∉ open_columns (board s) ->
           exists rest, open_columns (board s) = c :: rest)) as (Hc & Hvalid' & Hfirst).
  { unfold c. destruct (bool_decide_reflect (column ∈ open_columns (board s))).
    - split; [assumption|]. split; [reflexivity | contradiction].
    - split; [rewrite <- Hcols; apply list_elem_of_here|].
      split; [contradiction|]. intros _. exists rest. symmetry. exact Hcols. }
  destruct (drop_piece_valid_column (board s) _ c (piece_of (current_player s))
              Hwf Hvalid) as (row & Hlow & Hdrop); [rewrite Hcols; assumption|].
  rewrite Hdrop. simpl negb. cbv iota.
  exists c, row. repeat (split; [assumption|]). reflexivity.
Qed.

Lemma piece_of_occupied (p : player) : piece_of p <> ".".
Proof. destruct p; discriminate. Qed.

Lemma piece_of_other (p : player) : piece_of (other p) <> piece_of p.
Proof. destruct p; discriminate. Qed.

Lemma player_cases (p q : player) : p = q \/ p = other q.
Proof. destruct p, q; simpl; auto. Qed.

Lemma other_involutive (p : player) : other (other p) = p.
Proof. destruct p; reflexivity. Qed.

Lemma nth_mover_succ (first : player) (i : nat) :
  nth_mover first (S i) = other (nth_mover first i).
Proof.
  unfold nth_mover. rewrite Nat.even_succ, <- Nat.negb_even.
  destruct (Nat.even i); simpl; [reflexivity | rewrite other_involutive; reflexivity].
Qed.

Lemma live_no_winner (s : state) :
  session_inv s -> game_over s = false -> winner s = None.
Proof.
  intros Hinv Hover. pose proof (inv_winner s Hinv) as Hw.
  destruct (winner s) as [[p|]|]; [destruct Hw; congruence.. | reflexivity].
Qed.

Lemma init_game_state_inv (gpt_first : bool) (gpt_model claude_model : string) :
  session_inv (init_game_state zero_time gpt_first gpt_model claude_model).
Proof.
  split; simpl; try reflexivity; try lia; try (repeat split; lia).
  - apply init_game_state_playable.
  - apply no_floating_empty_board.
  - intros i p c Hi. rewrite lookup_nil in Hi. discriminate.
  - intros p Hfour. exfalso.
    apply (no_four_empty_board (piece_of p) (piece_of_occupied p) Hfour).
Qed.

(** The state between the drop and [record_move]. *)
Lemma after_drop_fields (s : state) (env : tick_env) (reasoning : option string)
    (b' : grid) :
  let s2 := set_board (provider_bookkeeping add_time round2 s env reasoning) b' in
  board s2 = b' /\ move_history s2 = move_history s /\
  turn_count s2 = (turn_count s + 1)%Z /\
  first_player s2 = first_player s /\ current_player s2 = current_player s /\
  gpt_stats s2 = gpt_stats s /\ claude_stats s2 = claude_stats s /\
  game_history s2 = game_history s /\ game_over s2 = game_over s /\
  winner s2 = winner s /\ current_game s2 = current_game s /\
  total_games s2 = total_games s.
Proof.
  unfold provider_bookkeeping. destruct (current_player s) eqn:Hcur; simpl;
    rewrite ?Hcur; repeat split.
Qed.

Lemma move_keeps_inv (s s' : state) (env : tick_env) (reasoning : option string)
    (c : Z) (row : nat) (r : outcome (response Time)) :
  session_inv s -> game_over s = false ->
  lowest_empty (board s) (Z.to_nat (c - 1)) row ->
  drop_piece (board s) c (piece_of (current_player s))
  = (board_set (board s) row (Z.to_nat (c - 1)) (piece_of (current_player s)),
     Return (true, Z.of_nat row)) ->
  record_move
    (set_board (provider_bookkeeping add_time round2 s env reasoning)
       (board_set (board s) row (Z.to_nat (c - 1)) (piece_of (current_player s))))
    (current_player s) (piece_of (current_player s)) c (Z.of_nat row) (now env)
  = (Some s', r) ->
  session_inv s'.
Proof.
  intros Hinv Hover Hlow Hdrop Hrec.
  set (cur := current_player s) in *. set (piece := piece_of cur) in *.
  set (b' := board_set (board s) row (Z.to_nat (c - 1)) piece) in *.
  destruct (after_drop_fields s env reasoning b')
    as (B2 & H2 & T2 & F2 & C2 & GS2 & CS2 & GH2 & O2 & W2 & CG2 & TG2).
  set (s2 := set_board (provider_bookkeeping add_time round2 s env reasoning) b') in *.
  pose proof (inv_playable s Hinv) as [Hwf _].
  assert (wf_board b') as Hwf' by (apply wf_board_set; assumption).
  destruct (record_move_outcome s2 cur piece c (Z.of_nat row) (now env) _ _
              ltac:(rewrite B2; exact Hwf') Hrec)
    as (s0 & Hs0 & _ & (Hh & Hl & Hb & Ht & _ & _) & Hf & Hcg & Htg & Hcases).
  inversion Hs0; subst s0; clear Hs0.
  rewrite B2 in Hb, Hcases. rewrite H2 in Hh. rewrite T2 in Ht.
  rewrite F2 in Hf. rewrite CG2 in Hcg. rewrite TG2 in Htg.
  destruct Hlow as (Hrow & Hempty & Hbelow).
  pose proof (live_no_winner s Hinv Hover) as Hnone.
  assert (forall q, ~ has_four (board s) (piece_of q)) as Hnofour.
  { intros q Hq. apply (inv_four s Hinv) in Hq. congruence. }
  assert (has_four b' (piece_of (other cur)) -> False) as Hother.
  { intros Hq. apply (Hnofour (other cur)).
    eapply has_four_board_set_other; [exact Hempty | apply piece_of_other | exact Hq]. }
  assert (game_over s' = false ->
          winner_is b' piece = false /\ is_board_full b' = Return false /\
          settled_pass s2 s' cur) as Hpass.
  { intros Hlive. destruct Hcases as [[_ (Ho & _)] | [(_ & _ & Ho & _) | H]];
      [congruence | congruence | exact H]. }
  split.
  - (* playable *)
    split; [rewrite Hb; exact Hwf'|]. intros Hlive.
    destruct (Hpass Hlive) as (_ & Hfull & _). rewrite Hb.
    apply not_full_has_valid_column; assumption.
  - rewrite Hb. eapply drop_piece_no_floating; [apply (inv_no_floating s Hinv) | exact Hdrop].
  - rewrite Hb, Hh, length_app. simpl.
    unfold b'. rewrite count_occupied_board_set by (try assumption; apply piece_of_occupied).
    rewrite (inv_count s Hinv). lia.
  - rewrite Hh, Ht, length_app. simpl. pose proof (inv_turns s Hinv). lia.
  - intros i p col Hi. rewrite Hh in Hi. rewrite Hf.
    apply lookup_app_Some in Hi as [Hi | [Hlen Hi]].
    + eapply (inv_alternate s Hinv); eauto.
    + destruct (i - length (move_history s)) as [|k] eqn:Hk; simpl in Hi; [|discriminate].
      inversion Hi; subst p col.
      replace i with (length (move_history s)) by lia.
      apply (inv_current s Hinv Hover).
  - intros Hlive. destruct (Hpass Hlive) as (_ & _ & (_ & _ & Hcur & _)).
    rewrite Hcur, Hf, Hh, length_app. simpl.
    rewrite Nat.add_1_r, nth_mover_succ. f_equal. apply (inv_current s Hinv Hover).
  - (* stats *)
    pose proof (inv_stats s Hinv) as (S1 & S2 & S3).
    destruct Hcases as [[_ (_ & _ & _ & Hw & Hlo & _)]
                       | [(_ & _ & _ & _ & _ & Hg & Hc & _)
                         | (_ & _ & _ & _ & _ & Hg & Hc & _)]].
    + destruct cur; unfold stats_of, other in Hw, Hlo;
        rewrite Hw, Hlo, GS2, CS2; simpl; repeat split; lia.
    + rewrite Hg, Hc, GS2, CS2. simpl. repeat split; lia.
    + rewrite Hg, Hc, GS2, CS2. repeat split; assumption.
  - (* totals *)
    pose proof (inv_totals s Hinv) as Htot.
    pose proof (inv_stats s Hinv) as (S1 & S2 & S3).
    destruct Hcases as [[_ (_ & _ & _ & Hw & Hlo & entry & Hgh & _)]
                       | [(_ & _ & _ & _ & _ & Hg & Hc & entry & Hgh & _)
                         | (_ & _ & _ & _ & _ & Hg & Hc & Hgh)]].
    + rewrite Hgh, GH2, length_app. simpl.
      destruct cur; unfold stats_of, other in Hw, Hlo;
        rewrite Hw, Hlo, GS2, CS2; simpl; lia.
    + rewrite Hgh, GH2, length_app, Hg, Hc, GS2, CS2. simpl. lia.
    + rewrite Hgh, GH2, Hg, Hc, GS2, CS2. exact Htot.
  - rewrite Hcg, Htg. apply (inv_series s Hinv).
  - (* history *)
    pose proof (inv_history s Hinv) as Hhist. rewrite Hover in Hhist. rewrite Hcg.
    destruct Hcases as [[_ (Ho & _ & _ & _ & _ & entry & Hgh & _)]
                       | [(_ & _ & Ho & _ & _ & _ & _ & entry & Hgh & _)
                         | (_ & _ & Ho & _ & _ & _ & _ & Hgh)]].
    + rewrite Ho, Hgh, GH2, length_app. simpl. lia.
    + rewrite Ho, Hgh, GH2, length_app. simpl. lia.
    + rewrite Ho, O2, Hover, Hgh, GH2. lia.
  - (* winner *)
    destruct Hcases as [[Hwin (Ho & Hw & _)]
                       | [(_ & Hfull & Ho & Hw & _) | (_ & _ & Ho & Hw & _)]].
    + rewrite Hw. split; [assumption|]. rewrite Hb.
      apply winner_is_iff; assumption.
    + rewrite Hw. split; [assumption|]. rewrite Hb. assumption.
    + rewrite Hw, W2, Hnone. rewrite Ho, O2. assumption.
  - (* four *)
    intros p Hfour. rewrite Hb in Hfour.
    destruct (player_cases p cur) as [-> | ->].
    + destruct Hcases as [[_ (_ & Hw & _)] | [(Hno & _) | (Hno & _)]];
        [assumption | exfalso..];
        apply (winner_is_iff b' piece Hwf') in Hfour; congruence.
    + exfalso. apply Hother. assumption.
  - (* last move *)
    rewrite Hl. simpl. split; [rewrite Hh; apply last_snoc|].
    exists row. split; [reflexivity|]. rewrite Hb.
    eapply cell_of_board_set_eq; eauto.
Qed.

Lemma count_turn_keeps_inv (s : state) :
  session_inv s -> session_inv (set_turn_count s (turn_count s + 1)).
Proof.
  intros [P NF C T A Cu St To Se Hi W F L]. split; simpl; try assumption. lia.
Qed.

Lemma next_move_keeps_inv (s s' : state) (env : tick_env) :
  session_inv s -> fst (next_move (Some s) env) = Some s' -> session_inv s'.
Proof.
  intros Hinv Hmove. destruct (game_over s) eqn:Hover.
  - unfold next_move in Hmove. rewrite Hover in Hmove. simpl in Hmove.
    inversion Hmove; subst. assumption.
  - destruct (next_move_live s env (inv_playable s Hinv) Hover)
      as [(e & _ & Hfst & _) | (column & reasoning & c & row & _ & _ & _ & Hlow & Hdrop & Hrec)].
    + rewrite Hfst in Hmove. inversion Hmove; subst.
      apply count_turn_keeps_inv. assumption.
    + destruct (next_move (Some s) env) as [G' r] eqn:Hnm. simpl in Hmove. subst G'.
      eapply move_keeps_inv; eauto.
Qed.

Lemma start_games_inv (num_games : Z) (gpt_model claude_model : string)
    (gpt_first : bool) (s : state) :
  fst (start_games zero_time num_games gpt_model claude_model gpt_first) = Some s ->
  session_inv s.
Proof.
  simpl. intros H. inversion H; subst; clear H.
  destruct (init_game_state_inv gpt_first gpt_model claude_model)
    as [P NF C T A Cu St To Se Hi W F L].
  split; simpl; try assumption; simpl in *; lia.
Qed.

Lemma next_game_keeps_inv (s s' : state) (gpt_first : bool) :
  session_inv s -> fst (next_game (Some s) gpt_first) = Some s' -> session_inv s'.
Proof.
  intros Hinv. simpl.
  destruct (Z.geb_spec (current_game s) (total_games s)) as [Hge|Hlt]; simpl;
    intros H; inversion H; subst; clear H; [assumption|].
  destruct (init_game_state_inv gpt_first (gpt_model s) (claude_model s))
    as [P NF C T A Cu St To Se Hi W F L].
  pose proof (inv_series s Hinv). pose proof (inv_history s Hinv) as Hh.
  split; simpl; try assumption.
  - apply (inv_stats s Hinv).
  - apply (inv_totals s Hinv).
  - lia.
  - destruct (game_over s); lia.
Qed.

(** Every state the handlers produce satisfies the session invariants. *)
Lemma reachable_inv (G : option state) :
  reachable zero_time add_time round2 G -> forall s, G = Some s -> session_inv s.
Proof.
  induction 1 as [| G n gm cm gf _ _ | G gf _ IH | G env _ IH | G gf _ IH];
    intros s Hs.
  - discriminate.
  - eapply start_games_inv; eauto.
  - destruct G as [s0|]; simpl in Hs; inversion Hs; subst.
    + apply IH. reflexivity.
    + apply init_game_state_inv.
  - destruct G as [s0|]; [|simpl in Hs; discriminate].
    eapply next_move_keeps_inv; [apply IH; reflexivity | exact Hs].
  - destruct G as [s0|]; [|simpl in Hs; discriminate].
    eapply next_game_keeps_inv; [apply IH; reflexivity | exact Hs].
Qed.

(** *** What the invariants say of every session the handlers produce *)

(** X6. From a state the handlers produced, [next_move] never raises and
    never answers "Failed to drop piece": it answers with a move, or with
    one of three errors, "No game in progress" (no series), "Game is over"
    (game concluded), or the provider error with status 500. The branch
    that declares a draw before asking the provider is never taken. *)
Theorem next_move_surfaces_only_provider_errors (G : option state) (env : tick_env) :
  reachable zero_time add_time round2 G ->
  exists r, snd (next_move G env) = Return r /\
    match r with
    | MoveResponse p c row cs =>
        exists s, G = Some s /\ game_over s = false /\ p = current_player s
    | StateResponse cs => False
    | ErrorResponse msg status =>
        (G = None /\ msg = "No game in progress" /\ status = 400%Z) \/
        (exists s, G = Some s /\ game_over s = true /\
           msg = "Game is over" /\ status = 400%Z) \/
        (exists s e, G = Some s /\ game_over s = false /\
           provider env = Raise e /\ status = 500%Z)
    end.
Proof.
  intros Hreach. destruct G as [s|].
  - pose proof (reachable_inv _ Hreach s eq_refl) as Hinv.
    destruct (game_over s) eqn:Hover.
    + unfold next_move. rewrite Hover. simpl. eexists. split; [reflexivity|].
      right; left. exists s. auto.
    + destruct (next_move_live s env (inv_playable s Hinv) Hover)
        as [(e & Hprov & _ & msg & Hsnd)
           | (column & reasoning & c & row & _ & _ & _ & _ & _ & Hrec)].
      * exists (ErrorResponse msg 500). split; [assumption|].
        right; right. exists s, e. auto.
      * rewrite Hrec.
        pose proof (inv_playable s Hinv) as [Hwf _].
        match goal with
        | |- context [record_move ?s2 _ _ _ _ _] =>
            assert (wf_board (board s2)) as Hwf2
              by (simpl; apply wf_board_set; exact Hwf)
        end.
        destruct (record_move _ _ _ _ _ _) as [G' r] eqn:Hrm.
        destruct (record_move_outcome _ _ _ _ _ _ _ _ Hwf2 Hrm)
          as (s' & _ & -> & _).
        eexists. split; [reflexivity|]. exists s. auto.
  - simpl. eexists. split; [reflexivity|]. left. auto.
Qed.

(** X7. In every state the handlers produce the board is 6x7 with no
    floating piece, it holds exactly as many pieces as the move history
    has records, at most 42, and the turn counter is at least that
    number. *)
Theorem pieces_match_move_history (s : state) :
  reachable zero_time add_time round2 (Some s) ->
  wf_board (board s) /\ no_floating (board s) /\
  count_occupied (board s) = length (move_history s) /\
  length (move_history s) <= 42 /\
  (Z.of_nat (length (move_history s)) <= turn_count s)%Z.
Proof.
  intros Hreach. pose proof (reachable_inv _ Hreach s eq_refl) as Hinv.
  pose proof (inv_playable s Hinv) as [Hwf _].
  split; [assumption|]. split; [apply (inv_no_floating s Hinv)|].
  split; [apply (inv_count s Hinv)|]. split; [|apply (inv_turns s Hinv)].
  rewrite <- (inv_count s Hinv). destruct Hwf as [Hlen Hrows].
  pose proof (count_occupied_le _ Hrows) as Hle. rewrite Hlen in Hle.
  unfold ROWS, COLS in Hle. lia.
Qed.

(** X8. Moves alternate strictly: the record at position [i] of the move
    history belongs to the first player when [i] is even and to the other
    one when it is odd, two consecutive records never have the same agent,
    and while the game is on the agent to move is the one whose turn that
    parity gives. *)
Theorem moves_alternate (s : state) :
  reachable zero_time add_time round2 (Some s) ->
  (forall i p c, move_history s !! i = Some (p, c) ->
     p = nth_mover (first_player s) i) /\
  (forall i p c q c', move_history s !! i = Some (p, c) ->
     move_history s !! S i = Some (q, c') -> q = other p) /\
  (game_over s = false ->
   current_player s = nth_mover (first_player s) (length (move_history s))).
Proof.
  intros Hreach. pose proof (reachable_inv _ Hreach s eq_refl) as Hinv.
  split; [apply (inv_alternate s Hinv)|]. split; [|apply (inv_current s Hinv)].
  intros i p c q c' Hi HSi.
  rewrite (inv_alternate s Hinv _ _ _ Hi), (inv_alternate s Hinv _ _ _ HSi).
  apply nth_mover_succ.
Qed.

(** X9. The counters of the two agents mirror each other (a win of one is
    a loss of the other, draws are equal), their sum is the number of
    entries of the game history, and that number never exceeds the index
    of the current game; while the current game is on it is below it. *)
Theorem statistics_mirror_and_count_games (s : state) :
  reachable zero_time add_time round2 (Some s) ->
  wins (gpt_stats s) = losses (claude_stats s) /\
  losses (gpt_stats s) = wins (claude_stats s) /\
  draws (gpt_stats s) = draws (claude_stats s) /\
  (wins (gpt_stats s) + wins (claude_stats s) + draws (gpt_stats s)
   = Z.of_nat (length (game_history s)))%Z /\
  (Z.of_nat (length (game_history s)) <= current_game s)%Z /\
  (game_over s = false -> (Z.of_nat (length (game_history s)) < current_game s)%Z).
Proof.
  intros Hreach. pose proof (reachable_inv _ Hreach s eq_refl) as Hinv.
  destruct (inv_stats s Hinv) as (S1 & S2 & S3).
  pose proof (inv_history s Hinv) as Hh.
  repeat split; try assumption; [apply (inv_totals s Hinv) | |].
  - destruct (game_over s); lia.
  - intros Hover. rewrite Hover in Hh. lia.
Qed.

(** X10. The index of the current game stays between 1 and the total, and
    the total between 1 and 10; so the flag [all_games_complete] of the
    client state is set exactly when the game is over and the index has
    reached the total. *)
Theorem series_index_within_total (s : state) :
  reachable zero_time add_time round2 (Some s) ->
  (1 <= current_game s <= total_games s)%Z /\ (total_games s <= 10)%Z /\
  (cs_all_games_complete (get_client_state s) = true <->
   game_over s = true /\ current_game s = total_games s).
Proof.
  intros Hreach. pose proof (reachable_inv _ Hreach s eq_refl) as Hinv.
  destruct (inv_series s Hinv) as [Hidx Htot].
  split; [assumption|]. split; [assumption|]. simpl.
  rewrite andb_true_iff, Z.geb_leb, Z.leb_le. split; intros [Ho Hc]; split; auto; lia.
Qed.

(** X11. The winner field tells the truth about the board: it is unset
    exactly while the game is on, and then neither piece has four in line;
    when an agent has won, its piece has four in line and the other piece
    has not; after a draw the board is full and neither piece has four in
    line. *)
Theorem winner_matches_board (s : state) :
  reachable zero_time add_time round2 (Some s) ->
  (game_over s = false <-> winner s = None) /\
  (forall p, has_four (board s) (piece_of p) <-> winner s = Some (Won p)) /\
  (winner s = Some Draw -> is_board_full (board s) = Return true).
Proof.
  intros Hreach. pose proof (reachable_inv _ Hreach s eq_refl) as Hinv.
  pose proof (inv_winner s Hinv) as Hw. split; [|split].
  - split; [apply live_no_winner; assumption|]. intros Hnone.
    rewrite Hnone in Hw. assumption.
  - intros p. split; [apply (inv_four s Hinv)|]. intros Hp.
    rewrite Hp in Hw. apply Hw.
  - intros Hd. rewrite Hd in Hw. apply Hw.
Qed.

(** X12. The last-move field is empty exactly when no move was played;
    otherwise it repeats the agent and column of the last record of the
    history, and its row is the cell of that column that holds the piece
    of that agent. *)
Theorem last_move_points_at_last_piece (s : state) :
  reachable zero_time add_time round2 (Some s) ->
  match last_move s with
  | None => move_history s = []
  | Some m =>
      last (move_history s) = Some (mover m, col m) /\
      exists r, row m = Z.of_nat r /\
        cell_of (board s) r (Z.to_nat (col m - 1)) = Some (piece_of (mover m))
  end.
Proof.
  intros Hreach. apply (inv_last_move s (reachable_inv _ Hreach s eq_refl)).
Qed.


(** *** The client state and the start of a series *)

Lemma first_code_points_count (n : nat) (t : string) :
  code_points (first_code_points n t) = Nat.min n (code_points t).
Proof.
  revert n. induction t as [|ch t IH]; intros n; simpl.
  - rewrite Nat.min_0_r. reflexivity.
  - destruct (is_continuation ch) eqn:Hch; simpl; rewrite ?Hch.
    + apply IH.
    + destruct n as [|n]; simpl; [reflexivity|]. rewrite Hch, IH. reflexivity.
Qed.

Lemma first_code_points_prefix (n : nat) (t : string) :
  String.prefix (first_code_points n t) t = true.
Proof.
  revert n. induction t as [|ch t IH]; intros n; simpl; [reflexivity|].
  destruct (is_continuation ch); [|destruct n as [|n]; [reflexivity|]]; simpl;
    (destruct (ascii_dec ch ch) as [_|Hne]; [apply IH | congruence]).
Qed.

Lemma first_code_points_all (n : nat) (t : string) :
  code_points t <= n -> first_code_points n t = t.
Proof.
  revert n. induction t as [|ch t IH]; intros n; simpl; [reflexivity|].
  destruct (is_continuation ch).
  - intros Hlen. rewrite IH by assumption. reflexivity.
  - destruct n as [|n]; intros Hlen; [lia|]. rewrite IH by lia. reflexivity.
Qed.

(** The cut falls between two code points. *)
Lemma first_code_points_cut (n : nat) (t : string) :
  exists rest, t = first_code_points n t ++ rest /\ at_code_point rest.
Proof.
  revert n. induction t as [|ch t IH]; intros n; simpl.
  - exists "". split; reflexivity.
  - destruct (is_continuation ch) eqn:Hch.
    + destruct (IH n) as (rest & Heq & Hrest). exists rest. split; [|assumption].
      change (String ch t = String ch (first_code_points n t ++ rest)).
      f_equal. assumption.
    + destruct n as [|n].
      * exists (String ch t). split; [reflexivity | exact Hch].
      * destruct (IH n) as (rest & Heq & Hrest). exists rest. split; [|assumption].
        change (String ch t = String ch (first_code_points n t ++ rest)).
        f_equal. assumption.
Qed.

(** X14. The reasoning texts of the client state are the first 500
    characters (code points) of the stored ones: they count 500 code
    points, or as many as the stored text when it has fewer; they are a
    prefix of the stored text, cut between two code points; and they are
    the whole text when it has at most 500 code points. The move history
    shown is a suffix of at most ten records of the stored one, for every
    state. *)
Theorem client_state_truncates (s : state) :
  let cs := get_client_state s in
  code_points (cs_gpt_reasoning cs) = Nat.min 500 (code_points (gpt_reasoning s)) /\
  code_points (cs_claude_reasoning cs)
  = Nat.min 500 (code_points (claude_reasoning s)) /\
  String.prefix (cs_gpt_reasoning cs) (gpt_reasoning s) = true /\
  String.prefix (cs_claude_reasoning cs) (claude_reasoning s) = true /\
  (exists rest,
     gpt_reasoning s = cs_gpt_reasoning cs ++ rest /\ at_code_point rest) /\
  (exists rest,
     claude_reasoning s = cs_claude_reasoning cs ++ rest /\ at_code_point rest) /\
  (code_points (gpt_reasoning s) <= 500 -> cs_gpt_reasoning cs = gpt_reasoning s) /\
  (code_points (claude_reasoning s) <= 500 ->
   cs_claude_reasoning cs = claude_reasoning s) /\
  length (cs_move_history cs) <= 10 /\
  (length (move_history s) <= 10 -> cs_move_history cs = move_history s).
Proof.
  cbv zeta. unfold get_client_state.
  cbn [cs_gpt_reasoning cs_claude_reasoning cs_move_history].
  rewrite !first_code_points_count, last10_length.
  repeat split; try lia; try apply first_code_points_prefix;
    try apply first_code_points_all; try apply first_code_points_cut.
  intros Hlen. unfold last10.
  replace (length (move_history s) - 10) with 0 by lia. reflexivity.
Qed.

(** X15. [next_game] and the flag [all_games_complete] agree: when the
    flag is set [next_game] is refused with "All games completed" and the
    state stays; when the game is over and the flag is not set, [next_game]
    succeeds. *)
Theorem all_games_complete_blocks_next_game (s : state) (gpt_first : bool) :
  (cs_all_games_complete (get_client_state s) = true ->
   next_game (Some s) gpt_first
   = (Some s, Return (ErrorResponse "All games completed" 400))) /\
  (game_over s = true -> cs_all_games_complete (get_client_state s) = false ->
   succeeded (snd (next_game (Some s) gpt_first)) = true).
Proof.
  simpl. destruct (current_game s >=? total_games s)%Z; split.
  - reflexivity.
  - intros ->. discriminate.
  - rewrite andb_false_r. discriminate.
  - reflexivity.
Qed.

(** X16. [start_games] brings the requested number of games into [1,10]
    (leaving it alone when it is there already) and starts a fresh series:
    game 1 on the empty board, no move, zero statistics, empty game
    history, whatever state was there before. *)
Theorem start_games_clamps_and_resets (num_games : Z) (gpt_model claude_model : string)
    (gpt_first : bool) :
  exists s,
    start_games zero_time num_games gpt_model claude_model gpt_first
    = (Some s, Return (StateResponse (get_client_state s))) /\
    (1 <= total_games s <= 10)%Z /\
    ((1 <= num_games <= 10)%Z -> total_games s = num_games) /\
    ((num_games < 1)%Z -> total_games s = 1%Z) /\
    ((10 < num_games)%Z -> total_games s = 10%Z) /\
    current_game s = 1%Z /\ board s = create_empty_board /\
    move_history s = [] /\ game_history s = [] /\
    game_over s = false /\ winner s = None /\ turn_count s = 0%Z /\
    gpt_stats s = Stats 0 0 0 /\ claude_stats s = Stats 0 0 0 /\
    current_player s = first_player s /\
    first_player s = (if gpt_first then gpt else claude).
Proof.
  eexists. split; [reflexivity|]. simpl. repeat split; try lia; reflexivity.
Qed.

(** *** Bookkeeping of a tick *)

Lemma record_move_keeps (s : state) (current : player) (piece : string)
    (column row : Z) (now : string) (G' : option state) (r : outcome (response Time)) :
  record_move s current piece column row now = (G', r) ->
  exists s', G' = Some s' /\
    models_of s' = models_of s /\
    (forall p, reasoning_of s' p = reasoning_of s p) /\
    (forall p, last_time_of s' p = last_time_of s p) /\
    (forall p, total_time_of s' p = total_time_of s p).
Proof.
  unfold record_move. simpl.
  destruct (check_winner (board s) piece) as [[|]|e].
  - destruct current; intros H; inversion H; subst; eexists;
      (split; [reflexivity|]); (split; [reflexivity|]);
      repeat split; intros [|]; reflexivity.
  - destruct (is_board_full (board s)) as [[|]|e];
      intros H; inversion H; subst; eexists;
      (split; [reflexivity|]); (split; [reflexivity|]);
      repeat split; intros [|]; reflexivity.
  - intros H; inversion H; subst. eexists.
    split; [reflexivity|]. split; [reflexivity|].
    repeat split; intros [|]; reflexivity.
Qed.

Lemma play_column_keeps (s : state) (current : player) (piece : string)
    (valid_cols : list Z) (first_valid column : Z) (now : string)
    (G' : option state) (r : outcome (response Time)) :
  play_column s current piece valid_cols first_valid column now = (G', r) ->
  exists s', G' = Some s' /\
    models_of s' = models_of s /\
    (forall p, reasoning_of s' p = reasoning_of s p) /\
    (forall p, last_time_of s' p = last_time_of s p) /\
    (forall p, total_time_of s' p = total_time_of s p).
Proof.
  unfold play_column.
  destruct (drop_piece (board s) _ piece) as [b' [[[|] row]|e]]; simpl.
  - intros Hrec. destruct (record_move_keeps _ _ _ _ _ _ _ _ Hrec)
      as (s' & -> & Hm & Hr & Hl & Ht).
    exists s'. split; [reflexivity|]. split; [exact Hm|].
    repeat split; intros p; [rewrite Hr | rewrite Hl | rewrite Ht];
      destruct p; reflexivity.
  - intros H; inversion H; subst. eexists. split; [reflexivity|].
    split; [reflexivity|]. repeat split; intros [|]; reflexivity.
  - intros H; inversion H; subst. eexists. split; [reflexivity|].
    split; [reflexivity|]. repeat split; intros [|]; reflexivity.
Qed.


(** *** Model choices and the text shown for them *)

Lemma next_move_keeps_models (s s' : state) (env : tick_env) :
  fst (next_move (Some s) env) = Some s' -> models_of s' = models_of s.
Proof.
  intros Hmove. destruct (game_over s) eqn:Hover.
  - unfold next_move in Hmove. rewrite Hover in Hmove. simpl in Hmove.
    inversion Hmove; subst. reflexivity.
  - destruct (get_valid_columns (board s)) as [[|first_valid rest]|e] eqn:Hvalid;
      try (unfold next_move in Hmove; rewrite Hover in Hmove; simpl in Hmove;
           rewrite Hvalid in Hmove; simpl in Hmove; inversion Hmove; subst;
           reflexivity).
    destruct (provider env) as [[column reasoning]|e] eqn:Hprov.
    + rewrite (next_move_asks_provider s env _ _ _ _ Hover Hvalid Hprov) in Hmove.
      destruct (play_column _ _ _ _ _ _ _) as [G' r] eqn:Hplay.
      simpl in Hmove. subst G'.
      destruct (play_column_keeps _ _ _ _ _ _ _ _ _ Hplay) as (s0 & Hs0 & Hm & _).
      inversion Hs0; subst s0. rewrite Hm. unfold provider_bookkeeping.
      destruct (current_player s); reflexivity.
    + unfold next_move in Hmove. rewrite Hover in Hmove. simpl in Hmove.
      rewrite Hvalid, Hprov in Hmove.
      destruct (current_player s); simpl in Hmove; inversion Hmove; subst; reflexivity.
Qed.

Lemma init_game_state_models (gpt_first : bool) (gpt_model claude_model : string) :
  models_consistent (init_game_state zero_time gpt_first gpt_model claude_model).
Proof. repeat split. Qed.

Lemma models_of_consistent (s s' : state) :
  models_of s' = models_of s -> models_consistent s -> models_consistent s'.
Proof.
  unfold models_of, models_consistent. intros Heq. inversion Heq as [[H1 H2 H3 H4 H5 H6]].
  rewrite H1, H2, H3, H4, H5, H6. auto.
Qed.

Lemma reachable_models (G : option state) :
  reachable zero_time add_time round2 G -> forall s, G = Some s -> models_consistent s.
Proof.
  induction 1 as [| G n gm cm gf _ _ | G gf _ IH | G env _ IH | G gf _ IH];
    intros s Hs.
  - discriminate.
  - simpl in Hs. inversion Hs; subst. repeat split.
  - destruct G as [s0|]; simpl in Hs; inversion Hs; subst.
    + apply IH. reflexivity.
    + apply init_game_state_models.
  - destruct G as [s0|]; [|simpl in Hs; discriminate].
    eapply models_of_consistent; [eapply next_move_keeps_models; exact Hs|].
    apply IH. reflexivity.
  - destruct G as [s0|]; [|simpl in Hs; discriminate].
    simpl in Hs. destruct (current_game s0 >=? total_games s0)%Z; simpl in Hs;
      inversion Hs; subst; [apply IH; reflexivity | repeat split].
Qed.

(** X24. The agent configuration is fixed for the life of a series: in
    every state the handlers produce the model ids and display names are
    the table entries of the two model choices (the defaults for a choice
    that is not in the tables), and neither [next_move] nor [next_game]
    changes any of the six fields. *)
Theorem agent_configuration_is_fixed (s : state) :
  reachable zero_time add_time round2 (Some s) ->
  models_consistent s /\
  (forall env s', fst (next_move (Some s) env) = Some s' -> models_of s' = models_of s) /\
  (forall gpt_first s',
     fst (next_game (Some s) gpt_first) = Some s' -> models_of s' = models_of s).
Proof.
  intros Hreach. pose proof (reachable_models _ Hreach s eq_refl) as Hcons.
  split; [assumption|]. split.
  - intros env s'. apply next_move_keeps_models.
  - intros gpt_first s'. simpl.
    destruct (current_game s >=? total_games s)%Z; simpl; intros H; inversion H; subst;
      [reflexivity|].
    destruct Hcons as (H1 & H2 & H3 & H4). unfold models_of. simpl.
    rewrite H1, H2, H3, H4. reflexivity.
Qed.

Lemma retry_loop_no_flag_no_summary (strip : string -> string)
    (parse_column : string -> outcome Z) (api : nat -> outcome (list Retry.block))
    (attempts : list nat) :
  forall slept slept' column summary,
    Retry.retry_loop strip parse_column api false attempts slept
    = (slept', Return (column, summary)) ->
    summary = None.
Proof.
  induction attempts as [|attempt rest IH]; intros slept slept' column summary;
    simpl; [discriminate|].
  destruct (api attempt) as [content|e]; [|discriminate].
  destruct (String.eqb (strip (Retry.json_text strip content)) "").
  - destruct (attempt <? _)%nat; [apply IH | discriminate].
  - destruct (parse_column _); [|discriminate].
    intros H; inversion H; reflexivity.
Qed.

(** X25. For the choice "gpt-5-mini" the GPT call returns no reasoning,
    and for the two standard Claude choices the Claude call is made without
    thinking and returns none either; so after a tick of such an agent the
    reasoning stored for it is "Move selected.". *)
Theorem plain_models_show_move_selected (s s' : state) (env : tick_env)
    (gpt_api : OpenAI.gpt_request -> outcome OpenAI.gpt_response)
    (strip : string -> string) (parse_column : string -> outcome Z)
    (claude_api : nat -> outcome (list Retry.block))
    (first_valid : Z) (rest : list Z) (column : Z) (reasoning : option string) :
  game_over s = false ->
  get_valid_columns (board s) = Return (first_valid :: rest) ->
  provider env = Return (column, reasoning) ->
  fst (next_move (Some s) env) = Some s' ->
  (current_player s = gpt -> gpt_model s = "gpt-5-mini" ->
   provider env = gpt_provider gpt_api s ->
   gpt_reasoning s' = "Move selected.") /\
  (current_player s = claude ->
   (claude_model s = "claude-haiku-4.5-standard" \/
    claude_model s = "claude-sonnet-4.5-standard") ->
   provider env = claude_provider strip parse_column claude_api s ->
   claude_reasoning s' = "Move selected.").
Proof.
  intros Hover Hvalid Hprov Hmove.
  rewrite (next_move_asks_provider s env _ _ _ _ Hover Hvalid Hprov) in Hmove.
  destruct (play_column _ _ _ _ _ _ _) as [G' r] eqn:Hplay.
  simpl in Hmove. subst G'.
  destruct (play_column_keeps _ _ _ _ _ _ _ _ _ Hplay) as (s0 & Hs0 & _ & Hr & _).
  inversion Hs0; subst s0; clear Hs0. split.
  - intros Hcur Hmini Hcall.
    rewrite (Hr gpt : gpt_reasoning s' = _).
    unfold provider_bookkeeping. rewrite Hcur. simpl.
    assert (reasoning = None) as ->; [|reflexivity].
    rewrite Hprov in Hcall. unfold gpt_provider, OpenAI.call_chatgpt_move in Hcall.
    rewrite Hmini in Hcall. simpl in Hcall.
    destruct (gpt_api _) as [resp|e]; [|discriminate].
    destruct (OpenAI.output_parsed resp); [|discriminate].
    inversion Hcall. reflexivity.
  - intros Hcur Hstd Hcall.
    rewrite (Hr claude : claude_reasoning s' = _).
    unfold provider_bookkeeping. rewrite Hcur. simpl.
    assert (reasoning = None) as ->; [|reflexivity].
    rewrite Hprov in Hcall. unfold claude_provider in Hcall.
    assert (claude_use_thinking s = false) as Hflag.
    { unfold claude_use_thinking. destruct Hstd as [-> | ->]; reflexivity. }
    rewrite Hflag in Hcall. unfold Retry.call_claude_move_with_thinking_flag in Hcall.
    destruct (Retry.retry_loop _ _ _ _ _ _) as [slept o] eqn:Hloop.
    simpl in Hcall. subst o.
    eapply retry_loop_no_flag_no_summary. exact Hloop.
Qed.

(** *** The course of a game does not depend on the turn counter *)

Lemma record_move_same_game (s1 s2 : state) (current : player) (piece : string)
    (column row : Z) (now1 now2 : string) :
  same_game s1 s2 ->
  match record_move s1 current piece column row now1,
        record_move s2 current piece column row now2 with
  | (Some t1, r1), (Some t2, r2) =>
      same_game t1 t2 /\ succeeded r1 = succeeded r2
  | _, _ => False
  end.
Proof.
  intros (Hb & Hh & Hc & Hf & Ho & Hw & Hl & Hg & Hcl & Hcg & Htg & Hgg & Hgw & Hm).
  unfold models_of in Hm. inversion Hm as [[M1 M2 M3 M4 M5 M6]].
  unfold record_move. simpl. rewrite Hb.
  destruct (check_winner (board s2) piece) as [[|]|e].
  - destruct current; (split; [|reflexivity]); unfold same_game, models_of; simpl;
      rewrite ?map_app, ?Hh, ?Hg, ?Hcl, ?Hgg, ?Hgw, ?Hcg, ?M1, ?M2, ?M3, ?M4, ?M5, ?M6;
      simpl; repeat split; try assumption; try reflexivity; congruence.
  - destruct (is_board_full (board s2)) as [[|]|e]; (split; [|reflexivity]);
      unfold same_game, models_of; simpl;
      rewrite ?map_app, ?Hh, ?Hg, ?Hcl, ?Hgg, ?Hgw, ?Hcg, ?M1, ?M2, ?M3, ?M4, ?M5, ?M6;
      simpl; repeat split; try assumption; try reflexivity; congruence.
  - split; [|reflexivity]. unfold same_game, models_of; simpl.
    rewrite ?Hh, ?M1, ?M2, ?M3, ?M4, ?M5, ?M6.
    repeat split; try assumption; try reflexivity; congruence.
Qed.

Lemma play_column_same_game (s1 s2 : state) (current : player) (piece : string)
    (valid_cols : list Z) (first_valid column : Z) (now1 now2 : string) :
  same_game s1 s2 ->
  match play_column s1 current piece valid_cols first_valid column now1,
        play_column s2 current piece valid_cols first_valid column now2 with
  | (Some t1, r1), (Some t2, r2) =>
      same_game t1 t2 /\ succeeded r1 = succeeded r2
  | _, _ => False
  end.
Proof.
  intros Hsame. pose proof Hsame as (Hb & Hrest).
  unfold play_column. rewrite Hb.
  destruct (drop_piece (board s2) _ piece) as [b' [[[|] row]|e]]; simpl.
  - apply record_move_same_game.
    destruct Hsame as (_ & Hh & Hc & Hf & Ho & Hw & Hl & Hg & Hcl & Hcg & Htg
                       & Hgg & Hgw & Hm).
    unfold same_game, models_of in *. simpl. repeat split; assumption.
  - split; [|reflexivity].
    destruct Hsame as (_ & Hh & Hc & Hf & Ho & Hw & Hl & Hg & Hcl & Hcg & Htg
                       & Hgg & Hgw & Hm).
    unfold same_game, models_of in *. simpl. repeat split; assumption.
  - split; [|reflexivity].
    destruct Hsame as (_ & Hh & Hc & Hf & Ho & Hw & Hl & Hg & Hcl & Hcg & Htg
                       & Hgg & Hgw & Hm).
    unfold same_game, models_of in *. simpl. repeat split; assumption.
Qed.

Lemma next_move_same_game (s1 s2 : state) (env1 env2 : tick_env) :
  same_game s1 s2 -> provider env1 = provider env2 ->
  match next_move (Some s1) env1, next_move (Some s2) env2 with
  | (Some t1, r1), (Some t2, r2) =>
      same_game t1 t2 /\ succeeded r1 = succeeded r2
  | _, _ => False
  end.
Proof.
  intros Hsame Hprov.
  pose proof Hsame as (Hb & Hh & Hc & Hf & Ho & Hw & Hl & Hg & Hcl & Hcg & Htg
                       & Hgg & Hgw & Hm).
  unfold next_move. rewrite Ho, Hc, Hprov. simpl. rewrite Hb.
  destruct (game_over s2) eqn:Ho2; [split; [assumption | reflexivity]|].
  destruct (get_valid_columns (board s2)) as [[|first_valid rest]|e].
  - split; [|reflexivity]. unfold same_game, models_of in *. simpl.
    repeat split; congruence.
  - destruct (current_player s2) eqn:Hc2;
      (destruct (provider env2) as [[column reasoning]|e];
       [apply play_column_same_game
       |split; [|reflexivity]]);
      unfold same_game, models_of in *; simpl; repeat split; congruence.
  - split; [|reflexivity]. unfold same_game, models_of in *. simpl.
    repeat split; congruence.
Qed.

(** X26. A tick whose provider failed can be retried without trace in the
    game: the state it leaves is the state before with the turn counter one
    higher and every other field unchanged, so it is the same game as
    before. And from any two states of the same game the next tick, given
    the same provider outcome, leads again to two states of the same game
    with the same success or failure, whatever the durations and the clock;
    this holds in particular for the state left by the failure and the
    state before it. *)
Theorem failed_tick_can_be_retried (s s_failed : state) (env_failed : tick_env)
    (first_valid : Z) (rest : list Z) (e : exn) :
  game_over s = false ->
  get_valid_columns (board s) = Return (first_valid :: rest) ->
  provider env_failed = Raise e ->
  fst (next_move (Some s) env_failed) = Some s_failed ->
  s_failed = set_turn_count s (turn_count s + 1) /\
  same_game s_failed s /\
  turn_count s_failed = (turn_count s + 1)%Z /\
  (forall s1 s2 env1 env2, same_game s1 s2 -> provider env1 = provider env2 ->
     match next_move (Some s1) env1, next_move (Some s2) env2 with
     | (Some t1, r1), (Some t2, r2) =>
         same_game t1 t2 /\ succeeded r1 = succeeded r2
     | _, _ => False
     end) /\
  (forall env1 env2, provider env1 = provider env2 ->
     match next_move (Some s_failed) env1, next_move (Some s) env2 with
     | (Some t1, r1), (Some t2, r2) =>
         same_game t1 t2 /\ succeeded r1 = succeeded r2
     | _, _ => False
     end).
Proof.
  intros Hover Hvalid Hprov Hmove.
  assert (s_failed = set_turn_count s (turn_count s + 1)) as ->.
  { unfold next_move in Hmove. rewrite Hover in Hmove. simpl in Hmove.
    rewrite Hvalid, Hprov in Hmove.
    destruct (current_player s); simpl in Hmove; inversion Hmove; reflexivity. }
  assert (same_game (set_turn_count s (turn_count s + 1)) s) as Hsame
    by (unfold same_game, models_of; simpl; repeat split).
  split; [reflexivity|]. split; [exact Hsame|]. split; [reflexivity|].
  split.
  - intros s1 s2 env1 env2. apply next_move_same_game.
  - intros env1 env2 Henv. apply next_move_same_game; assumption.
Qed.

(** *** Every draw is counted *)

(** C8. Every tick that takes a session the handlers produced from a game
    in progress to a game concluded as a draw increments the draw counters
    of both agents by one, leaving their wins and losses alone, and enters
    the game into the history as a draw. Such a tick never starts without a
    valid column: the list of valid columns at its start is not empty, the
    provider was called and answered, the move was applied, and the board
    is full after it. *)
Theorem draw_tick_increments_both_counters (s s' : state) (env : tick_env) :
  reachable zero_time add_time round2 (Some s) ->
  game_over s = false ->
  fst (next_move (Some s) env) = Some s' ->
  game_over s' = true -> winner s' = Some Draw ->
  draws (gpt_stats s') = (draws (gpt_stats s) + 1)%Z /\
  draws (claude_stats s') = (draws (claude_stats s) + 1)%Z /\
  gpt_stats s' = add_draw (gpt_stats s) /\
  claude_stats s' = add_draw (claude_stats s) /\
  (exists first_valid rest,
     get_valid_columns (board s) = Return (first_valid :: rest)) /\
  (exists column reasoning, provider env = Return (column, reasoning)) /\
  is_board_full (board s') = Return true /\
  length (move_history s') = S (length (move_history s)) /\
  (exists entry,
     (game_history s' = game_history s ++ [entry])%list /\
     gh_winner entry = "Draw").
Proof.
  intros Hreach Hover Hmove Hover' Hwin.
  pose proof (reachable_playable _ Hreach s eq_refl) as Hplay.
  pose proof Hplay as [Hwf Hlive].
  destruct (next_move_live s env Hplay Hover)
    as [(e & _ & Hfail & _) | (column & reasoning & c & row & Hret & _ & _
                               & _ & _ & Hrec)].
  - rewrite Hfail in Hmove. inversion Hmove; subst s'. simpl in Hover'. congruence.
  - set (cur := current_player s) in *. set (piece := piece_of cur) in *.
    set (b' := board_set (board s) row (Z.to_nat (c - 1)) piece) in *.
    destruct (after_drop_fields s env reasoning b')
      as (B2 & H2 & T2 & F2 & C2 & GS2 & CS2 & GH2 & O2 & W2 & CG2 & TG2).
    set (s2 := set_board (provider_bookkeeping add_time round2 s env reasoning) b')
      in *.
    assert (wf_board b') as Hwf' by (apply wf_board_set; assumption).
    rewrite Hrec in Hmove.
    destruct (record_move s2 cur piece c (Z.of_nat row) (now env)) as [G' r] eqn:Hrm.
    simpl in Hmove. subst G'.
    destruct (record_move_outcome s2 cur piece c (Z.of_nat row) (now env) _ r
                ltac:(rewrite B2; exact Hwf') Hrm)
      as (s0 & Hs0 & _ & (Hh & _ & Hb & _) & _ & _ & _ & Hcases).
    inversion Hs0; subst s0; clear Hs0.
    destruct Hcases as [[_ (_ & Hw & _)]
                       | [(_ & Hfull & _ & _ & _ & Hg & Hc' & entry & Hgh & _ & _ & He)
                         | (_ & _ & Ho & _)]].
    + congruence.
    + rewrite Hg, Hc', GS2, CS2, Hb, Hh, H2, length_app. simpl.
      repeat split; try reflexivity.
      * apply Hlive. assumption.
      * eauto.
      * assumption.
      * lia.
      * exists entry. rewrite Hgh, GH2. split; [reflexivity | assumption].
    + congruence.
Qed.

End Session.

(** *** The theorems on sample sessions *)

Lemma wf_sample_start : wf_board (board sample_start).
Proof. apply wf_sample_boards. Qed.

Lemma lowest_empty_sample_start : lowest_empty (board sample_start) 0 5.
Proof.
  split; [unfold ROWS; lia|]. split; [reflexivity|].
  intros row' Hrow'. unfold ROWS in Hrow'. lia.
Qed.

Lemma illegal_column_falls_back_to_first_valid_witness :
  exists s',
    sample_next_move (Some sample_start) (sample_env 9 30)
    = (Some s', Return (MoveResponse gpt 1 5 (get_client_state s'))) /\
    cell_of (board sample_start) 5 0 = Some "." /\
    cell_of (board s') 5 0 = Some "R" /\
    cell_of (board s') 4 0 = Some "." /\
    move_history s' = [(gpt, 1%Z)] /\
    last_move s' = Some (MoveRecord 1 5 gpt).
Proof.
  destruct (illegal_column_falls_back_to_first_valid Z Z.add (fun t => t)
              sample_start (sample_env 9 30) 1%Z [2; 3; 4; 5; 6; 7]%Z 9%Z None
              eq_refl wf_sample_start eq_refl eq_refl)
    as (s' & r & Hmove & _ & _ & Hlowest & Hbefore & Hafter & Hothers & Hhist & Hlast).
  - intros Hin. repeat (apply elem_of_cons in Hin as [Hin | Hin]; [discriminate|]).
    apply elem_of_nil in Hin. exact Hin.
  - assert (r = 5) as -> by exact (lowest_empty_unique _ _ _ _ Hlowest
                                      lowest_empty_sample_start).
    exists s'. split; [exact Hmove|]. split; [exact Hbefore|].
    split; [exact Hafter|].
    split; [rewrite (Hothers 4 0) by discriminate; reflexivity|].
    split; [exact Hhist | exact Hlast].
Defined.

Lemma provider_error_leaves_turn_counted_witness :
  exists msg,
    sample_next_move (Some sample_start) sample_failing_env
    = (Some (set_turn_count sample_start 1), Return (ErrorResponse msg 500)) /\
    turn_count (set_turn_count sample_start 1) <> turn_count sample_start.
Proof.
  destruct (provider_error_leaves_turn_counted Z Z.add (fun t => t)
              sample_start sample_failing_env 1%Z [2; 3; 4; 5; 6; 7]%Z
              (OtherError "connection reset") eq_refl eq_refl eq_refl)
    as (msg & Hmove & Hturn & _).
  exists msg. split; [exact Hmove | exact Hturn].
Defined.

Lemma sample_ticks :
  exists s1 s3 cs1 cs3,
    sample_next_move (Some sample_start) (sample_env 1 10)
    = (Some s1, Return (MoveResponse gpt 1 5 cs1)) /\
    last (move_history s1) = Some (gpt, 1%Z) /\
    sample_next_move (sample_tick after_first_move 2 20) (sample_env 1 30)
    = (Some s3, Return (MoveResponse gpt 1 4 cs3)) /\
    last (move_history s3) = Some (gpt, 1%Z).
Proof.
  do 4 eexists. vm_compute. repeat split; reflexivity.
Qed.

Lemma move_record_is_agent_and_column_witness :
  exists s',
    fst (sample_next_move (Some sample_start) (sample_env 1 10)) = Some s' /\
    move_history s' = [(gpt, 1%Z)] /\
    last_move s' = Some (MoveRecord 1 5 gpt) /\
    gpt_last_time s' = 10%Z.
Proof.
  destruct sample_ticks as (s1 & s3 & cs1 & cs3 & Hfirst & _).
  destruct (move_record_is_agent_and_column Z Z.add (fun t => t)
              (Some sample_start) (Some s1) (sample_env 1 10) gpt 1%Z 5%Z cs1 Hfirst)
    as (s & s' & Hs & Hs' & _ & Hhist & Hlast & Htime & _).
  inversion Hs; subst s. inversion Hs'; subst s'.
  exists s1. rewrite Hfirst.
  split; [reflexivity|]. split; [exact Hhist|]. split; [exact Hlast | exact Htime].
Defined.

Lemma next_game_needs_only_index_below_total_witness :
  exists s',
    fst (next_game 0%Z (Some sample_start) false) = Some s' /\
    current_game s' = 2%Z /\ total_games s' = 3%Z /\
    game_history s' = game_history sample_start.
Proof.
  destruct (next_game_needs_only_index_below_total Z 0%Z (Some sample_start) false)
    as (_ & _ & _ & Hnext).
  destruct (Hnext sample_start eq_refl ltac:(reflexivity)) as (s' & Hgame & Hfields).
  exists s'. rewrite Hgame.
  repeat split; apply Hfields.
Defined.

(** C7, the statement of the specification fails: in a series of three,
    with the first game still awaiting its first move, [next_game]
    succeeds. *)
Lemma next_game_succeeds_before_conclusion :
  game_over sample_start = false /\
  ~ concluded sample_start /\
  succeeded (snd (next_game 0%Z (Some sample_start) true)) = true.
Proof.
  split; [reflexivity|]. split; [discriminate | reflexivity].
Qed.

(** C9, the statement of the specification fails: the same record
    [(gpt, 1)] is appended by a move landing in row 5 after 0.10s and by a
    move landing in row 4 after 0.30s, so neither the row nor the duration
    can be read off the record. *)
Lemma move_record_lacks_row_and_duration :
  ~ (exists row_of : player * Z -> Z,
       forall G env G' s' p c r cs,
         sample_next_move G env = (G', Return (MoveResponse p c r cs)) ->
         G' = Some s' ->
         row_of <$> last (move_history s') = Some r) /\
  ~ (exists duration_of : player * Z -> Z,
       forall G env G' s' p c r cs,
         sample_next_move G env = (G', Return (MoveResponse p c r cs)) ->
         G' = Some s' ->
         duration_of <$> last (move_history s') = Some (elapsed env)).
Proof.
  destruct sample_ticks as (s1 & s3 & cs1 & cs3 & Hfirst & Hlast1 & Hthird & Hlast3).
  split; intros (f & Hf);
    pose proof (Hf _ _ _ _ _ _ _ _ Hfirst eq_refl) as H1;
    pose proof (Hf _ _ _ _ _ _ _ _ Hthird eq_refl) as H3;
    rewrite Hlast1 in H1; rewrite Hlast3 in H3; simpl in H1, H3; congruence.
Qed.

(** *** The session theorems on sample sessions *)

Lemma reachable_sample_start :
  reachable 0%Z Z.add (fun t => t) (Some sample_start).
Proof.
  exact (reachable_start Z 0%Z Z.add (fun t => t) None 3%Z "gpt-5.1" "claude-haiku-4.5"
           true (reachable_initial Z 0%Z Z.add (fun t => t))).
Qed.

Lemma reachable_first_move :
  exists s1,
    fst (sample_next_move (Some sample_start) (sample_env 1 10)) = Some s1 /\
    reachable 0%Z Z.add (fun t => t) (Some s1).
Proof.
  destruct sample_ticks as (s1 & _ & cs1 & _ & Hfirst & _).
  exists s1. split; [rewrite Hfirst; reflexivity|].
  pose proof (reachable_move Z 0%Z Z.add (fun t => t) (Some sample_start)
                (sample_env 1 10) reachable_sample_start) as Hreach.
  rewrite Hfirst in Hreach. exact Hreach.
Qed.

Lemma reachable_play_columns (columns : list Z) :
  forall G,
    reachable 0%Z Z.add (fun t => t) G ->
    reachable 0%Z Z.add (fun t => t) (play_columns G columns).
Proof.
  induction columns as [|column columns IH]; intros G Hreach; [exact Hreach|].
  apply IH. apply reachable_move. exact Hreach.
Qed.

Lemma drawn_game_ticks :
  exists s41 s42,
    play_columns (Some sample_start) drawn_game_columns = Some s41 /\
    game_over s41 = false /\
    fst (sample_next_move (Some s41) (sample_env 7 10)) = Some s42 /\
    game_over s42 = true /\ winner s42 = Some Draw /\
    board s42 = drawn_board /\
    draws (gpt_stats s41) = 0%Z /\ draws (claude_stats s41) = 0%Z.
Proof.
  do 2 eexists.
  split; [vm_compute; reflexivity|]. split; [vm_compute; reflexivity|].
  split; [vm_compute; reflexivity|]. vm_compute. repeat split; reflexivity.
Qed.

Lemma draw_tick_increments_both_counters_witness :
  exists s41 s42,
    play_columns (Some sample_start) drawn_game_columns = Some s41 /\
    fst (sample_next_move (Some s41) (sample_env 7 10)) = Some s42 /\
    winner s42 = Some Draw /\ board s42 = drawn_board /\
    draws (gpt_stats s42) = 1%Z /\ draws (claude_stats s42) = 1%Z.
Proof.
  destruct drawn_game_ticks
    as (s41 & s42 & H41 & Hlive & H42 & Hover & Hwinner & Hboard & Hgpt & Hclaude).
  exists s41, s42.
  split; [exact H41|]. split; [exact H42|]. split; [exact Hwinner|].
  split; [exact Hboard|].
  pose proof (reachable_play_columns drawn_game_columns (Some sample_start)
                reachable_sample_start) as Hreach.
  rewrite H41 in Hreach.
  destruct (draw_tick_increments_both_counters Z 0%Z Z.add (fun t => t)
              s41 s42 (sample_env 7 10) Hreach Hlive H42 Hover Hwinner)
    as (Hg & Hc & _).
  rewrite Hg, Hc, Hgpt, Hclaude. split; reflexivity.
Defined.

Lemma playable_sample_start : playable sample_start.
Proof.
  split; [apply wf_sample_start|]. intros _. eexists _, _. reflexivity.
Qed.

Lemma next_move_surfaces_only_provider_errors_witness :
  exists r, snd (sample_next_move (Some sample_start) sample_failing_env) = Return r.
Proof.
  destruct (next_move_surfaces_only_provider_errors Z 0%Z Z.add (fun t => t)
              (Some sample_start) sample_failing_env reachable_sample_start)
    as (r & Hr & _).
  exists r. exact Hr.
Defined.

Lemma pieces_match_move_history_witness :
  exists s1,
    fst (sample_next_move (Some sample_start) (sample_env 1 10)) = Some s1 /\
    count_occupied (board s1) = length (move_history s1).
Proof.
  destruct reachable_first_move as (s1 & Hs1 & Hreach).
  exists s1. split; [exact Hs1|].
  apply (pieces_match_move_history Z 0%Z Z.add (fun t => t) s1 Hreach).
Defined.

Lemma moves_alternate_witness :
  exists s1,
    fst (sample_next_move (Some sample_start) (sample_env 1 10)) = Some s1 /\
    (game_over s1 = false ->
     current_player s1 = nth_mover (first_player s1) (length (move_history s1))).
Proof.
  destruct reachable_first_move as (s1 & Hs1 & Hreach).
  exists s1. split; [exact Hs1|].
  apply (moves_alternate Z 0%Z Z.add (fun t => t) s1 Hreach).
Defined.

Lemma statistics_mirror_and_count_games_witness :
  exists s1,
    fst (sample_next_move (Some sample_start) (sample_env 1 10)) = Some s1 /\
    wins (gpt_stats s1) = losses (claude_stats s1).
Proof.
  destruct reachable_first_move as (s1 & Hs1 & Hreach).
  exists s1. split; [exact Hs1|].
  apply (statistics_mirror_and_count_games Z 0%Z Z.add (fun t => t) s1 Hreach).
Defined.

Lemma series_index_within_total_witness :
  (1 <= current_game sample_start <= total_games sample_start)%Z.
Proof.
  apply (series_index_within_total Z 0%Z Z.add (fun t => t) sample_start
           reachable_sample_start).
Defined.

Lemma winner_matches_board_witness :
  exists s1,
    fst (sample_next_move (Some sample_start) (sample_env 1 10)) = Some s1 /\
    (game_over s1 = false <-> winner s1 = None).
Proof.
  destruct reachable_first_move as (s1 & Hs1 & Hreach).
  exists s1. split; [exact Hs1|].
  apply (winner_matches_board Z 0%Z Z.add (fun t => t) s1 Hreach).
Defined.

Lemma last_move_points_at_last_piece_witness :
  exists s1,
    fst (sample_next_move (Some sample_start) (sample_env 1 10)) = Some s1 /\
    match last_move s1 with
    | None => move_history s1 = []
    | Some m =>
        last (move_history s1) = Some (mover m, col m) /\
        exists r, row m = Z.of_nat r /\
          cell_of (board s1) r (Z.to_nat (col m - 1)) = Some (piece_of (mover m))
    end.
Proof.
  destruct reachable_first_move as (s1 & Hs1 & Hreach).
  exists s1. split; [exact Hs1|].
  apply (last_move_points_at_last_piece Z 0%Z Z.add (fun t => t) s1 Hreach).
Defined.


Lemma client_state_truncates_witness :
  code_points (gpt_reasoning sample_long) = 501 /\
  code_points (cs_gpt_reasoning (get_client_state sample_long)) = 500 /\
  cs_gpt_reasoning (get_client_state sample_long) = repeat_text 500 e_acute.
Proof.
  pose proof (client_state_truncates Z sample_long) as H. cbv zeta in H.
  destruct H as (Hcount & _).
  split; [vm_compute; reflexivity|]. split.
  - rewrite Hcount. vm_compute. reflexivity.
  - vm_compute. reflexivity.
Defined.

Lemma all_games_complete_blocks_next_game_witness :
  succeeded (snd (next_game 0%Z (Some (set_game_over sample_start true)) true)) = true.
Proof.
  apply (proj2 (all_games_complete_blocks_next_game Z 0%Z
                  (set_game_over sample_start true) true));
    reflexivity.
Defined.


Lemma agent_configuration_is_fixed_witness : models_consistent sample_start.
Proof.
  apply (agent_configuration_is_fixed Z 0%Z Z.add (fun t => t) sample_start
           reachable_sample_start).
Defined.

Lemma mini_tick :
  exists s', fst (sample_next_move (Some mini_start) mini_env) = Some s'.
Proof. eexists. vm_compute. reflexivity. Qed.

Lemma plain_models_show_move_selected_witness :
  exists s', fst (sample_next_move (Some mini_start) mini_env) = Some s' /\
    gpt_reasoning s' = "Move selected.".
Proof.
  destruct mini_tick as (s' & Hs').
  exists s'. split; [exact Hs'|].
  apply (proj1 (plain_models_show_move_selected Z Z.add (fun t => t) mini_start s'
                  mini_env sample_gpt_api Retry.ascii_strip Retry.decode_column
                  Retry.api_no_blocks 1%Z [2; 3; 4; 5; 6; 7]%Z 4%Z None
                  eq_refl eq_refl eq_refl Hs'));
    reflexivity.
Defined.

Lemma failed_tick :
  exists s_failed,
    fst (sample_next_move (Some sample_start) sample_failing_env) = Some s_failed.
Proof. eexists. vm_compute. reflexivity. Qed.

Lemma failed_tick_can_be_retried_witness :
  exists s_failed,
    fst (sample_next_move (Some sample_start) sample_failing_env) = Some s_failed /\
    s_failed = set_turn_count sample_start 1 /\
    same_game s_failed sample_start.
Proof.
  destruct failed_tick as (s_failed & Hfailed).
  exists s_failed. split; [exact Hfailed|].
  destruct (failed_tick_can_be_retried Z Z.add (fun t => t) sample_start s_failed
              sample_failing_env 1%Z [2; 3; 4; 5; 6; 7]%Z
              (OtherError "connection reset") eq_refl eq_refl eq_refl Hfailed)
    as (Heq & Hsame & _).
  split; [exact Heq | exact Hsame].
Defined.

End GameFacts.
